(** * Job deadline crawler: the extraction pipeline, embedded and verified

    The repository holds three variants of one React application:
    - [src/App.jsx]      (module [AppJsx]):  keyword link filter, relevance
                         gate, exact-or-nearest deadline filter;
    - [unnamed/part_000] (module [Part000]): the [useReducer] variant with
                         [crawlerReducer] and an on-or-before filter;
    - [unnamed/part_001] (module [Part001]): the earliest variant, without
                         link keywords and without the relevance gate.

    Modelling conventions.
    - A JavaScript string is a [string]: a sequence of code units below 256.
    - A [Date] is its time value, milliseconds since the epoch, in [Z]; the
      invalid date (time value NaN) is [None] of [option Z].
    - [null] and [undefined] are [None]; a thrown exception is [Throw].
    - Built-ins whose result the language leaves to the host ([Date.parse] on
      a string outside the ISO format, the [URL] constructor, the HTML
      parser, [fetch]) are section variables.
    - Local time is UTC plus a fixed offset.

    The definitions come first; the properties follow, from [RegexFacts]
    on. *)

From Stdlib Require Import ZArith List String Ascii Bool Lia Permutation.
From Stdlib Require Import DecimalString.
Import ListNotations.
Open Scope string_scope.
Open Scope list_scope.
Open Scope Z_scope.

(** ** Results of JavaScript computations *)

Inductive js (A : Type) : Type :=
| Ret (a : A)
| Throw (message : string).
Arguments Ret {A} a.
Arguments Throw {A} message.

Definition bind {A B : Type} (m : js A) (f : A -> js B) : js B :=
  match m with
  | Ret a => f a
  | Throw e => Throw e
  end.

Notation "x <- m ;; k" := (bind m (fun x => k))
  (at level 61, m at next level, right associativity).

(** ** Characters and strings *)

Module Str.

Definition code (c : ascii) : Z := Z.of_N (N_of_ascii c).

Definition between (lo hi : Z) (c : ascii) : bool :=
  (lo <=? code c) && (code c <=? hi).

(** [\d] *)
Definition is_digit (c : ascii) : bool := between 48 57 c.
Definition is_upper (c : ascii) : bool := between 65 90 c.
Definition is_lower (c : ascii) : bool := between 97 122 c.
(** [[a-z]] under the [i] flag *)
Definition is_alpha (c : ascii) : bool := is_upper c || is_lower c.
(** [\w] *)
Definition is_word (c : ascii) : bool :=
  is_alpha c || is_digit c || (code c =? 95).
(** [\s], and the characters [trim] strips: TAB LF VT FF CR SP NBSP *)
Definition is_space (c : ascii) : bool :=
  between 9 13 c || (code c =? 32) || (code c =? 160).
(** [[./-]] *)
Definition is_sep (c : ascii) : bool :=
  (code c =? 46) || (code c =? 47) || (code c =? 45).

(** [toLowerCase] on one code unit: A-Z, and the Latin-1 capitals. *)
Definition lower (c : ascii) : ascii :=
  if is_upper c then ascii_of_N (N_of_ascii c + 32)
  else if between 192 222 c && negb (code c =? 215)
       then ascii_of_N (N_of_ascii c + 32)
  else c.

Fixpoint toLowerCase (s : string) : string :=
  match s with
  | EmptyString => EmptyString
  | String c s' => String (lower c) (toLowerCase s')
  end.

Fixpoint startsWith (s p : string) : bool :=
  match p, s with
  | EmptyString, _ => true
  | String a p', String b s' => Ascii.eqb a b && startsWith s' p'
  | String _ _, EmptyString => false
  end.

Fixpoint includes (s p : string) : bool :=
  startsWith s p ||
  match s with
  | EmptyString => false
  | String _ s' => includes s' p
  end.

Fixpoint drop (n : nat) (s : string) : string :=
  match n, s with
  | O, _ => s
  | S n', String _ s' => drop n' s'
  | S _, EmptyString => EmptyString
  end.

Fixpoint take (n : nat) (s : string) : string :=
  match n, s with
  | S n', String c s' => String c (take n' s')
  | _, _ => EmptyString
  end.

Fixpoint trimStart (s : string) : string :=
  match s with
  | String c s' => if is_space c then trimStart s' else s
  | EmptyString => EmptyString
  end.

(** [trimEnd], right to left: a character is kept when it is not white
    space or when something is kept after it. *)
Fixpoint trimEnd (s : string) : string :=
  match s with
  | EmptyString => EmptyString
  | String c s' =>
      match trimEnd s' with
      | EmptyString => if is_space c then EmptyString else String c EmptyString
      | r => String c r
      end
  end.

Definition trim (s : string) : string := trimEnd (trimStart s).

(** Every character of [s] is in the class [p]. *)
Fixpoint all (p : ascii -> bool) (s : string) : bool :=
  match s with
  | EmptyString => true
  | String c s' => p c && all p s'
  end.

(** Neither of [. / -], and not a comma. *)
Definition noSep (c : ascii) : bool := negb (is_sep c).
Definition noComma (c : ascii) : bool := negb (Ascii.eqb c ",").

(** [s.replace(/, /g, ' ')] *)
Fixpoint replaceCommaSpace (s : string) : string :=
  match s with
  | String "," (String " " s') => String " " (replaceCommaSpace s')
  | String c s' => String c (replaceCommaSpace s')
  | EmptyString => EmptyString
  end.

(** The value of a run of decimal digits, most significant first. *)
Fixpoint digitsValue (acc : Z) (s : string) : Z :=
  match s with
  | String c s' => if is_digit c then digitsValue (10 * acc + (code c - 48)) s'
                   else acc
  | EmptyString => acc
  end.

(** [parseInt(s, 10)]: leading white space is skipped, one sign is read, the
    longest run of digits is converted; no digit gives NaN. *)
Definition parseIntDigits (s : string) : option Z :=
  match s with
  | String c _ => if is_digit c then Some (digitsValue 0 s) else None
  | EmptyString => None
  end.

Definition parseInt (s : string) : option Z :=
  match trimStart s with
  | String "-" r => option_map Z.opp (parseIntDigits r)
  | String "+" r => parseIntDigits r
  | r => parseIntDigits r
  end.

(** [parseInt(v, 10)] for a value that may be [undefined]: the argument is
    converted to the string "undefined", which has no digit. *)
Definition parseIntValue (v : option string) : option Z :=
  match v with
  | Some s => parseInt s
  | None => None
  end.

(** [a || b] on values that are strings or [undefined]. *)
Definition orElse (a b : option string) : option string :=
  match a with
  | Some EmptyString => b
  | Some _ => a
  | None => b
  end.

End Str.

(** ** Regular expressions

    The fragment of the ECMAScript pattern language the sources use, with its
    backtracking semantics: alternatives are tried left to right, quantifiers
    are greedy unless marked lazy, and [String.prototype.match] without the
    [g] flag tries every start index from the left. Every unbounded
    quantifier of the sources ranges over a single character class. *)

Module Regex.

Inductive re : Type :=
| Chr (p : ascii -> bool)
| Seq (a b : re)
| Alt (a b : re)
| Opt (a : re)
| Rep (greedy : bool) (lo : nat) (hi : option nat) (p : ascii -> bool)
| Grp (i : nat) (a : re).

Definition captures : Type := list (option string).

Fixpoint setCapture (i : nat) (v : string) (c : captures) : captures :=
  match i, c with
  | O, _ :: c' => Some v :: c'
  | O, [] => [Some v]
  | S i', x :: c' => x :: setCapture i' v c'
  | S i', [] => None :: setCapture i' v []
  end.

Definition getCapture (i : nat) (c : captures) : option string :=
  nth i c None.

Definition cont : Type := string -> captures -> option captures.

Definition more (hi : option nat) : bool :=
  match hi with
  | Some O => false
  | _ => true
  end.

Definition firstOf (a b : option captures) : option captures :=
  match a with
  | Some r => Some r
  | None => b
  end.

(** [p{lo,hi}] and [p{lo,hi}?] over one character class. *)
Fixpoint rep (greedy : bool) (p : ascii -> bool) (lo : nat) (hi : option nat)
    (s : string) (c : captures) (k : cont) : option captures :=
  let stop := match lo with O => k s c | S _ => None end in
  match s with
  | String x s' =>
      if p x && more hi then
        let go := rep greedy p (Nat.pred lo) (option_map Nat.pred hi) s' c k in
        if greedy then firstOf go stop else firstOf stop go
      else stop
  | EmptyString => stop
  end.

Fixpoint run (r : re) (s : string) (c : captures) (k : cont) : option captures :=
  match r with
  | Chr p =>
      match s with
      | String x s' => if p x then k s' c else None
      | EmptyString => None
      end
  | Seq a b => run a s c (fun s' c' => run b s' c' k)
  | Alt a b => firstOf (run a s c k) (run b s c k)
  | Opt a => firstOf (run a s c k) (k s c)
  | Rep g lo hi p => rep g p lo hi s c k
  | Grp i a =>
      run a s c (fun s' c' =>
        k s' (setCapture i (Str.take (String.length s - String.length s') s) c'))
  end.

(** One attempt at a start index; capture 0 is the matched text. *)
Definition attempt (n : nat) (r : re) (s : string) : option captures :=
  run r s (repeat None (S n)) (fun s' c' =>
    Some (setCapture 0 (Str.take (String.length s - String.length s') s) c')).

(** [s.match(r)] for a pattern with [n] capture groups. *)
Fixpoint search (n : nat) (r : re) (s : string) : option captures :=
  firstOf (attempt n r s)
    match s with
    | String _ s' => search n r s'
    | EmptyString => None
    end.

(** Literal text; under the [i] flag a letter matches both of its cases. *)
Definition chrI (x : ascii) : re :=
  Chr (fun y => Ascii.eqb (Str.lower y) (Str.lower x)).

Fixpoint litI (s : string) : re :=
  match s with
  | String x EmptyString => chrI x
  | String x s' => Seq (chrI x) (litI s')
  | EmptyString => Rep true 0 (Some O) (fun _ => false)
  end.

Definition chr (x : ascii) : re := Chr (Ascii.eqb x).

(** The groups that every successful match of [r] sets. *)
Fixpoint sets (r : re) (i : nat) : bool :=
  match r with
  | Chr _ => false
  | Seq a b => sets a i || sets b i
  | Alt a b => sets a i && sets b i
  | Opt _ => false
  | Rep _ _ _ _ => false
  | Grp j a => Nat.eqb j i || sets a i
  end.

(** Group [i] holds a text. *)
Definition isSet (i : nat) (c : captures) : Prop := getCapture i c <> None.

(** The upper bound [hi] admits [n] repetitions. *)
Definition fits (hi : option nat) (n : nat) : Prop :=
  match hi with
  | Some h => (n <= h)%nat
  | None => True
  end.

(** After [n] repetitions nothing more can be taken from [rest]. *)
Definition stops (p : ascii -> bool) (hi : option nat) (n : nat) (rest : string)
    : Prop :=
  hi = Some n \/
  match rest with
  | String x _ => p x = false
  | EmptyString => True
  end.

(** Quantifier bounds are natural numbers. *)
Definition upTo (n : nat) : option nat := Some n.
Definition unbounded : option nat := None.

End Regex.
Arguments Regex.Rep greedy lo%_nat hi p.
Arguments Regex.Grp i%_nat a.
Arguments Regex.upTo n%_nat.
Arguments Regex.search n%_nat r s.
Arguments Regex.attempt n%_nat r s.
Arguments Regex.getCapture i%_nat c.

(** ** Dates

    The day arithmetic of ECMAScript (the abstract operations [Day],
    [DayFromYear], [MakeDay], [TimeClip]) and the constructor [Date.UTC]. *)

Module JSDate.

Definition msPerDay : Z := 86400000.

Definition Day (t : Z) : Z := t / msPerDay.

Definition DayFromYear (y : Z) : Z :=
  365 * (y - 1970) + (y - 1969) / 4 - (y - 1901) / 100 + (y - 1601) / 400.

Definition InLeapYear (y : Z) : bool :=
  ((y mod 4 =? 0) && negb (y mod 100 =? 0)) || (y mod 400 =? 0).

(** Days of the year before month [mn] (0 = January). *)
Definition daysBeforeMonth (leap : bool) (mn : Z) : Z :=
  let l := if leap then 1 else 0 in
  match mn with
  | 0 => 0
  | 1 => 31
  | 2 => 59 + l
  | 3 => 90 + l
  | 4 => 120 + l
  | 5 => 151 + l
  | 6 => 181 + l
  | 7 => 212 + l
  | 8 => 243 + l
  | 9 => 273 + l
  | 10 => 304 + l
  | _ => 334 + l
  end.

(** [MakeDay(year, month, date)]: months outside 0..11 carry into the year,
    and days outside the month carry into the neighbouring months. *)
Definition MakeDay (year month date : Z) : Z :=
  let ym := year + month / 12 in
  let mn := month mod 12 in
  DayFromYear ym + daysBeforeMonth (InLeapYear ym) mn + date - 1.

Definition TimeClip (t : Z) : option Z :=
  if Z.abs t <=? 8640000000000000 then Some t else None.

(** [Date.UTC(year, month, date)]; an argument that is NaN gives NaN, and a
    year from 0 to 99 stands for 1900 + year. *)
Definition UTC (year month date : option Z) : option Z :=
  match year, month, date with
  | Some y, Some m, Some d =>
      let yr := if (0 <=? y) && (y <=? 99) then 1900 + y else y in
      TimeClip (MakeDay yr m d * msPerDay)
  | _, _, _ => None
  end.

(** [YearFromTime]: the year [y] with [DayFromYear y <= n < DayFromYear
    (y + 1)], found from the mean length of a year and one correction. *)
Definition yearFromDay (n : Z) : Z :=
  let est := 1970 + (400 * n) / 146097 in
  if n <? DayFromYear est then est - 1
  else if DayFromYear (est + 1) <=? n then est + 1
  else est.

(** [MonthFromTime], from the day within the year. *)
Definition monthFromDayInYear (leap : bool) (dn : Z) : Z :=
  if dn <? daysBeforeMonth leap 1 then 0
  else if dn <? daysBeforeMonth leap 2 then 1
  else if dn <? daysBeforeMonth leap 3 then 2
  else if dn <? daysBeforeMonth leap 4 then 3
  else if dn <? daysBeforeMonth leap 5 then 4
  else if dn <? daysBeforeMonth leap 6 then 5
  else if dn <? daysBeforeMonth leap 7 then 6
  else if dn <? daysBeforeMonth leap 8 then 7
  else if dn <? daysBeforeMonth leap 9 then 8
  else if dn <? daysBeforeMonth leap 10 then 9
  else if dn <? daysBeforeMonth leap 11 then 10
  else 11.

(** The (year, month 1..12, day) of a day number. *)
Definition civilFromDays (n : Z) : Z * Z * Z :=
  let y := yearFromDay n in
  let leap := InLeapYear y in
  let dn := n - DayFromYear y in
  let mn := monthFromDayInYear leap dn in
  (y, mn + 1, dn - daysBeforeMonth leap mn + 1).

(** [getUTCFullYear], [getUTCMonth] + 1 and [getUTCDate] of a time value. *)
Definition utcDate (t : Z) : Z * Z * Z := civilFromDays (Day t).

Definition daysInMonthOf (leap : bool) (m : Z) : Z :=
  match m with
  | 2 => if leap then 29 else 28
  | 4 | 6 | 9 | 11 => 30
  | _ => 31
  end.

Definition daysInMonth (y m : Z) : Z := daysInMonthOf (InLeapYear y) m.

Definition validDate (y m d : Z) : Prop :=
  1 <= m <= 12 /\ 1 <= d <= daysInMonth y m.

(** The calendar date (y, m, d) as a date-only value: UTC midnight. *)
Definition calendarDate (y m d : Z) : Z := MakeDay y (m - 1) d * msPerDay.

Definition isMidnight (t : Z) : Prop := t mod msPerDay = 0.

(** The decimal digit of the units of [v]. *)
Definition digitChar (v : Z) : ascii := ascii_of_N (Z.to_N (48 + v mod 10)).

(** Decimal rendering with a fixed number of digits. *)
Fixpoint pad (n : nat) (v : Z) : string :=
  match n with
  | O => EmptyString
  | S n' => (pad n' (v / 10) ++ String (digitChar v) EmptyString)%string
  end.

(** [toISOString().split('T')[0]]: the year has four digits from 0 to 9999
    and a sign and six digits otherwise. *)
Definition isoYear (y : Z) : string :=
  if (0 <=? y) && (y <=? 9999) then pad 4 y
  else ((if (y <? 0)%Z then "-" else "+") ++ pad 6 (Z.abs y))%string.

Definition isoDateOf (c : Z * Z * Z) : string :=
  match c with
  | (y, m, d) => (isoYear y ++ "-" ++ pad 2 m ++ "-" ++ pad 2 d)%string
  end.

Definition isoDate (t : Z) : string := isoDateOf (utcDate t).

(** [f] holds of the [n] integers from [i] on. *)
Fixpoint allFrom (f : Z -> bool) (i : Z) (n : nat) : bool :=
  match n with
  | O => true
  | S k => f i && allFrom f (i + 1) k
  end.

(** [f] holds of 0, 1, ..., n - 1. *)
Definition allBelow (f : Z -> bool) (n : Z) : bool := allFrom f 0 (Z.to_nat n).

(** How far the first day of year [y] is from the mean, in 400ths of a
    day. *)
Definition drift (y : Z) : Z := 400 * DayFromYear y - 146097 * (y - 1970).

(** Year [y] has 365 or 366 days as [InLeapYear] says, and begins within a
    mean year of the mean. *)
Definition cycleYearOk (y : Z) : bool :=
  (DayFromYear (y + 1) - DayFromYear y =? if InLeapYear y then 366 else 365)
  && (-146097 <=? drift y) && (drift y <=? 146097).

End JSDate.

(** ** The patterns of [parseDate]

    The three files spell the numeric day-month-year pattern and its branch
    alike; [src/App.jsx] and [unnamed/part_000] share the textual pattern;
    the year-month-day pattern is in [unnamed/part_000] only. *)

Module Patterns.
Import Regex.

Definition digits (lo : nat) (hi : nat) : re := Rep true lo (upTo hi) Str.is_digit.
Arguments digits lo%_nat hi%_nat.

(** [/(\d{1,2})[./-](\d{1,2})[./-](\d{2,4})/] *)
Definition dmyPattern : re :=
  Seq (Grp 1 (digits 1 2))
 (Seq (Chr Str.is_sep)
 (Seq (Grp 2 (digits 1 2))
 (Seq (Chr Str.is_sep)
      (Grp 3 (digits 2 4))))).

(** [(\d{1,2})?(?:, )?(\d{4})], the end of the textual pattern *)
Definition yearTail : re :=
  Seq (Opt (Grp 3 (digits 1 2)))
 (Seq (Opt (Seq (chr ",") (chr " ")))
      (Grp 4 (digits 4 4))).

(** [/(?:(\d{1,2}) )?([a-z]{3,}) (\d{1,2})?(?:, )?(\d{4})/i] *)
Definition textPattern : re :=
  Seq (Opt (Seq (Grp 1 (digits 1 2)) (chr " ")))
 (Seq (Grp 2 (Rep true 3 unbounded Str.is_alpha))
 (Seq (chr " ")
      yearTail)).

(** [/(\d{4})[./-](\d{1,2})[./-](\d{1,2})/] *)
Definition ymdPattern : re :=
  Seq (Grp 1 (digits 4 4))
 (Seq (Chr Str.is_sep)
 (Seq (Grp 2 (digits 1 2))
 (Seq (Chr Str.is_sep)
      (Grp 3 (digits 1 2))))).

(** The object [months], read at a key of three lower-case letters. *)
Definition months (key : string) : option Z :=
  if String.eqb key "jan" then Some 0 else
  if String.eqb key "feb" then Some 1 else
  if String.eqb key "mar" then Some 2 else
  if String.eqb key "apr" then Some 3 else
  if String.eqb key "may" then Some 4 else
  if String.eqb key "jun" then Some 5 else
  if String.eqb key "jul" then Some 6 else
  if String.eqb key "aug" then Some 7 else
  if String.eqb key "sep" then Some 8 else
  if String.eqb key "oct" then Some 9 else
  if String.eqb key "nov" then Some 10 else
  if String.eqb key "dec" then Some 11 else None.

(** [if (year < 100) year += 2000], on a number that may be NaN. *)
Definition expandYear (year : option Z) : option Z :=
  match year with
  | Some y => if y <? 100 then Some (y + 2000) else Some y
  | None => None
  end.

Definition minusOne (n : option Z) : option Z := option_map (fun v => v - 1) n.

(** The body of [if (parts) { ... }] after the day-month-year pattern; [None]
    when control falls through to the next pattern. *)
Definition dmyBranch (dateString : string) : option Z :=
  match search 3 dmyPattern dateString with
  | Some parts =>
      let day := Str.parseIntValue (getCapture 1 parts) in
      let month := minusOne (Str.parseIntValue (getCapture 2 parts)) in
      let year := expandYear (Str.parseIntValue (getCapture 3 parts)) in
      JSDate.UTC year month day
  | None => None
  end.

(** The textual branch once [monthStr] is known. *)
Definition textDate (parts : captures) (monthStr : string) : option Z :=
  match months monthStr with
  | Some month =>
      let day := Str.parseIntValue
                   (Str.orElse (getCapture 1 parts) (getCapture 3 parts)) in
      let year := Str.parseIntValue (getCapture 4 parts) in
      JSDate.UTC year (Some month) day
  | None => None
  end.

Definition textMatch (dateString : string) : option captures :=
  search 4 textPattern (Str.replaceCommaSpace dateString).

Definition ymdBranch (dateString : string) : option Z :=
  match search 3 ymdPattern dateString with
  | Some parts =>
      let year := Str.parseIntValue (getCapture 1 parts) in
      let month := minusOne (Str.parseIntValue (getCapture 2 parts)) in
      let day := Str.parseIntValue (getCapture 3 parts) in
      JSDate.UTC year month day
  | None => None
  end.

(** The value the textual branch returns when it does not throw. *)
Definition textValue (dateString : string) : option Z :=
  match textMatch dateString with
  | Some parts =>
      match getCapture 2 parts with
      | Some name => textDate parts (Str.toLowerCase (Str.take 3 name))
      | None => None
      end
  | None => None
  end.

(** The first of two attempts that gives a date. *)
Definition firstDate (a b : option Z) : option Z :=
  match a with
  | Some t => Some t
  | None => b
  end.

(** [a] returned a date, or else [b] runs. *)
Definition orNext (a b : js (option Z)) : js (option Z) :=
  x <- a ;;
  match x with
  | Some t => Ret (Some t)
  | None => b
  end.

End Patterns.

(** ** Data shared by the three variants *)

Module Crawl.
Import Regex.

(** An anchor of the seed page as the code reads it: the [href] property
    (the empty string when the attribute is missing) and [innerText]. *)
Record Anchor : Type := mkAnchor { href : string; innerText : string }.

(** A parsed page as the code reads it: the anchors selected by
    ['article a, .post a, .job-listing a, h2 a, h3 a'] in document order,
    [querySelector(sel)] as the [innerText] of the first element matching
    [sel], and [body.innerText]. *)
Record Document : Type := mkDocument {
  anchors : list Anchor;
  querySelector : string -> option string;
  bodyText : string
}.

Record Job : Type := mkJob { title : string; link : string; lastDate : Z }.

(** [postLinks.add(href)] on a [Set] kept in insertion order. *)
Definition setAdd (x : string) (l : list string) : list string :=
  if existsb (String.eqb x) l then l else l ++ [x].

Fixpoint foldM {A B : Type} (f : A -> B -> js A) (l : list B) (a : A) : js A :=
  match l with
  | [] => Ret a
  | x :: l' => a' <- f a x ;; foldM f l' a'
  end.

Definition truthy (s : string) : bool := negb (String.eqb s "").

(** [today = new Date(); today.setHours(0, 0, 0, 0)]: midnight of the local
    day of [now], for a zone [tza] milliseconds ahead of UTC. *)
Definition localMidnight (now tza : Z) : Z :=
  JSDate.Day (now + tza) * JSDate.msPerDay - tza.

(** UTC midnight of the day of [now]. *)
Definition utcMidnight (now : Z) : Z := JSDate.Day now * JSDate.msPerDay.

(** [array.sort(cmp)], stable: an element goes before the first one it does
    not compare greater than. *)
Fixpoint insertBy (cmp : Job -> Job -> Z) (x : Job) (l : list Job) : list Job :=
  match l with
  | [] => [x]
  | y :: l' => if cmp x y <=? 0 then x :: y :: l' else y :: insertBy cmp x l'
  end.

Definition sortBy (cmp : Job -> Job -> Z) (l : list Job) : list Job :=
  fold_right (insertBy cmp) [] l.

(** What every list of found jobs satisfies: distinct links, and no deadline
    before [today]. *)
Definition wellFormed (today : Z) (jobs : list Job) : Prop :=
  NoDup (map link jobs) /\ Forall (fun j => today <= lastDate j) jobs.

(** The job is due on [M]. *)
Definition dueOn (M : Z) (j : Job) : bool := lastDate j =? M.

(** The deadline of the first job of a list. *)
Definition headDate (l : list Job) : option Z :=
  match l with
  | [] => None
  | n :: _ => Some (lastDate n)
  end.

(** The later of [t] and a deadline that may be missing. *)
Definition later (t : Z) (h : option Z) : Z :=
  match h with
  | None => t
  | Some h' => Z.max t h'
  end.

Definition ascending (a b : Job) : Z := lastDate a - lastDate b.
Definition descending (a b : Job) : Z := lastDate b - lastDate a.

(** [a <= b] for a date [a] and a date [b] that may be invalid. *)
Definition onOrBefore (a : Z) (b : option Z) : bool :=
  match b with
  | Some t => a <=? t
  | None => false
  end.

(** [[\s:.-]] *)
Definition isGap (c : ascii) : bool :=
  Str.is_space c || Ascii.eqb c ":" || Ascii.eqb c "." || Ascii.eqb c "-".

(** [[\w\s,./-]] *)
Definition isPayload (c : ascii) : bool :=
  Str.is_word c || Str.is_space c || Ascii.eqb c "," || Str.is_sep c.

(** [/(?:last date|closing date|deadline|apply by|applications close|submit by)[\s:.-]*([\w\s,./-]+\d{1,4})/i] *)
Definition deadlineRegex : re :=
  Seq (Alt (litI "last date")
      (Alt (litI "closing date")
      (Alt (litI "deadline")
      (Alt (litI "apply by")
      (Alt (litI "applications close")
           (litI "submit by"))))))
 (Seq (Rep true 0 unbounded isGap)
      (Grp 1 (Seq (Rep true 1 unbounded isPayload)
                  (Rep true 1 (upTo 4) Str.is_digit)))).

Definition jobKeywords : list string :=
  ["qualification"; "responsibilit"; "experience"; "salary"; "location";
   "apply now"; "job type"].

(** [score] after the [forEach] over [jobKeywords]. *)
Definition relevanceScore (bodyText : string) : Z :=
  let lowerBodyText := Str.toLowerCase bodyText in
  fold_left (fun score keyword =>
               if Str.includes lowerBodyText keyword then score + 1 else score)
            jobKeywords 0.

Definition jobUrlKeywords : list string :=
  ["job"; "career"; "vacancy"; "hiring"; "position"].

(** [jobUrlKeywords.some(keyword => linkUrl.includes(keyword) ||
    linkText.includes(keyword))] *)
Definition hasJobKeyword (h text : string) : bool :=
  let linkText := Str.toLowerCase text in
  let linkUrl := Str.toLowerCase h in
  existsb (fun keyword => Str.includes linkUrl keyword ||
                          Str.includes linkText keyword) jobUrlKeywords.

Definition structuralSelectors : list string :=
  ["h1.entry-title"; "h2.entry-title"; "h1.post-title"; "h2.post-title";
   "article h1"; "main h1"; ".entry-content h1"; "article h2"; "main h2";
   ".entry-content h2"; ".entry-title"; ".post-title"].

(** [findTitle]; [long] is the test a candidate title must pass. *)
Fixpoint firstTitle (long : string -> bool) (doc : Document)
    (selectors : list string) : option string :=
  match selectors with
  | [] => None
  | selector :: rest =>
      match querySelector doc selector with
      | Some text =>
          let titleText := Str.trim text in
          if long titleText then Some titleText else firstTitle long doc rest
      | None => firstTitle long doc rest
      end
  end.

Definition findTitle (long : string -> bool) (doc : Document) : string :=
  match firstTitle long doc structuralSelectors with
  | Some t => t
  | None =>
      match querySelector doc "h1" with
      | Some text => Str.trim text
      | None => "Post Title Not Found"
      end
  end.

Section Pipeline.

(** [new URL(href, base).href], [None] when the constructor throws. *)
Variable urlHref : string -> string -> option string.
(** [new URL(url).origin], [None] when the constructor throws. *)
Variable urlOrigin : string -> option string.
(** [fetchHtml(url)]: [data.contents], a string or [null], or a rejection. *)
Variable fetchHtml : string -> js (option string).
(** [new DOMParser().parseFromString(html, 'text/html')] *)
Variable parseHTML : string -> Document.

(** One turn of the [forEach] over the anchors of the seed page. [accept] is
    the test a same-site link must pass to be added. *)
Definition visitAnchor (accept : string -> string -> bool) (base : string)
    (postLinks : list string) (a : Anchor) : js (list string) :=
  let resolved :=
    if truthy (href a) && negb (Str.startsWith (href a) "http")
    then urlHref (href a) base
    else Some (href a) in
  match resolved with
  | None => Ret postLinks
  | Some h =>
      if truthy h then
        match urlOrigin base with
        | None => Throw "Invalid URL"
        | Some origin =>
            if Str.startsWith h origin && accept h (innerText a)
            then Ret (setAdd h postLinks)
            else Ret postLinks
        end
      else Ret postLinks
  end.

Definition discover (accept : string -> string -> bool) (base : string)
    (mainDoc : Document) : js (list string) :=
  foldM (visitAnchor accept base) (anchors mainDoc) [].

(** A link the discoverer may return: it begins with the origin of the seed
    and comes from an anchor of the seed page that passes [accept]. *)
Definition admissible (accept : string -> string -> bool) (base : string)
    (doc : Document) (h : string) : Prop :=
  (exists origin, urlOrigin base = Some origin /\ Str.startsWith h origin = true) /\
  (exists a, In a (anchors doc) /\ accept h (innerText a) = true /\
             (h = href a \/ urlHref (href a) base = Some h)).

(** A list of distinct admissible links. *)
Definition linkSet (accept : string -> string -> bool) (base : string)
    (doc : Document) (links : list string) : Prop :=
  NoDup links /\ forall h, In h links -> admissible accept base doc h.

(** [fetchHtml(link).then(html => ({ url: link, html })).catch(e => ({ url:
    link, html: null }))] for every link, once all are settled. *)
Definition fetchAll (uniqueLinks : list string) : list (string * option string) :=
  map (fun l => match fetchHtml l with
                | Ret html => (l, html)
                | Throw _ => (l, None)
                end) uniqueLinks.

(** [results.filter(result => result.html !== null)] *)
Fixpoint validOf (results : list (string * option string)) : list (string * string) :=
  match results with
  | [] => []
  | (u, Some html) :: rest => (u, html) :: validOf rest
  | (_, None) :: rest => validOf rest
  end.

Section Deadlines.

Variable parseDate : option string -> js (option Z).
Variable long : string -> bool.
Variable today : Z.

(** The deadline of a page: the trigger phrase, the relevance score, the
    parsed payload and the comparison with [today]. *)
Definition extractDeadline (body : string) : js (option Z) :=
  match search 1 deadlineRegex body with
  | Some m =>
      match getCapture 1 m with
      | Some payload =>
          if truthy payload && (2 <=? relevanceScore body) then
            d <- parseDate (Some (Str.trim payload)) ;;
            match d with
            | Some t => if today <=? t then Ret (Some t) else Ret None
            | None => Ret None
            end
          else Ret None
      | None => Ret None
      end
  | None => Ret None
  end.

(** One turn of [validResults.forEach]. *)
Definition visitResult (foundJobs : list Job) (result : string * string)
    : js (list Job) :=
  let (postUrl, postHtml) := result in
  let postDoc := parseHTML postHtml in
  let title := findTitle long postDoc in
  d <- extractDeadline (bodyText postDoc) ;;
  match d with
  | Some t =>
      if existsb (fun job => String.eqb (link job) postUrl) foundJobs
      then Ret foundJobs
      else Ret (foundJobs ++ [mkJob title postUrl t])
  | None => Ret foundJobs
  end.

Definition extractJobs (validResults : list (string * string)) : js (list Job) :=
  foldM visitResult validResults [].

(** The page a job was read from: its link is the URL the page was fetched
    from, and its title and deadline are those of that page. *)
Definition provenance (validResults : list (string * string)) (j : Job)
    : Prop :=
  exists html, In (link j, html) validResults /\
               title j = findTitle long (parseHTML html) /\
               extractDeadline (bodyText (parseHTML html))
               = Ret (Some (lastDate j)).

End Deadlines.
End Pipeline.

Definition correctUrl (url : string) : string :=
  let trimmed := Str.trim url in
  if negb (Str.startsWith trimmed "http://") &&
     negb (Str.startsWith trimmed "https://")
  then ("https://" ++ trimmed)%string
  else trimmed.

Definition showNat (n : nat) : string :=
  NilEmpty.string_of_uint (Nat.to_uint n).

End Crawl.

(** ** [src/App.jsx] *)

Module AppJsx.
Import Regex Patterns Crawl.

Section Parser.

(** [new Date(dateString)] on a string: the time value, [None] for NaN. *)
Variable dateParse : string -> option Z.

(** [parts[2].substring(0, 3).toLowerCase()]: a method call on [undefined]
    throws. *)
Definition textBranch (dateString : string) : js (option Z) :=
  match textMatch dateString with
  | Some parts =>
      match getCapture 2 parts with
      | Some name =>
          Ret (textDate parts (Str.toLowerCase (Str.take 3 name)))
      | None => Throw "TypeError: parts[2] is undefined"
      end
  | None => Ret None
  end.

Definition parseDate (dateString : option string) : js (option Z) :=
  match dateString with
  | None => Ret None
  | Some EmptyString => Ret None
  | Some s =>
      orNext (Ret (dmyBranch s))
     (orNext (textBranch s)
             (Ret (dateParse s)))
  end.

(** [titleText.includes(' ')] *)
Definition long (titleText : string) : bool := Str.includes titleText " ".

(** The filter on [filterDate], the value of the date input: the empty
    string, or the text YYYY-MM-DD of a date. *)
Definition deadlineFilter (filterDate : string) (foundJobs : list Job)
    : list Job :=
  if truthy filterDate then
    let exactMatchJobs :=
      filter (fun job => String.eqb (JSDate.isoDate (lastDate job)) filterDate)
             foundJobs in
    if (0 <? List.length exactMatchJobs)%nat then exactMatchJobs
    else
      let selectedDate := dateParse filterDate in
      let candidateJobs :=
        filter (fun job => onOrBefore (lastDate job) selectedDate) foundJobs in
      match sortBy descending candidateJobs with
      | (nearest :: _) as sorted =>
          filter (fun job => lastDate job =? lastDate nearest) sorted
      | [] => []
      end
  else foundJobs.

Variable urlHref : string -> string -> option string.
Variable urlOrigin : string -> option string.
Variable fetchHtml : string -> js (option string).
Variable parseHTML : string -> Document.
Variable now tza : Z.

Definition discoverLinks (correctedUrl : string) (mainDoc : Document)
    : js (list string) :=
  discover urlHref urlOrigin hasJobKeyword correctedUrl mainDoc.

Definition foundJobsOf (uniqueLinks : list string) : js (list Job) :=
  extractJobs parseHTML parseDate long (localMidnight now tza)
    (validOf (fetchAll fetchHtml uniqueLinks)).

End Parser.
End AppJsx.

(** ** [unnamed/part_000] *)

Module Part000.
Import Regex Patterns Crawl.

Record State : Type := mkState {
  url : string;
  jobs : list Job;
  isLoading : bool;
  status : string;
  error : string;
  page : Z;
  filterDate : string;
  showNextSixMonths : bool
}.

Inductive Action : Type :=
| START_SCAN
| UPDATE_STATUS (payload : string)
| SET_JOBS (payload : list Job)
| SET_ERROR (payload : string)
| SET_PAGE (payload : Z)
| SET_URL (payload : string)
| SET_FILTER_DATE (payload : string)
| TOGGLE_SIX_MONTHS_FILTER (payload : bool)
| OTHER (type : string).

Definition crawlerReducer (state : State) (action : Action) : State :=
  match action with
  | START_SCAN =>
      mkState (url state) [] true
        "Step 1/3: Fetching main page to find job links..." "" 1
        (filterDate state) (showNextSixMonths state)
  | UPDATE_STATUS payload =>
      mkState (url state) (jobs state) (isLoading state) payload
        (error state) (page state) (filterDate state) (showNextSixMonths state)
  | SET_JOBS payload =>
      mkState (url state) payload false "" (error state) (page state)
        (filterDate state) (showNextSixMonths state)
  | SET_ERROR payload =>
      mkState (url state) (jobs state) false "" payload (page state)
        (filterDate state) (showNextSixMonths state)
  | SET_PAGE payload =>
      mkState (url state) (jobs state) (isLoading state) (status state)
        (error state) payload (filterDate state) (showNextSixMonths state)
  | SET_URL payload =>
      mkState payload (jobs state) (isLoading state) (status state)
        (error state) (page state) (filterDate state) (showNextSixMonths state)
  | SET_FILTER_DATE payload =>
      mkState (url state) (jobs state) (isLoading state) (status state)
        (error state) (page state) payload (showNextSixMonths state)
  | TOGGLE_SIX_MONTHS_FILTER payload =>
      mkState (url state) (jobs state) (isLoading state) (status state)
        (error state) (page state) (filterDate state) payload
  | OTHER _ => state
  end.

Definition initialState : State := mkState "" [] false "" "" 1 "" false.

(** The fields no navigation action may touch. *)
Definition sameResults (s s' : State) : Prop :=
  jobs s' = jobs s /\ isLoading s' = isLoading s /\
  status s' = status s /\ error s' = error s.

Section Parser.

Variable dateParse : string -> option Z.

(** [parts[2]?.substring(0, 3)?.toLowerCase()], then [months[undefined]] is
    [undefined]. *)
Definition textBranch (dateString : string) : js (option Z) :=
  match textMatch dateString with
  | Some parts =>
      match getCapture 2 parts with
      | Some name =>
          Ret (textDate parts (Str.toLowerCase (Str.take 3 name)))
      | None => Ret None
      end
  | None => Ret None
  end.

Definition parseDate (dateString : option string) : js (option Z) :=
  match dateString with
  | None => Ret None
  | Some EmptyString => Ret None
  | Some s =>
      orNext (Ret (dmyBranch s))
     (orNext (textBranch s)
     (orNext (Ret (ymdBranch s))
             (Ret (dateParse s))))
  end.

(** [titleText?.length > 10] *)
Definition long (titleText : string) : bool := (10 <? String.length titleText)%nat.

Variable urlHref : string -> string -> option string.
Variable urlOrigin : string -> option string.
Variable fetchHtml : string -> js (option string).
Variable parseHTML : string -> Document.
Variable now tza : Z.
(** [new Date()] moved six months on by [setMonth]. *)
Variable sixMonthsFromNow : Z.

Definition discoverLinks (correctedUrl : string) (mainDoc : Document)
    : js (list string) :=
  discover urlHref urlOrigin hasJobKeyword correctedUrl mainDoc.

Definition foundJobsOf (uniqueLinks : list string) : js (list Job) :=
  extractJobs parseHTML parseDate long (localMidnight now tza)
    (validOf (fetchAll fetchHtml uniqueLinks)).

(** [e.message || 'An unexpected error occurred. ...'] *)
Definition messageOf (message : string) : string :=
  if truthy message then message
  else "An unexpected error occurred. Please check the URL and try again.".

(** The [try] block of [handleFetchJobs]: the actions it dispatches, in
    order, the last one from the [catch] clause when an exception is
    thrown. *)
Definition scan (correctedUrl : string) : list Action :=
  match fetchHtml correctedUrl with
  | Throw e => [SET_ERROR (messageOf e)]
  | Ret None => [SET_ERROR "Could not fetch the main page content."]
  | Ret (Some mainHtml) =>
      if truthy mainHtml then
        match discoverLinks correctedUrl (parseHTML mainHtml) with
        | Throw e => [SET_ERROR (messageOf e)]
        | Ret [] =>
            [SET_ERROR "Could not find any potential job post links. Try a more specific URL."]
        | Ret uniqueLinks =>
            UPDATE_STATUS ("Step 2/3: Analyzing " ++ showNat (List.length uniqueLinks)
                           ++ " found links...")%string ::
            UPDATE_STATUS "Step 3/3: Verifying posts and extracting deadlines..." ::
            match foundJobsOf uniqueLinks with
            | Throw e => [SET_ERROR (messageOf e)]
            | Ret foundJobs => [SET_JOBS (sortBy ascending foundJobs)]
            end
        end
      else [SET_ERROR "Could not fetch the main page content."]
  end.

Definition dispatched (state : State) : list Action :=
  if truthy (url state) then START_SCAN :: scan (correctUrl (url state))
  else [SET_ERROR "Please enter a website URL."].

(** The state once [handleFetchJobs] has run. *)
Definition handleFetchJobs (state : State) : State :=
  fold_left crawlerReducer (dispatched state) state.

(** The seed page cannot be fetched, or comes back without content. *)
Definition seedUnreachable (base : string) : Prop :=
  (exists e, fetchHtml base = Throw e) \/ fetchHtml base = Ret None \/
  fetchHtml base = Ret (Some "").

(** The seed page is read and has the candidate links [uniqueLinks]. *)
Definition seedLinks (base : string) (uniqueLinks : list string) : Prop :=
  exists html, fetchHtml base = Ret (Some html) /\ truthy html = true /\
               discoverLinks base (parseHTML html) = Ret uniqueLinks.

(** [filteredJobs] *)
Definition filteredJobs (state : State) : list Job :=
  filter (fun job =>
            let deadline := lastDate job in
            if truthy (filterDate state)
            then onOrBefore deadline (dateParse (filterDate state))
            else if showNextSixMonths state
            then deadline <=? sixMonthsFromNow
            else true)
         (jobs state).

End Parser.
End Part000.

(** ** [unnamed/part_001] *)

Module Part001.
Import Regex Patterns Crawl.

(** The seven [useState] cells. *)
Record State : Type := mkState {
  url : string;
  jobs : list Job;
  isLoading : bool;
  error : string;
  copiedJob : option string;
  status : string;
  page : Z
}.

(** [\s+] and [[\s\S]*?] *)
Definition spaces : re := Rep true 1 unbounded Str.is_space.
Definition anything : re := Rep false 0 unbounded (fun _ => true).

(** [/(?:last\s+date|closing\s+date|deadline)[\s\S]*?(\d{1,2}[./-]\d{1,2}[./-]\d{2,4})/i] *)
Definition deadlineRegex : re :=
  Seq (Alt (Seq (litI "last") (Seq spaces (litI "date")))
      (Alt (Seq (litI "closing") (Seq spaces (litI "date")))
           (litI "deadline")))
 (Seq anything
      (Grp 1 (Seq (digits 1 2)
             (Seq (Chr Str.is_sep)
             (Seq (digits 1 2)
             (Seq (Chr Str.is_sep)
                  (digits 2 4))))))).

Section Parser.

Variable dateParse : string -> option Z.

Definition parseDate (dateString : option string) : js (option Z) :=
  match dateString with
  | None => Ret None
  | Some EmptyString => Ret None
  | Some s =>
      orNext (Ret (dmyBranch s))
             (Ret (dateParse s))
  end.

Variable urlHref : string -> string -> option string.
Variable urlOrigin : string -> option string.
Variable fetchHtml : string -> js (option string).
Variable parseHTML : string -> Document.
Variable now tza : Z.

Definition discoverLinks (url : string) (mainDoc : Document) : js (list string) :=
  discover urlHref urlOrigin (fun _ _ => true) url mainDoc.

(** [fetchHtml(postUrl).catch(e => null)] for every link *)
Definition postHtmlsOf (uniqueLinks : list string) : list (option string) :=
  map (fun postUrl => match fetchHtml postUrl with
                      | Ret html => html
                      | Throw _ => None
                      end) uniqueLinks.

(** [postHtmls.filter(html => html !== null)] *)
Fixpoint validHtmlsOf (postHtmls : list (option string)) : list string :=
  match postHtmls with
  | [] => []
  | Some html :: rest => html :: validHtmlsOf rest
  | None :: rest => validHtmlsOf rest
  end.

(** [titleElement ? titleElement.innerText.trim() : 'Title not found'] *)
Definition titleOf (postDoc : Document) : string :=
  match querySelector postDoc "h1, .entry-title" with
  | Some text => Str.trim text
  | None => "Title not found"
  end.

Definition extractDeadline (today : Z) (body : string) : js (option Z) :=
  match search 1 deadlineRegex body with
  | Some m =>
      match getCapture 1 m with
      | Some payload =>
          if truthy payload then
            d <- parseDate (Some payload) ;;
            match d with
            | Some t => if today <=? t then Ret (Some t) else Ret None
            | None => Ret None
            end
          else Ret None
      | None => Ret None
      end
  | None => Ret None
  end.

(** One turn of [validHtmls.forEach((postHtml, index) => ...)]; the link is
    [uniqueLinks[index]], [index] counting the pages that were fetched. An
    index past the end would read [undefined]; [validHtmls] is never longer
    than [uniqueLinks]. *)
Definition visitHtml (today : Z) (uniqueLinks : list string)
    (acc : list Job * nat) (postHtml : string) : js (list Job * nat) :=
  let (foundJobs, index) := acc in
  let postDoc := parseHTML postHtml in
  let postUrl := nth index uniqueLinks "undefined" in
  let title := titleOf postDoc in
  d <- extractDeadline today (bodyText postDoc) ;;
  match d with
  | Some t =>
      if existsb (fun job => String.eqb (link job) postUrl) foundJobs
      then Ret (foundJobs, S index)
      else Ret (foundJobs ++ [mkJob title postUrl t], S index)
  | None => Ret (foundJobs, S index)
  end.

Definition foundJobsOf (uniqueLinks : list string) : js (list Job) :=
  r <- foldM (visitHtml (localMidnight now tza) uniqueLinks)
         (validHtmlsOf (postHtmlsOf uniqueLinks)) ([], O) ;;
  Ret (fst r).

(** The [try] block: the jobs found, or the exception thrown. *)
Definition scan (url : string) : js (list Job) :=
  mainHtml <- fetchHtml url ;;
  match mainHtml with
  | Some html =>
      if truthy html then
        uniqueLinks <- discoverLinks url (parseHTML html) ;;
        match uniqueLinks with
        | [] => Throw "Could not find any potential job post links."
        | _ => foundJobsOf uniqueLinks
        end
      else Throw "Could not fetch the main page content."
  | None => Throw "Could not fetch the main page content."
  end.

(** The state once [handleFetchJobs] has run. *)
Definition handleFetchJobs (state : State) : State :=
  if truthy (url state) then
    match scan (url state) with
    | Ret [] =>
        mkState (url state) [] false
          "Scan complete. No jobs with future deadlines were found."
          None "" 1
    | Ret foundJobs =>
        mkState (url state) (sortBy ascending foundJobs) false "" None "" 1
    | Throw message =>
        mkState (url state) [] false
          ("An error occurred: " ++ message)%string None "" 1
    end
  else
    mkState (url state) (jobs state) (isLoading state)
      "Please enter a website URL." (copiedJob state) (status state)
      (page state).

End Parser.
End Part001.

(** ** The policies named by the specification *)

Module Spec.
Import Crawl.

(** The largest deadline of a non-empty list of jobs. *)
Definition maxDate (first : Job) (rest : list Job) : Z :=
  fold_right (fun j m => Z.max (lastDate j) m) (lastDate first) rest.

(** Exact-or-nearest-before: the jobs due on [T]; failing that, the jobs due
    on the latest date on or before [T]; failing that, nothing. *)
Definition deadlineFilter (T : Z) (jobs : list Job) : list Job :=
  match filter (fun j => lastDate j =? T) jobs with
  | (_ :: _) as exact => exact
  | [] =>
      match filter (fun j => lastDate j <=? T) jobs with
      | [] => []
      | first :: rest =>
          filter (fun j => lastDate j =? maxDate first rest) jobs
      end
  end.

End Spec.

(** ** The explicit formats of a date *)

Module Render.
Import JSDate.

(** A day or a month: two digits, or one when the number is below 10 and no
    leading zero is written. *)
Definition numeral (leadingZero : bool) (v : Z) : string :=
  if leadingZero || (10 <=? v) then pad 2 v else pad 1 v.

(** D/M/Y with a four-digit year; [s1] and [s2] are the separators. *)
Definition dmyText (leadingZero : bool) (s1 s2 : ascii) (y m d : Z) : string :=
  (numeral leadingZero d ++ String s1 (numeral leadingZero m
     ++ String s2 (pad 4 y)))%string.

(** D/M/Y with the last two digits of a year from 2000 to 2099. *)
Definition dmyShortText (leadingZero : bool) (s1 s2 : ascii) (y m d : Z)
    : string :=
  (numeral leadingZero d ++ String s1 (numeral leadingZero m
     ++ String s2 (pad 2 (y - 2000))))%string.

(** The textual form with the day first: D Month YYYY. *)
Definition dayMonthYearText (leadingZero : bool) (name : string) (y d : Z)
    : string :=
  (numeral leadingZero d ++ String " " (name ++ String " " (pad 4 y)))%string.

(** Y-M-D with a four-digit year and two-digit month and day. *)
Definition ymdText (s1 s2 : ascii) (y m d : Z) : string :=
  (pad 4 y ++ String s1 (pad 2 m ++ String s2 (pad 2 d)))%string.

(** [name] is a name of month [m] for the month table: letters only, three
    at least, the first three naming the month. *)
Definition isMonthName (name : string) (m : Z) : Prop :=
  Str.all Str.is_alpha name = true /\ (3 <= String.length name)%nat /\
  Patterns.months (Str.toLowerCase (Str.take 3 name)) = Some (m - 1).

End Render.

(** ** A concrete site, for the scenarios *)

Module Scenario.
Import Crawl.

(** The origin of an absolute http(s) URL that has no credentials, no port
    and a lower-case host: the scheme and the host. *)
Fixpoint hostOf (s : string) : string :=
  match s with
  | String c s' =>
      if Ascii.eqb c "/" || Ascii.eqb c "?" || Ascii.eqb c "#"
      then EmptyString else String c (hostOf s')
  | EmptyString => EmptyString
  end.

Definition urlOrigin (u : string) : option string :=
  if Str.startsWith u "https://" then Some ("https://" ++ hostOf (Str.drop 8 u))%string
  else if Str.startsWith u "http://" then Some ("http://" ++ hostOf (Str.drop 7 u))%string
  else None.

(** No relative reference occurs in the scenarios. *)
Definition urlHref (h base : string) : option string := None.

Definition seed : string := "https://www.example.org".

Definition clerk : string := "https://www.example.org/job/clerk-2099".
Definition nurse : string := "https://www.example.org/posts/1234".
Definition about : string := "https://www.example.org/about-us".
Definition partner : string := "https://partner.example.net/job/driver".
Definition lookalike : string := "https://www.example.org.evil.example.net/job/1".

(** Three same-site article links, two of them job-like (one by its URL, one
    by its text), and one link to another site. *)
Definition seedDoc : Document :=
  mkDocument
    [ mkAnchor clerk "Clerk recruitment";
      mkAnchor nurse "Now Hiring: Staff Nurse";
      mkAnchor about "About us";
      mkAnchor partner "Driver job" ]
    (fun _ => None) "Latest posts".

Definition heading (text : string) (selector : string) : option string :=
  if String.eqb selector "h1" || String.eqb selector "h1, .entry-title"
  then Some text else None.

Definition nurseDoc : Document :=
  mkDocument [] (heading "Staff Nurse Recruitment 2099")
    "Staff Nurse. Qualification: B.Sc. Salary: 40000. Last date: 15/01/2099".

Definition aboutDoc : Document :=
  mkDocument [] (heading "About us") "We publish notices.".

(** A page that mentions a deadline and is no job posting. *)
Definition noticeDoc : Document :=
  mkDocument [] (heading "Tender notice") "Tender deadline: 15/01/2099".

(** A posting whose deadline is written month first. *)
Definition monthFirstDoc : Document :=
  mkDocument [] (heading "Clerk Recruitment 2025")
    "Qualification: degree. Salary: 30000. Last date: January 5, 2025".

Definition parseHTML (html : string) : Document :=
  if String.eqb html "seed" then seedDoc
  else if String.eqb html "nurse" then nurseDoc
  else if String.eqb html "about" then aboutDoc
  else if String.eqb html "notice" then noticeDoc
  else if String.eqb html "monthFirst" then monthFirstDoc
  else mkDocument [] (fun _ => None) "".

(** The seed and every page but the clerk's are served. *)
Definition fetchHtml (u : string) : js (option string) :=
  if String.eqb u seed then Ret (Some "seed")
  else if String.eqb u nurse then Ret (Some "nurse")
  else if String.eqb u about then Ret (Some "about")
  else Throw ("Failed to fetch " ++ u)%string.

(** Every page is served and none is a posting with a coming deadline. *)
Definition fetchQuiet (u : string) : js (option string) :=
  if String.eqb u seed then Ret (Some "seed") else Ret (Some "about").

(** The clerk's page is served and gives its deadline month first. *)
Definition fetchMonthFirst (u : string) : js (option string) :=
  Ret (Some "monthFirst").

(** The seed cannot be reached. *)
Definition fetchNothing (u : string) : js (option string) :=
  Throw ("Failed to fetch " ++ u)%string.

(** The seed is served and links to nothing. *)
Definition fetchBare (u : string) : js (option string) := Ret (Some "bare").

(** 5 January 2025, 06:00 UTC, in a zone five and a half hours ahead. *)
Definition now : Z := JSDate.calendarDate 2025 1 5 + 6 * 3600000.
Definition tza : Z := 19800000.

(** A host that reads no string outside the explicit patterns. *)
Definition noDateParse (s : string) : option Z := None.

(** A host that reads "January 5, 2025" as local midnight of that day. *)
Definition localDateParse (s : string) : option Z :=
  if String.eqb s "January 5, 2025"
  then Some (JSDate.calendarDate 2025 1 5 - tza) else None.

(** [Date.parse] on the date-only form YYYY-MM-DD of the three targets. *)
Definition isoDateParse (s : string) : option Z :=
  if String.eqb s "2025-01-15" then Some (JSDate.calendarDate 2025 1 15)
  else if String.eqb s "2025-01-17" then Some (JSDate.calendarDate 2025 1 17)
  else if String.eqb s "2025-01-05" then Some (JSDate.calendarDate 2025 1 5)
  else None.

(** The state in which the seed has been typed. *)
Definition seedState : Part000.State :=
  Part000.mkState seed [] false "" "" 1 "" false.

Definition job10 : Job := mkJob "A" "https://www.example.org/job/a" (JSDate.calendarDate 2025 1 10).
Definition job15 : Job := mkJob "B" "https://www.example.org/job/b" (JSDate.calendarDate 2025 1 15).
Definition job20 : Job := mkJob "C" "https://www.example.org/job/c" (JSDate.calendarDate 2025 1 20).

End Scenario.

(** * Further definitions

    The parts of the three files that the properties of the second half
    need beyond the above. *)

Module Reading.

(** The year [parseDate] takes from the digits [Y] of the day-month-year
    pattern: below 100 it stands for 2000 + Y. *)
Definition yearOf (Y : string) : Z :=
  let v := Str.digitsValue 0 Y in if v <? 100 then v + 2000 else v.

End Reading.

Module Triggers.

(** The phrases of [deadlineRegex] in [src/App.jsx] and [unnamed/part_000],
    one per alternative. *)
Definition triggerPhrases : list string :=
  ["last date"; "closing date"; "deadline"; "apply by"; "applications close";
   "submit by"].

(** Some trigger phrase occurs in the text, in any mix of cases. *)
Definition hasTrigger (bodyText : string) : bool :=
  existsb (Str.includes (Str.toLowerCase bodyText)) triggerPhrases.

(** The last character of a text is a digit. *)
Fixpoint endsWithDigit (s : string) : bool :=
  match s with
  | EmptyString => false
  | String c EmptyString => Str.is_digit c
  | String _ s' => endsWithDigit s'
  end.

End Triggers.


From Stdlib Require Import Sorted.

Module Selection.
Import Crawl.

Section Selection.

Variable urlHref : string -> string -> option string.
Variable fetchHtml : string -> js (option string).
Variable parseHTML : string -> Document.
(** The deadline read from the text of a page. *)
Variable deadlineOf : string -> js (option Z).

(** The address an anchor stands for in the [forEach] over the anchors:
    [link.href], resolved against the seed address when it does not begin
    with [http]; [None] when [new URL] throws. *)
Definition resolved (base : string) (a : Anchor) : option string :=
  if truthy (href a) && negb (Str.startsWith (href a) "http")
  then urlHref (href a) base
  else Some (href a).

(** The anchor [a] makes the loop add [h]: [h] is its address, not empty,
    begins with [origin] and passes [accept] with the text of [a]. *)
Definition selects (accept : string -> string -> bool) (origin base : string)
    (a : Anchor) (h : string) : Prop :=
  resolved base a = Some h /\ truthy h = true /\
  Str.startsWith h origin = true /\ accept h (innerText a) = true.

(** [fetchHtml(link)] is fulfilled with contents that are not [null]. *)
Definition fetched (l : string) : bool :=
  match fetchHtml l with
  | Ret (Some _) => true
  | _ => false
  end.

(** The title read from a page. *)
Variable titleOf : Document -> string.

(** The job read from the page [html] fetched from [u]: none when the page
    shows no deadline. *)
Definition pageJob (u html : string) : list Job :=
  match deadlineOf (bodyText (parseHTML html)) with
  | Ret (Some t) => [mkJob (titleOf (parseHTML html)) u t]
  | _ => []
  end.

(** The job behind a link: none when the fetch fails or gives [null]. *)
Definition linkJob (l : string) : list Job :=
  match fetchHtml l with
  | Ret (Some html) => pageJob l html
  | _ => []
  end.

(** The jobs behind a list of links, in the order of the links. *)
Definition jobsOfLinks (links : list string) : list Job :=
  flat_map linkJob links.

End Selection.
End Selection.

Module Ordering.
Import Crawl.

Definition byDeadline (a b : Job) : Prop := lastDate a <= lastDate b.

(** Every job is due no later than the jobs after it. *)
Definition sortedByDeadline (l : list Job) : Prop :=
  StronglySorted byDeadline l.

End Ordering.

(** ** Pages of the list of jobs *)

Module Paging.
Import Crawl.

(** The index at which [Array.prototype.slice] starts or stops, for an
    array of [len] elements and an integral argument [i]: a negative
    argument counts from the end. *)
Definition relativeIndex (len i : Z) : Z :=
  if i <? 0 then Z.max (len + i) 0 else Z.min i len.

(** [array.slice(start, stop)] *)
Definition slice {A : Type} (l : list A) (start stop : Z) : list A :=
  let len := Z.of_nat (List.length l) in
  let k := relativeIndex len start in
  let final := relativeIndex len stop in
  firstn (Z.to_nat (Z.max (final - k) 0)) (skipn (Z.to_nat k) l).

(** [Math.max(1, p - 1)] *)
Definition goToPrevPage (p : Z) : Z := Z.max 1 (p - 1).

Inductive Click : Type := Previous | Next.

Section Pages.

(** 10 in [src/App.jsx] and [unnamed/part_000], 5 in [unnamed/part_001]. *)
Variable JOBS_PER_PAGE : Z.

(** [Math.ceil(jobs.length / JOBS_PER_PAGE)]: the quotient rounded up, for
    a positive [JOBS_PER_PAGE]. *)
Definition totalPages (jobs : list Job) : Z :=
  - ((- Z.of_nat (List.length jobs)) / JOBS_PER_PAGE).

Definition jobsToShow (page : Z) (jobs : list Job) : list Job :=
  slice jobs ((page - 1) * JOBS_PER_PAGE) (page * JOBS_PER_PAGE).

(** [Math.min(totalPages, p + 1)] *)
Definition goToNextPage (jobs : list Job) (p : Z) : Z :=
  Z.min (totalPages jobs) (p + 1).

(** [page] after a click on one of the two buttons, in [src/App.jsx] and
    [unnamed/part_001], where [setPage] is the setter of a state cell. *)
Definition click (jobs : list Job) (p : Z) (c : Click) : Z :=
  match c with
  | Previous => goToPrevPage p
  | Next => goToNextPage jobs p
  end.

(** The pages 1 to [n], in order. *)
Definition pagesUpTo (n : Z) : list Z :=
  map Z.of_nat (seq 1 (Z.to_nat n)).

End Pages.
End Paging.

(** ** Selected elements that are no HTML anchors *)

Module Elements.
Import Crawl.

(** An element selected by ['article a, .post a, .job-listing a, h2 a,
    h3 a']. The type selector [a] goes by the local name: besides the
    anchors of HTML, whose [href] is a string, it selects the [a] elements
    of an inline SVG, whose [href] is an [SVGAnimatedString] object. An
    element whose [href] is [undefined] fails both tests of the loop, as an
    anchor with an empty [href] does. *)
Inductive Element : Type :=
| HtmlAnchor (a : Anchor)
| SvgAnchor.

(** The HTML anchors among the elements, in order. *)
Fixpoint htmlAnchors (elements : list Element) : list Anchor :=
  match elements with
  | [] => []
  | HtmlAnchor a :: rest => a :: htmlAnchors rest
  | SvgAnchor :: rest => htmlAnchors rest
  end.

Section Elements.

Variable urlHref : string -> string -> option string.
Variable urlOrigin : string -> option string.

(** One turn of the [forEach] over the selected elements. An object is
    truthy and has no [startsWith]: [href.startsWith('http')] throws a
    [TypeError], outside the [try] that guards [new URL]. *)
Definition visitElement (accept : string -> string -> bool) (base : string)
    (postLinks : list string) (e : Element) : js (list string) :=
  match e with
  | HtmlAnchor a => visitAnchor urlHref urlOrigin accept base postLinks a
  | SvgAnchor => Throw "TypeError: href.startsWith is not a function"
  end.

Definition discoverElements (accept : string -> string -> bool) (base : string)
    (elements : list Element) : js (list string) :=
  foldM (visitElement accept base) elements [].

End Elements.
End Elements.
(** * Properties *)

(** ** Facts about the matcher *)

Module RegexFacts.
Import Regex.

Lemma getCapture_nil (i : nat) : getCapture i [] = None.
Proof. destruct i; reflexivity. Qed.

Lemma getCapture_set_same (i : nat) (v : string) (c : captures) :
  getCapture i (setCapture i v c) = Some v.
Proof.
  revert c; induction i as [|i IH]; intros [|x c]; simpl; auto.
  - apply (IH []).
  - apply IH.
Qed.

Lemma getCapture_set_other (i j : nat) (v : string) (c : captures) :
  i <> j -> getCapture j (setCapture i v c) = getCapture j c.
Proof.
  revert j c; induction i as [|i IH]; intros [|j] [|x c] Hij;
    try congruence; try reflexivity.
  - destruct j; reflexivity.
  - change (getCapture j (setCapture i v []) = getCapture (S j) []).
    rewrite (IH j []) by congruence. destruct j; reflexivity.
  - change (getCapture j (setCapture i v c) = getCapture j c).
    apply IH. congruence.
Qed.

Lemma isSet_setCapture (i j : nat) (v : string) (c : captures) :
  isSet j c -> isSet j (setCapture i v c).
Proof.
  unfold isSet. intros H. destruct (Nat.eq_dec i j) as [->|Hne].
  - rewrite getCapture_set_same. discriminate.
  - rewrite getCapture_set_other; assumption.
Qed.

Lemma firstOf_Some (a b : option captures) (res : captures) :
  firstOf a b = Some res -> a = Some res \/ b = Some res.
Proof. destruct a; simpl; auto. Qed.

Lemma rep_inv (g : bool) (p : ascii -> bool) (s : string) :
  forall lo hi c k res,
    rep g p lo hi s c k = Some res -> exists s', k s' c = Some res.
Proof.
  induction s as [|x s IH]; intros lo hi c k res H; simpl in H.
  - destruct lo; [eauto | discriminate].
  - destruct (p x && more hi).
    + destruct g; apply firstOf_Some in H as [H|H];
        try (destruct lo; [eauto | discriminate]); eapply IH; eauto.
    + destruct lo; [eauto | discriminate].
Qed.

(** A successful run reaches its continuation with every group of [sets r]
    set and no group unset. *)
Lemma run_inv (r : re) :
  forall s c k res,
    run r s c k = Some res ->
    exists s' c',
      k s' c' = Some res /\
      (forall i, sets r i = true -> isSet i c') /\
      (forall i, isSet i c -> isSet i c').
Proof.
  induction r as [p|a IHa b IHb|a IHa b IHb|a IHa|g lo hi p|j a IHa];
    intros s c k res H; simpl in H.
  - destruct s as [|x s']; [discriminate|].
    destruct (p x); [|discriminate].
    exists s', c. simpl. repeat split; auto; discriminate.
  - apply IHa in H as (s1 & c1 & H1 & Ha & Hk1).
    apply IHb in H1 as (s2 & c2 & H2 & Hb & Hk2).
    exists s2, c2. repeat split; auto.
    intros i Hi. simpl in Hi. apply orb_true_iff in Hi as [Hi|Hi]; auto.
  - apply firstOf_Some in H as [H|H].
    + apply IHa in H as (s1 & c1 & H1 & Ha & Hk1).
      exists s1, c1. repeat split; auto.
      intros i Hi. simpl in Hi. apply andb_true_iff in Hi as [Hi _]; auto.
    + apply IHb in H as (s1 & c1 & H1 & Hb & Hk1).
      exists s1, c1. repeat split; auto.
      intros i Hi. simpl in Hi. apply andb_true_iff in Hi as [_ Hi]; auto.
  - apply firstOf_Some in H as [H|H].
    + apply IHa in H as (s1 & c1 & H1 & _ & Hk1).
      exists s1, c1. repeat split; auto. discriminate.
    + exists s, c. repeat split; auto. discriminate.
  - apply rep_inv in H as (s' & H).
    exists s', c. repeat split; auto. discriminate.
  - apply IHa in H as (s1 & c1 & H1 & Ha & Hk1).
    eexists s1, _. split; [exact H1|]. split.
    + intros i Hi. simpl in Hi. apply orb_true_iff in Hi as [Hi|Hi].
      * apply Nat.eqb_eq in Hi. subst i. unfold isSet.
        rewrite getCapture_set_same. discriminate.
      * apply isSet_setCapture; auto.
    + intros i Hi. apply isSet_setCapture; auto.
Qed.

Lemma attempt_sets (n : nat) (r : re) (s : string) (res : captures) (i : nat) :
  attempt n r s = Some res -> sets r i = true -> isSet i res.
Proof.
  unfold attempt. intros H Hi.
  apply run_inv in H as (s' & c' & H & Hs & _).
  assert (E : res = setCapture 0
              (Str.take (String.length s - String.length s') s) c')
    by (cbv beta in H; congruence).
  rewrite E. apply isSet_setCapture; auto.
Qed.

Lemma search_sets (n : nat) (r : re) (s : string) (res : captures) (i : nat) :
  search n r s = Some res -> sets r i = true -> isSet i res.
Proof.
  induction s as [|x s IH]; simpl; intros H Hi;
    apply firstOf_Some in H as [H|H]; try discriminate;
    eauto using attempt_sets.
Qed.

End RegexFacts.

(** ** The state reducer of [unnamed/part_000] *)

Module ReducerFacts.
Import Crawl Part000.

(** C10. In [crawlerReducer], each of SET_URL, SET_FILTER_DATE, SET_PAGE and
    TOGGLE_SIX_MONTHS_FILTER stores its payload in its own field (url,
    filterDate, page, showNextSixMonths), leaves the three other such fields
    as they were and leaves jobs, isLoading, status and error unchanged;
    START_SCAN resets jobs to the empty list, error to the empty string and
    page to 1; SET_JOBS and SET_ERROR both set isLoading to false and clear
    status. *)
Theorem crawlerReducer_frame (state : State) :
  (forall p, let s' := crawlerReducer state (SET_URL p) in
     url s' = p /\ filterDate s' = filterDate state /\ page s' = page state /\
     showNextSixMonths s' = showNextSixMonths state /\ sameResults state s') /\
  (forall p, let s' := crawlerReducer state (SET_FILTER_DATE p) in
     filterDate s' = p /\ url s' = url state /\ page s' = page state /\
     showNextSixMonths s' = showNextSixMonths state /\ sameResults state s') /\
  (forall p, let s' := crawlerReducer state (SET_PAGE p) in
     page s' = p /\ url s' = url state /\ filterDate s' = filterDate state /\
     showNextSixMonths s' = showNextSixMonths state /\ sameResults state s') /\
  (forall p, let s' := crawlerReducer state (TOGGLE_SIX_MONTHS_FILTER p) in
     showNextSixMonths s' = p /\ url s' = url state /\
     filterDate s' = filterDate state /\ page s' = page state /\
     sameResults state s') /\
  (let s' := crawlerReducer state START_SCAN in
     jobs s' = [] /\ error s' = "" /\ page s' = 1) /\
  (forall p, let s' := crawlerReducer state (SET_JOBS p) in
     isLoading s' = false /\ status s' = "") /\
  (forall p, let s' := crawlerReducer state (SET_ERROR p) in
     isLoading s' = false /\ status s' = "").
Proof.
  unfold sameResults; repeat split; reflexivity.
Qed.

End ReducerFacts.

(** ** [parseDate] *)

Module ParserFacts.
Import Regex RegexFacts Patterns.

Lemma textMatch_name (s : string) (parts : captures) :
  textMatch s = Some parts -> exists name, getCapture 2 parts = Some name.
Proof.
  intros H. unfold textMatch in H.
  apply search_sets with (i := 2%nat) in H; [|reflexivity].
  unfold isSet in H. destruct (getCapture 2 parts) as [name|]; [eauto|congruence].
Qed.

Lemma orNext_returns (a b : js (option Z)) :
  (exists r, a = Ret r) -> (exists r, b = Ret r) -> exists r, orNext a b = Ret r.
Proof.
  intros [ra ->] [rb ->]. unfold orNext; simpl. destruct ra; eauto.
Qed.

Lemma AppJsx_textBranch_returns (s : string) :
  exists r, AppJsx.textBranch s = Ret r.
Proof.
  unfold AppJsx.textBranch. destruct (textMatch s) as [parts|] eqn:E; [|eauto].
  destruct (textMatch_name s parts E) as [name ->]. eauto.
Qed.

Lemma Part000_textBranch_returns (s : string) :
  exists r, Part000.textBranch s = Ret r.
Proof.
  unfold Part000.textBranch. destruct (textMatch s) as [parts|]; [|eauto].
  destruct (getCapture 2 parts); eauto.
Qed.

Lemma AppJsx_parseDate_returns (dateParse : string -> option Z)
    (input : option string) :
  exists r, AppJsx.parseDate dateParse input = Ret r.
Proof.
  unfold AppJsx.parseDate. destruct input as [[|c s]|]; eauto.
  repeat apply orNext_returns; eauto using AppJsx_textBranch_returns.
Qed.

Lemma Part000_parseDate_returns (dateParse : string -> option Z)
    (input : option string) :
  exists r, Part000.parseDate dateParse input = Ret r.
Proof.
  unfold Part000.parseDate. destruct input as [[|c s]|]; eauto.
  repeat apply orNext_returns; eauto using Part000_textBranch_returns.
Qed.

Lemma Part001_parseDate_returns (dateParse : string -> option Z)
    (input : option string) :
  exists r, Part001.parseDate dateParse input = Ret r.
Proof.
  unfold Part001.parseDate. destruct input as [[|c s]|]; eauto.
  repeat apply orNext_returns; eauto.
Qed.

(** C9. For every input string, the empty string included, and for [null],
    [parseDate] returns a date or [null] and never throws, in each of the
    three files; [parseDate("")] and [parseDate(null)] return [null]. *)
Theorem parseDate_total (dateParse : string -> option Z) :
  (forall input : option string,
     (exists r, AppJsx.parseDate dateParse input = Ret r) /\
     (exists r, Part000.parseDate dateParse input = Ret r) /\
     (exists r, Part001.parseDate dateParse input = Ret r)) /\
  AppJsx.parseDate dateParse (Some "") = Ret None /\
  AppJsx.parseDate dateParse None = Ret None /\
  Part000.parseDate dateParse (Some "") = Ret None /\
  Part000.parseDate dateParse None = Ret None /\
  Part001.parseDate dateParse (Some "") = Ret None /\
  Part001.parseDate dateParse None = Ret None.
Proof.
  split; [|repeat split; reflexivity].
  intros input.
  auto using AppJsx_parseDate_returns, Part000_parseDate_returns,
    Part001_parseDate_returns.
Qed.

(** C1 (defect of the code). "31/02/2025" names no day of February 2025, and
    "31/04/2025" no day of April; [parseDate] returns a date for both in each
    of the three files, rolled over into the following month: 3 March 2025
    and 1 May 2025. *)
Theorem parseDate_rolls_over (dateParse : string -> option Z) :
  ~ JSDate.validDate 2025 2 31 /\ ~ JSDate.validDate 2025 4 31 /\
  AppJsx.parseDate dateParse (Some "31/02/2025")
    = Ret (Some (JSDate.calendarDate 2025 3 3)) /\
  Part000.parseDate dateParse (Some "31/02/2025")
    = Ret (Some (JSDate.calendarDate 2025 3 3)) /\
  Part001.parseDate dateParse (Some "31/02/2025")
    = Ret (Some (JSDate.calendarDate 2025 3 3)) /\
  AppJsx.parseDate dateParse (Some "31/04/2025")
    = Ret (Some (JSDate.calendarDate 2025 5 1)) /\
  JSDate.utcDate (JSDate.calendarDate 2025 3 3) = (2025, 3, 3).
Proof.
  repeat split; try reflexivity;
    unfold JSDate.validDate; simpl; lia.
Qed.

End ParserFacts.

(** ** The extraction loop *)

Module LoopFacts.
Import Regex Patterns Crawl.

Lemma foldM_invariant {A B : Type} (f : A -> B -> js A) (Inv : A -> Prop) :
  (forall a x, Inv a -> exists a', f a x = Ret a' /\ Inv a') ->
  forall l a, Inv a -> exists a', foldM f l a = Ret a' /\ Inv a'.
Proof.
  intros Hstep l. induction l as [|x l IH]; intros a Ha; simpl.
  - eauto.
  - destruct (Hstep a x Ha) as (a1 & -> & Ha1). simpl. auto.
Qed.

Lemma foldM_preserves {A B : Type} (f : A -> B -> js A) (Inv : A -> Prop)
    (l : list B) :
  (forall a x a', In x l -> Inv a -> f a x = Ret a' -> Inv a') ->
  forall a a', Inv a -> foldM f l a = Ret a' -> Inv a'.
Proof.
  induction l as [|x l IH]; intros Hstep a a' Ha H; simpl in H.
  - congruence.
  - destruct (f a x) as [a1|e] eqn:E; simpl in H; [|discriminate].
    apply IH with (a := a1); auto.
    + intros b y b' Hy. apply Hstep. right. exact Hy.
    + apply (Hstep a x a1); auto. left. reflexivity.
Qed.

Lemma existsb_link_false (postUrl : string) (jobs : list Job) :
  existsb (fun job => String.eqb (link job) postUrl) jobs = false ->
  ~ In postUrl (map link jobs).
Proof.
  induction jobs as [|j jobs IH]; simpl; [tauto|].
  intros H. apply orb_false_iff in H as [Hj Hrest].
  apply String.eqb_neq in Hj. intros [E|E]; [congruence|]. apply IH; auto.
Qed.

Lemma NoDup_snoc (l : list string) (x : string) :
  NoDup l -> ~ In x l -> NoDup (l ++ [x]).
Proof.
  intros Hl Hx. induction Hl as [|y l Hy Hl IH]; simpl.
  - constructor; [tauto | constructor].
  - constructor.
    + rewrite in_app_iff. simpl. intros [H|[H|[]]]; [tauto|].
      apply Hx. left. congruence.
    + apply IH. intros H. apply Hx. right. exact H.
Qed.

Lemma wellFormed_push (today : Z) (jobs : list Job) (title postUrl : string)
    (t : Z) :
  wellFormed today jobs -> today <= t ->
  existsb (fun job => String.eqb (link job) postUrl) jobs = false ->
  wellFormed today (jobs ++ [mkJob title postUrl t]).
Proof.
  intros [Hn Hf] Ht He. split.
  - rewrite map_app. simpl. apply NoDup_snoc; auto using existsb_link_false.
  - apply Forall_app. split; auto.
Qed.

Lemma validOf_fetchAll (fetchHtml : string -> js (option string))
    (uniqueLinks : list string) (u html : string) :
  In (u, html) (validOf (fetchAll fetchHtml uniqueLinks)) ->
  In u uniqueLinks /\ fetchHtml u = Ret (Some html).
Proof.
  induction uniqueLinks as [|l rest IH]; simpl; [tauto|].
  destruct (fetchHtml l) as [[h|]|e] eqn:E; simpl; intros H.
  - destruct H as [[= <- <-]|H]; [auto | apply IH in H; tauto].
  - apply IH in H. tauto.
  - apply IH in H. tauto.
Qed.

Section Loop.

Variable parseHTML : string -> Document.
Variable parseDate : option string -> js (option Z).
Variable long : string -> bool.
Variable today : Z.
Hypothesis parseDate_returns : forall x, exists r, parseDate x = Ret r.

Lemma extractDeadline_returns (body : string) :
  exists d, extractDeadline parseDate today body = Ret d /\
            forall t, d = Some t -> today <= t.
Proof.
  unfold extractDeadline.
  destruct (search 1 deadlineRegex body) as [m|];
    [|eexists; split; [reflexivity|discriminate]].
  destruct (getCapture 1 m) as [payload|];
    [|eexists; split; [reflexivity|discriminate]].
  destruct (truthy payload && (2 <=? relevanceScore body));
    [|eexists; split; [reflexivity|discriminate]].
  destruct (parseDate_returns (Some (Str.trim payload))) as [[t|] ->]; simpl;
    [|eexists; split; [reflexivity|discriminate]].
  destruct (today <=? t) eqn:E; eexists; split; try reflexivity;
    try discriminate.
  intros t' [= <-]. apply Z.leb_le. exact E.
Qed.

Lemma visitResult_invariant (jobs : list Job) (result : string * string) :
  wellFormed today jobs ->
  exists jobs', visitResult parseHTML parseDate long today jobs result = Ret jobs'
                /\ wellFormed today jobs'.
Proof.
  intros Hw. destruct result as [postUrl postHtml]. unfold visitResult.
  destruct (extractDeadline_returns (bodyText (parseHTML postHtml)))
    as (d & -> & Hd). simpl.
  destruct d as [t|]; [|eauto].
  destruct (existsb _ jobs) eqn:E; [eauto|].
  eexists; split; [reflexivity|]. apply wellFormed_push; auto.
Qed.

Lemma extractJobs_invariant (validResults : list (string * string)) :
  exists jobs, extractJobs parseHTML parseDate long today validResults = Ret jobs
               /\ wellFormed today jobs.
Proof.
  unfold extractJobs. apply foldM_invariant.
  - intros a x. apply visitResult_invariant.
  - split; [constructor | constructor].
Qed.

Local Abbreviation provenance :=
  (Crawl.provenance parseHTML parseDate long today).

Lemma extractJobs_provenance (validResults : list (string * string))
    (jobs : list Job) :
  extractJobs parseHTML parseDate long today validResults = Ret jobs ->
  Forall (provenance validResults) jobs.
Proof.
  unfold extractJobs.
  apply (foldM_preserves _ (Forall (provenance validResults))); [|constructor].
  intros acc [postUrl postHtml] acc' Hin Hacc H. unfold visitResult in H.
  destruct (extractDeadline parseDate today (bodyText (parseHTML postHtml)))
    as [[t|]|e] eqn:E; simpl in H; try discriminate;
    [|injection H as <-; exact Hacc].
  destruct (existsb _ acc); injection H as <-; [exact Hacc|].
  apply Forall_app. split; [exact Hacc|]. constructor; [|constructor].
  exists postHtml. auto.
Qed.

End Loop.

(** The pages are never more than the links: [uniqueLinks[index]] is
    defined at every turn of the loop of [unnamed/part_001]. *)
Lemma validHtmls_no_more_than_links (fetchHtml : string -> js (option string))
    (uniqueLinks : list string) :
  (List.length (Part001.validHtmlsOf (Part001.postHtmlsOf fetchHtml uniqueLinks))
   <= List.length uniqueLinks)%nat.
Proof.
  induction uniqueLinks as [|l rest IH]; simpl; [lia|].
  destruct (fetchHtml l) as [[h|]|e]; simpl; lia.
Qed.

Section Part001Loop.

Variable dateParse : string -> option Z.
Variable parseHTML : string -> Document.
Variable today : Z.

Lemma Part001_extractDeadline_returns (body : string) :
  exists d, Part001.extractDeadline dateParse today body = Ret d /\
            forall t, d = Some t -> today <= t.
Proof.
  unfold Part001.extractDeadline.
  destruct (search 1 Part001.deadlineRegex body) as [m|];
    [|eexists; split; [reflexivity|discriminate]].
  destruct (getCapture 1 m) as [payload|];
    [|eexists; split; [reflexivity|discriminate]].
  destruct (truthy payload);
    [|eexists; split; [reflexivity|discriminate]].
  destruct (ParserFacts.Part001_parseDate_returns dateParse (Some payload))
    as [[t|] ->]; simpl;
    [|eexists; split; [reflexivity|discriminate]].
  destruct (today <=? t) eqn:E; eexists; split; try reflexivity;
    try discriminate.
  intros t' [= <-]. apply Z.leb_le. exact E.
Qed.

Lemma Part001_visitHtml_invariant (uniqueLinks : list string)
    (acc : list Job * nat) (postHtml : string) :
  wellFormed today (fst acc) ->
  exists acc', Part001.visitHtml dateParse parseHTML today uniqueLinks acc postHtml
               = Ret acc' /\ wellFormed today (fst acc').
Proof.
  intros Hw. destruct acc as [jobs index]. unfold Part001.visitHtml.
  destruct (Part001_extractDeadline_returns (bodyText (parseHTML postHtml)))
    as (d & -> & Hd). simpl.
  destruct d as [t|]; [|eauto].
  destruct (existsb _ jobs) eqn:E; [eauto|].
  eexists; split; [reflexivity|]. apply wellFormed_push; auto.
Qed.

End Part001Loop.


(** In [src/App.jsx] and [unnamed/part_000] a failed fetch drops its link
    and nothing else: every job returned carries the URL of a page that was
    fetched, and the title and the deadline read from that page. *)
Lemma jobs_carry_their_own_link (dateParse : string -> option Z)
    (fetchHtml : string -> js (option string)) (parseHTML : string -> Document)
    (now tza : Z) (uniqueLinks : list string) (jobs : list Job) (j : Job) :
  AppJsx.foundJobsOf dateParse fetchHtml parseHTML now tza uniqueLinks = Ret jobs ->
  In j jobs ->
  exists html,
    In (link j) uniqueLinks /\ fetchHtml (link j) = Ret (Some html) /\
    title j = findTitle AppJsx.long (parseHTML html) /\
    extractDeadline (AppJsx.parseDate dateParse) (localMidnight now tza)
      (bodyText (parseHTML html)) = Ret (Some (lastDate j)).
Proof.
  intros H Hj. apply extractJobs_provenance in H.
  rewrite Forall_forall in H. destruct (H j Hj) as (html & Hin & Ht & Hd).
  apply validOf_fetchAll in Hin as [Hl Hf].
  exists html. repeat split; assumption.
Qed.


(** C3, as the code has it. In [src/App.jsx] and [unnamed/part_000]: a body
    text with fewer than 2 of the job keywords yields [null], trigger phrase
    or not; a body text in which the deadline pattern captures a payload,
    with at least 2 keywords, whose trimmed payload parses to a date on or
    after [today], yields that date. *)
Theorem relevance_gate (dateParse : string -> option Z) (today : Z)
    (body : string) :
  (relevanceScore body < 2 ->
     extractDeadline (AppJsx.parseDate dateParse) today body = Ret None /\
     extractDeadline (Part000.parseDate dateParse) today body = Ret None) /\
  (forall m payload t,
     search 1 deadlineRegex body = Some m ->
     getCapture 1 m = Some payload ->
     2 <= relevanceScore body ->
     today <= t ->
     (AppJsx.parseDate dateParse (Some (Str.trim payload)) = Ret (Some t) ->
      extractDeadline (AppJsx.parseDate dateParse) today body = Ret (Some t)) /\
     (Part000.parseDate dateParse (Some (Str.trim payload)) = Ret (Some t) ->
      extractDeadline (Part000.parseDate dateParse) today body = Ret (Some t))).
Proof.
  split.
  - intros Hs. apply Z.leb_gt in Hs. unfold extractDeadline.
    destruct (search 1 deadlineRegex body) as [m|]; auto.
    destruct (getCapture 1 m) as [payload|]; auto.
    rewrite Hs, andb_false_r. auto.
  - intros m payload t Hm Hp Hs Ht. apply Z.leb_le in Hs, Ht.
    assert (Hne : forall P : option string -> js (option Z),
               P (Some "") = Ret None ->
               P (Some (Str.trim payload)) = Ret (Some t) ->
               truthy payload = true).
    { intros P H0 H1. destruct payload; [|reflexivity].
      change (Str.trim "") with "" in H1. congruence. }
    split; intros Hd; unfold extractDeadline; rewrite Hm, Hp, Hs;
      rewrite (Hne _ eq_refl Hd); cbn [andb]; rewrite Hd; cbn [bind];
      rewrite Ht; reflexivity.
Qed.

Lemma relevance_gate_witness :
  extractDeadline (AppJsx.parseDate Scenario.noDateParse) 0
    (bodyText Scenario.noticeDoc) = Ret None /\
  extractDeadline (AppJsx.parseDate Scenario.noDateParse) 0
    (bodyText Scenario.nurseDoc) = Ret (Some (JSDate.calendarDate 2099 1 15)).
Proof.
  split.
  - apply (relevance_gate Scenario.noDateParse 0 (bodyText Scenario.noticeDoc)).
    vm_compute. reflexivity.
  - apply (proj2 (relevance_gate Scenario.noDateParse 0
                    (bodyText Scenario.nurseDoc))
             [Some "Last date: 15/01/2099"; Some "15/01/2099"] "15/01/2099"
             (JSDate.calendarDate 2099 1 15));
      try (vm_compute; reflexivity); vm_compute; discriminate.
Defined.

(** C3, the counterexample. In [unnamed/part_001] a page that mentions a
    deadline and none of the job keywords yields a date. *)
Lemma part001_has_no_gate :
  relevanceScore (bodyText Scenario.noticeDoc) = 0 /\
  Part001.extractDeadline Scenario.noDateParse
    (localMidnight Scenario.now Scenario.tza) (bodyText Scenario.noticeDoc)
  = Ret (Some (JSDate.calendarDate 2099 1 15)).
Proof. split; vm_compute; reflexivity. Qed.

(** C4 (defect of the code). Three candidate links, the first of which fails
    to fetch: [unnamed/part_001] returns the job extracted from the second
    page under the link of the first, the page that was never read;
    [src/App.jsx], which carries the URL with each page, returns it under
    its own link. *)
Theorem part001_misattributes_link :
  Part001.discoverLinks Scenario.urlHref Scenario.urlOrigin Scenario.seed
    Scenario.seedDoc
  = Ret [Scenario.clerk; Scenario.nurse; Scenario.about] /\
  (exists e, Scenario.fetchHtml Scenario.clerk = Throw e) /\
  Scenario.fetchHtml Scenario.nurse = Ret (Some "nurse") /\
  Part001.foundJobsOf Scenario.noDateParse Scenario.fetchHtml
    Scenario.parseHTML Scenario.now Scenario.tza
    [Scenario.clerk; Scenario.nurse; Scenario.about]
  = Ret [mkJob "Staff Nurse Recruitment 2099" Scenario.clerk
           (JSDate.calendarDate 2099 1 15)] /\
  AppJsx.foundJobsOf Scenario.noDateParse Scenario.fetchHtml
    Scenario.parseHTML Scenario.now Scenario.tza
    [Scenario.clerk; Scenario.nurse; Scenario.about]
  = Ret [mkJob "Staff Nurse Recruitment 2099" Scenario.nurse
           (JSDate.calendarDate 2099 1 15)].
Proof.
  repeat split; try (vm_compute; reflexivity).
  eexists. vm_compute. reflexivity.
Qed.

End LoopFacts.

(** ** Link discovery *)

Module DiscoveryFacts.
Import Crawl.

Lemma existsb_eqb_false (x : string) (l : list string) :
  existsb (String.eqb x) l = false -> ~ In x l.
Proof.
  induction l as [|y l IH]; simpl; [tauto|].
  intros H. apply orb_false_iff in H as [Hy Hl].
  apply String.eqb_neq in Hy. intros [E|E]; [congruence|]. apply IH; auto.
Qed.

Lemma setAdd_NoDup (x : string) (l : list string) :
  NoDup l -> NoDup (setAdd x l).
Proof.
  intros Hl. unfold setAdd. destruct (existsb (String.eqb x) l) eqn:E; auto.
  apply LoopFacts.NoDup_snoc; auto using existsb_eqb_false.
Qed.

Lemma setAdd_In (x y : string) (l : list string) :
  In y (setAdd x l) -> y = x \/ In y l.
Proof.
  unfold setAdd. destruct (existsb (String.eqb x) l); auto.
  rewrite in_app_iff. simpl. intuition.
Qed.

Section Discover.

Variable urlHref : string -> string -> option string.
Variable urlOrigin : string -> option string.
Variable accept : string -> string -> bool.
Variable base : string.
Variable doc : Document.

Local Abbreviation admissible := (Crawl.admissible urlHref urlOrigin accept base doc).
Local Abbreviation linkSet := (Crawl.linkSet urlHref urlOrigin accept base doc).

Lemma visitAnchor_linkSet (postLinks : list string) (a : Anchor)
    (postLinks' : list string) :
  In a (anchors doc) -> linkSet postLinks ->
  visitAnchor urlHref urlOrigin accept base postLinks a = Ret postLinks' ->
  linkSet postLinks'.
Proof.
  intros Ha [Hn Hadm] H. unfold visitAnchor in H.
  set (resolved := if truthy (href a) && negb (Str.startsWith (href a) "http")
                   then urlHref (href a) base else Some (href a)) in H.
  assert (Hres : forall h, resolved = Some h ->
                           h = href a \/ urlHref (href a) base = Some h).
  { intros h. unfold resolved.
    destruct (truthy (href a) && negb (Str.startsWith (href a) "http"));
      [auto | intros [= <-]; auto]. }
  destruct resolved as [h|]; [|injection H as <-; split; auto].
  destruct (truthy h); [|injection H as <-; split; auto].
  destruct (urlOrigin base) as [origin|] eqn:Eo; [|discriminate].
  destruct (Str.startsWith h origin && accept h (innerText a)) eqn:E;
    injection H as <-; [|split; auto].
  apply andb_true_iff in E as [Es Ea]. split.
  - apply setAdd_NoDup; auto.
  - intros y Hy. apply setAdd_In in Hy as [->|Hy]; auto.
    split; [eauto|]. exists a. auto.
Qed.

Lemma discover_linkSet (links : list string) :
  discover urlHref urlOrigin accept base doc = Ret links -> linkSet links.
Proof.
  unfold discover. apply LoopFacts.foldM_preserves.
  - intros postLinks a postLinks' Ha. apply visitAnchor_linkSet; auto.
  - split; [constructor | intros h []].
Qed.

(** An anchor whose [href] the [URL] constructor rejects changes nothing and
    raises nothing. *)
Lemma visitAnchor_skips (postLinks : list string) (a : Anchor) :
  truthy (href a) = true -> Str.startsWith (href a) "http" = false ->
  urlHref (href a) base = None ->
  visitAnchor urlHref urlOrigin accept base postLinks a = Ret postLinks.
Proof.
  intros Ht Hs Hu. unfold visitAnchor. rewrite Ht, Hs, Hu. reflexivity.
Qed.

End Discover.

(** C7, as the code has it. In [src/App.jsx] and [unnamed/part_000], for
    every seed page and seed URL, the links returned are pairwise distinct,
    each begins with the origin of the seed, and each comes from an anchor
    such that the lower-cased URL or the lower-cased anchor text contains
    one of job, career, vacancy, hiring, position; an anchor whose href fails
    to normalize is skipped and the scan goes on; the seed page with three
    same-site links, two of them job-like, and one link to another site
    yields exactly the two job-like links. *)
Theorem discoverLinks_sound :
  (forall urlHref urlOrigin base doc links,
     AppJsx.discoverLinks urlHref urlOrigin base doc = Ret links \/
     Part000.discoverLinks urlHref urlOrigin base doc = Ret links ->
     Crawl.linkSet urlHref urlOrigin hasJobKeyword base doc links) /\
  (forall urlHref urlOrigin base postLinks a,
     truthy (href a) = true -> Str.startsWith (href a) "http" = false ->
     urlHref (href a) base = None ->
     visitAnchor urlHref urlOrigin hasJobKeyword base postLinks a
     = Ret postLinks) /\
  AppJsx.discoverLinks Scenario.urlHref Scenario.urlOrigin Scenario.seed
    Scenario.seedDoc = Ret [Scenario.clerk; Scenario.nurse] /\
  Part000.discoverLinks Scenario.urlHref Scenario.urlOrigin Scenario.seed
    Scenario.seedDoc = Ret [Scenario.clerk; Scenario.nurse].
Proof.
  split; [|split; [|split]].
  - intros urlHref urlOrigin base doc links [H|H];
      apply discover_linkSet; exact H.
  - intros. apply visitAnchor_skips; assumption.
  - vm_compute. reflexivity.
  - vm_compute. reflexivity.
Qed.

Lemma discoverLinks_sound_witness :
  Crawl.linkSet Scenario.urlHref Scenario.urlOrigin hasJobKeyword Scenario.seed
    Scenario.seedDoc [Scenario.clerk; Scenario.nurse] /\
  visitAnchor Scenario.urlHref Scenario.urlOrigin hasJobKeyword Scenario.seed
    [] (mkAnchor "mailto:" "Write to us") = Ret [].
Proof.
  split.
  - apply (proj1 discoverLinks_sound Scenario.urlHref Scenario.urlOrigin
             Scenario.seed Scenario.seedDoc [Scenario.clerk; Scenario.nurse]).
    left. vm_compute. reflexivity.
  - apply (proj1 (proj2 discoverLinks_sound)); vm_compute; reflexivity.
Defined.

(** C7, the counterexample. [unnamed/part_001] tests no keyword: from the
    same seed page it returns the unrelated same-site link as well. *)
Lemma part001_keeps_unrelated_link :
  Part001.discoverLinks Scenario.urlHref Scenario.urlOrigin Scenario.seed
    Scenario.seedDoc
  = Ret [Scenario.clerk; Scenario.nurse; Scenario.about] /\
  hasJobKeyword Scenario.about "About us" = false.
Proof. split; vm_compute; reflexivity. Qed.

(** The same-site test compares prefixes: a URL of another origin that
    begins with the text of the seed's origin passes it. *)
Lemma prefix_is_not_origin :
  AppJsx.discoverLinks Scenario.urlHref Scenario.urlOrigin Scenario.seed
    (mkDocument [mkAnchor Scenario.lookalike "Apply"] (fun _ => None) "")
  = Ret [Scenario.lookalike] /\
  Scenario.urlOrigin Scenario.lookalike <> Scenario.urlOrigin Scenario.seed.
Proof. split; vm_compute; [reflexivity | discriminate]. Qed.

End DiscoveryFacts.

(** ** The outcomes of a run *)

Module RunFacts.
Import Crawl.

Lemma messageOf_nonempty (e : string) : Part000.messageOf e <> "".
Proof.
  unfold Part000.messageOf. destruct e; simpl; discriminate.
Qed.

Section Run.

Variable dateParse : string -> option Z.
Variable urlHref : string -> string -> option string.
Variable urlOrigin : string -> option string.
Variable fetchHtml : string -> js (option string).
Variable parseHTML : string -> Document.
Variable now tza : Z.

Local Abbreviation run :=
  (Part000.handleFetchJobs dateParse urlHref urlOrigin fetchHtml parseHTML
     now tza).
Local Abbreviation found :=
  (Part000.foundJobsOf dateParse fetchHtml parseHTML now tza).
Local Abbreviation seedUnreachable := (Part000.seedUnreachable fetchHtml).
Local Abbreviation seedLinks :=
  (Part000.seedLinks urlHref urlOrigin fetchHtml parseHTML).

Lemma run_empty (state : Part000.State) (uniqueLinks : list string) :
  truthy (Part000.url state) = true ->
  seedLinks (correctUrl (Part000.url state)) uniqueLinks ->
  uniqueLinks <> [] -> found uniqueLinks = Ret [] ->
  Part000.jobs (run state) = [] /\ Part000.error (run state) = "" /\
  Part000.isLoading (run state) = false /\ Part000.status (run state) = "".
Proof.
  intros Hu (html & Hf & Hh & Hl) Hne Hfound.
  unfold Part000.handleFetchJobs, Part000.dispatched, Part000.scan.
  rewrite Hu, Hf, Hh, Hl. destruct uniqueLinks as [|l0 rest]; [congruence|].
  rewrite Hfound. simpl. auto.
Qed.

Lemma run_seed_unreachable (state : Part000.State) :
  truthy (Part000.url state) = true ->
  seedUnreachable (correctUrl (Part000.url state)) ->
  Part000.jobs (run state) = [] /\ Part000.error (run state) <> "".
Proof.
  intros Hu H.
  unfold Part000.handleFetchJobs, Part000.dispatched, Part000.scan.
  rewrite Hu. destruct H as [[e ->]|[->| ->]]; simpl; split; auto;
    try discriminate. apply messageOf_nonempty.
Qed.

Lemma run_no_links (state : Part000.State) :
  truthy (Part000.url state) = true ->
  seedLinks (correctUrl (Part000.url state)) [] ->
  Part000.jobs (run state) = [] /\ Part000.error (run state) <> "".
Proof.
  intros Hu (html & Hf & Hh & Hl).
  unfold Part000.handleFetchJobs, Part000.dispatched, Part000.scan.
  rewrite Hu, Hf, Hh, Hl. simpl. split; auto; discriminate.
Qed.

End Run.

(** C8, as the code has it. In [unnamed/part_000], a run whose seed fetch and
    link discovery succeed and whose extraction finds no job ends with an
    empty job list, an empty error, loading off and status cleared; a run
    whose seed is unreachable and a run that discovers no candidate link both
    end with a non-empty error. The empty outcome differs from both in the
    error field. *)
Theorem empty_run_is_success (dateParse : string -> option Z)
    (urlHref : string -> string -> option string)
    (urlOrigin : string -> option string)
    (fetchHtml : string -> js (option string))
    (parseHTML : string -> Document) (now tza : Z) (state : Part000.State) :
  let final := Part000.handleFetchJobs dateParse urlHref urlOrigin fetchHtml
                 parseHTML now tza state in
  let base := correctUrl (Part000.url state) in
  truthy (Part000.url state) = true ->
  (forall uniqueLinks,
     Part000.seedLinks urlHref urlOrigin fetchHtml parseHTML base uniqueLinks ->
     uniqueLinks <> [] ->
     Part000.foundJobsOf dateParse fetchHtml parseHTML now tza uniqueLinks
     = Ret [] ->
     Part000.jobs final = [] /\ Part000.error final = "" /\
     Part000.isLoading final = false /\ Part000.status final = "") /\
  (Part000.seedUnreachable fetchHtml base ->
     Part000.jobs final = [] /\ Part000.error final <> "") /\
  (Part000.seedLinks urlHref urlOrigin fetchHtml parseHTML base [] ->
     Part000.jobs final = [] /\ Part000.error final <> "").
Proof.
  intros final base Hu. split; [|split].
  - intros uniqueLinks Hs Hne Hf. eapply run_empty; eauto.
  - intros Hs. apply run_seed_unreachable; auto.
  - intros Hs. eapply run_no_links; eauto.
Qed.

Lemma empty_run_is_success_witness :
  Part000.error (Part000.handleFetchJobs Scenario.noDateParse Scenario.urlHref
                   Scenario.urlOrigin Scenario.fetchQuiet Scenario.parseHTML
                   Scenario.now Scenario.tza Scenario.seedState) = "" /\
  Part000.error (Part000.handleFetchJobs Scenario.noDateParse Scenario.urlHref
                   Scenario.urlOrigin Scenario.fetchNothing Scenario.parseHTML
                   Scenario.now Scenario.tza Scenario.seedState) <> "" /\
  Part000.error (Part000.handleFetchJobs Scenario.noDateParse Scenario.urlHref
                   Scenario.urlOrigin Scenario.fetchBare Scenario.parseHTML
                   Scenario.now Scenario.tza Scenario.seedState) <> "".
Proof.
  split; [|split].
  - apply (proj1 (empty_run_is_success Scenario.noDateParse Scenario.urlHref
                    Scenario.urlOrigin Scenario.fetchQuiet Scenario.parseHTML
                    Scenario.now Scenario.tza Scenario.seedState eq_refl)
             [Scenario.clerk; Scenario.nurse]).
    + exists "seed". repeat split; vm_compute; reflexivity.
    + discriminate.
    + vm_compute. reflexivity.
  - apply (proj1 (proj2 (empty_run_is_success Scenario.noDateParse
                           Scenario.urlHref Scenario.urlOrigin
                           Scenario.fetchNothing Scenario.parseHTML
                           Scenario.now Scenario.tza Scenario.seedState eq_refl))).
    left. eexists. vm_compute. reflexivity.
  - apply (proj2 (proj2 (empty_run_is_success Scenario.noDateParse
                           Scenario.urlHref Scenario.urlOrigin
                           Scenario.fetchBare Scenario.parseHTML
                           Scenario.now Scenario.tza Scenario.seedState eq_refl))).
    exists "bare". repeat split; vm_compute; reflexivity.
Defined.

(** C8, the counterexample. In [unnamed/part_001] the same run, seed read,
    links found, no job extracted, ends with an error message set. *)
Lemma part001_reports_empty_run_as_error :
  let state := Part001.mkState Scenario.seed [] false "" None "" 1 in
  Part001.scan Scenario.noDateParse Scenario.urlHref Scenario.urlOrigin
    Scenario.fetchQuiet Scenario.parseHTML Scenario.now Scenario.tza
    Scenario.seed = Ret [] /\
  Part001.error
    (Part001.handleFetchJobs Scenario.noDateParse Scenario.urlHref
       Scenario.urlOrigin Scenario.fetchQuiet Scenario.parseHTML Scenario.now
       Scenario.tza state)
  = "Scan complete. No jobs with future deadlines were found.".
Proof. split; vm_compute; reflexivity. Qed.

End RunFacts.

(** ** Day numbers and calendar dates *)

Module DateFacts.
Import JSDate.

Lemma allFrom_spec (f : Z -> bool) (n : nat) :
  forall i, allFrom f i n = true ->
            forall z, i <= z < i + Z.of_nat n -> f z = true.
Proof.
  induction n as [|k IH]; intros i H z Hz.
  - simpl in Hz. lia.
  - simpl in H. apply andb_true_iff in H as [Hi Hrest].
    destruct (Z.eq_dec z i) as [->|Hne]; auto.
    apply (IH (i + 1)); auto. lia.
Qed.

Lemma allBelow_spec (f : Z -> bool) (n : Z) :
  allBelow f n = true -> forall z, 0 <= z < n -> f z = true.
Proof.
  intros H z Hz. apply (allFrom_spec f (Z.to_nat n) 0 H). lia.
Qed.

Lemma DayFromYear_cycle (y e : Z) :
  DayFromYear (y + 400 * e) = DayFromYear y + 146097 * e.
Proof.
  unfold DayFromYear.
  replace (y + 400 * e - 1969) with (y - 1969 + 100 * e * 4) by lia.
  replace (y + 400 * e - 1901) with (y - 1901 + 4 * e * 100) by lia.
  replace (y + 400 * e - 1601) with (y - 1601 + e * 400) by lia.
  rewrite !Z.div_add by lia. lia.
Qed.

Lemma InLeapYear_cycle (y e : Z) : InLeapYear (y + 400 * e) = InLeapYear y.
Proof.
  unfold InLeapYear.
  assert (H4 : (y + 400 * e) mod 4 = y mod 4).
  { replace (y + 400 * e) with (y + 100 * e * 4) by lia. apply Z.mod_add. lia. }
  assert (H100 : (y + 400 * e) mod 100 = y mod 100).
  { replace (y + 400 * e) with (y + 4 * e * 100) by lia. apply Z.mod_add. lia. }
  assert (H400 : (y + 400 * e) mod 400 = y mod 400).
  { replace (y + 400 * e) with (y + e * 400) by lia. apply Z.mod_add. lia. }
  rewrite H4, H100, H400. reflexivity.
Qed.

Lemma cycle_years_ok : allBelow cycleYearOk 400 = true.
Proof. vm_compute. reflexivity. Qed.

(** Every year is a year of the cycle, shifted by whole cycles. *)
Lemma year_in_cycle (y : Z) : exists y0 e, 0 <= y0 < 400 /\ y = y0 + 400 * e.
Proof.
  exists (y mod 400), (y / 400). split.
  - apply Z.mod_pos_bound. lia.
  - pose proof (Z.div_mod y 400 ltac:(lia)). lia.
Qed.

Lemma year_ok (y : Z) :
  DayFromYear (y + 1) - DayFromYear y = (if InLeapYear y then 366 else 365) /\
  -146097 <= drift y <= 146097.
Proof.
  destruct (year_in_cycle y) as (y0 & e & Hy0 & ->).
  pose proof (allBelow_spec _ _ cycle_years_ok y0 Hy0) as Hok.
  unfold cycleYearOk in Hok.
  apply andb_true_iff in Hok as [Hok Hhi].
  apply andb_true_iff in Hok as [Hlen Hlo].
  apply Z.eqb_eq in Hlen. apply Z.leb_le in Hlo, Hhi.
  unfold drift in *.
  replace (y0 + 400 * e + 1) with (y0 + 1 + 400 * e) by lia.
  rewrite !DayFromYear_cycle, InLeapYear_cycle. lia.
Qed.

Lemma DayFromYear_step (y : Z) :
  DayFromYear (y + 1) = DayFromYear y + (if InLeapYear y then 366 else 365).
Proof. pose proof (proj1 (year_ok y)). lia. Qed.

Lemma DayFromYear_increasing (y y' : Z) :
  y < y' -> DayFromYear y < DayFromYear y'.
Proof.
  intros H. replace y' with (y + 1 + (y' - y - 1)) by lia.
  assert (Hk : 0 <= y' - y - 1) by lia. revert Hk.
  generalize (y' - y - 1) as k. clear H.
  apply (natlike_ind (fun k => DayFromYear y < DayFromYear (y + 1 + k))).
  - rewrite Z.add_0_r, DayFromYear_step. destruct (InLeapYear y); lia.
  - intros k Hk IH. replace (y + 1 + Z.succ k) with (y + 1 + k + 1) by lia.
    rewrite (DayFromYear_step (y + 1 + k)).
    destruct (InLeapYear (y + 1 + k)); lia.
Qed.

(** The year of a day number is the year that contains it. *)
Lemma yearFromDay_bracket (n : Z) :
  DayFromYear (yearFromDay n) <= n < DayFromYear (yearFromDay n + 1).
Proof.
  unfold yearFromDay. set (k := (400 * n) / 146097).
  assert (Hk : 146097 * k <= 400 * n < 146097 * (k + 1)).
  { pose proof (Z.div_mod (400 * n) 146097 ltac:(lia)) as E.
    pose proof (Z.mod_pos_bound (400 * n) 146097 ltac:(lia)) as B.
    fold k in E. lia. }
  pose proof (proj2 (year_ok (1970 + k - 1))) as Hlo.
  pose proof (proj2 (year_ok (1970 + k + 1 + 1))) as Hhi.
  unfold drift in Hlo, Hhi.
  destruct (n <? DayFromYear (1970 + k)) eqn:E1.
  - apply Z.ltb_lt in E1. replace (1970 + k - 1 + 1) with (1970 + k) by lia.
    lia.
  - apply Z.ltb_ge in E1.
    destruct (DayFromYear (1970 + k + 1) <=? n) eqn:E2.
    + apply Z.leb_le in E2. lia.
    + apply Z.leb_gt in E2. lia.
Qed.

Lemma year_unique (n y y' : Z) :
  DayFromYear y <= n < DayFromYear (y + 1) ->
  DayFromYear y' <= n < DayFromYear (y' + 1) -> y = y'.
Proof.
  intros H H'. destruct (Z.lt_trichotomy y y') as [L|[E|L]]; auto; exfalso.
  - destruct (Z.eq_dec (y + 1) y') as [<-|Hne]; [lia|].
    pose proof (DayFromYear_increasing (y + 1) y' ltac:(lia)). lia.
  - destruct (Z.eq_dec (y' + 1) y) as [<-|Hne]; [lia|].
    pose proof (DayFromYear_increasing (y' + 1) y ltac:(lia)). lia.
Qed.

Ltac split_ifs :=
  repeat match goal with
         | |- context [if ?a <? ?b then _ else _] =>
             let E := fresh "E" in
             destruct (a <? b) eqn:E;
             [apply Z.ltb_lt in E | apply Z.ltb_ge in E]
         end.

Ltac eval_tables :=
  repeat match goal with
         | |- context [daysBeforeMonth ?l ?k] =>
             let v := eval vm_compute in (daysBeforeMonth l k) in
             change (daysBeforeMonth l k) with v
         | |- context [daysInMonthOf ?l ?k] =>
             let v := eval vm_compute in (daysInMonthOf l k) in
             change (daysInMonthOf l k) with v
         | H : context [daysInMonthOf ?l ?k] |- _ =>
             let v := eval vm_compute in (daysInMonthOf l k) in
             change (daysInMonthOf l k) with v in H
         | H : context [daysBeforeMonth ?l ?k] |- _ =>
             let v := eval vm_compute in (daysBeforeMonth l k) in
             change (daysBeforeMonth l k) with v in H
         end.

Lemma month_bracket (leap : bool) (dn : Z) :
  0 <= dn < (if leap then 366 else 365) ->
  let mn := monthFromDayInYear leap dn in
  0 <= mn <= 11 /\ 1 <= dn - daysBeforeMonth leap mn + 1 <= daysInMonthOf leap (mn + 1).
Proof.
  intros H mn. subst mn. unfold monthFromDayInYear.
  destruct leap; split_ifs; eval_tables; lia.
Qed.

Lemma month_of_day (leap : bool) (mn d : Z) :
  0 <= mn <= 11 ->
  1 <= d <= daysInMonthOf leap (mn + 1) ->
  monthFromDayInYear leap (daysBeforeMonth leap mn + d - 1) = mn.
Proof.
  intros Hm Hd.
  assert (C : mn = 0 \/ mn = 1 \/ mn = 2 \/ mn = 3 \/ mn = 4 \/ mn = 5 \/
              mn = 6 \/ mn = 7 \/ mn = 8 \/ mn = 9 \/ mn = 10 \/ mn = 11) by lia.
  unfold monthFromDayInYear.
  destruct leap; repeat (destruct C as [C|C]); subst mn;
    eval_tables; split_ifs; lia.
Qed.

Lemma year_length (leap : bool) (mn d : Z) :
  0 <= mn <= 11 ->
  1 <= d <= daysInMonthOf leap (mn + 1) ->
  0 <= daysBeforeMonth leap mn + d - 1 < (if leap then 366 else 365).
Proof.
  intros Hm Hd.
  assert (C : mn = 0 \/ mn = 1 \/ mn = 2 \/ mn = 3 \/ mn = 4 \/ mn = 5 \/
              mn = 6 \/ mn = 7 \/ mn = 8 \/ mn = 9 \/ mn = 10 \/ mn = 11) by lia.
  destruct leap; repeat (destruct C as [C|C]); subst mn; eval_tables; lia.
Qed.

Lemma MakeDay_month (y m d : Z) :
  1 <= m <= 12 ->
  MakeDay y (m - 1) d =
  DayFromYear y + daysBeforeMonth (InLeapYear y) (m - 1) + d - 1.
Proof.
  intros Hm. unfold MakeDay.
  rewrite Z.div_small, Z.mod_small by lia.
  rewrite Z.add_0_r. reflexivity.
Qed.

(** The date of a day number is a day of a month, and [MakeDay] maps it back
    to the day number. *)
Lemma civilFromDays_spec (n : Z) :
  match civilFromDays n with
  | (y, m, d) => validDate y m d /\ MakeDay y (m - 1) d = n
  end.
Proof.
  unfold civilFromDays.
  pose proof (yearFromDay_bracket n) as Hb.
  set (y := yearFromDay n) in *. rewrite DayFromYear_step in Hb.
  pose proof (month_bracket (InLeapYear y) (n - DayFromYear y)
                ltac:(destruct (InLeapYear y); lia)) as [Hm Hd].
  set (mn := monthFromDayInYear (InLeapYear y) (n - DayFromYear y)) in *.
  split.
  - unfold validDate, daysInMonth. split; [lia | exact Hd].
  - rewrite MakeDay_month by lia. replace (mn + 1 - 1) with mn by lia. lia.
Qed.

(** The day number of a day of a month is read back as that day. *)
Lemma civilFromDays_MakeDay (y m d : Z) :
  validDate y m d -> civilFromDays (MakeDay y (m - 1) d) = (y, m, d).
Proof.
  intros [Hm Hd]. unfold daysInMonth in Hd.
  replace m with (m - 1 + 1) in Hd by lia.
  rewrite MakeDay_month by lia. unfold civilFromDays.
  set (n := DayFromYear y + daysBeforeMonth (InLeapYear y) (m - 1) + d - 1).
  pose proof (year_length (InLeapYear y) (m - 1) d ltac:(lia) Hd) as Hdn.
  assert (Hy : yearFromDay n = y).
  { apply (year_unique n); [apply yearFromDay_bracket|].
    rewrite DayFromYear_step. unfold n. lia. }
  rewrite Hy.
  replace (n - DayFromYear y)
    with (daysBeforeMonth (InLeapYear y) (m - 1) + d - 1) by (unfold n; lia).
  rewrite month_of_day by (assumption || lia).
  f_equal; [f_equal|]; lia.
Qed.

Lemma utcDate_calendarDate (y m d : Z) :
  validDate y m d -> utcDate (calendarDate y m d) = (y, m, d).
Proof.
  intros H. unfold utcDate, calendarDate, Day.
  rewrite Z.div_mul by (unfold msPerDay; lia).
  apply civilFromDays_MakeDay. exact H.
Qed.

Lemma midnight_is_calendarDate (t : Z) :
  isMidnight t ->
  match utcDate t with (y, m, d) => validDate y m d /\ calendarDate y m d = t end.
Proof.
  unfold isMidnight, utcDate, calendarDate, Day. intros H.
  pose proof (civilFromDays_spec (t / msPerDay)) as S.
  destruct (civilFromDays (t / msPerDay)) as [[y m] d].
  destruct S as [V E]. split; auto. rewrite E.
  pose proof (Z.div_mod t msPerDay ltac:(unfold msPerDay; lia)). lia.
Qed.

End DateFacts.

(** ** The text of a date *)

Module IsoFacts.
Import JSDate.

Lemma length_app (a b : string) :
  String.length (a ++ b) = (String.length a + String.length b)%nat.
Proof. induction a as [|c a IH]; simpl; auto. Qed.

Lemma app_inj_length (a a' b b' : string) :
  String.length a = String.length a' ->
  (a ++ b)%string = (a' ++ b')%string -> a = a' /\ b = b'.
Proof.
  revert a'. induction a as [|c a IH]; intros [|c' a'] Hl H; simpl in *;
    try discriminate; auto.
  injection H as -> H. injection Hl as Hl.
  destruct (IH a' Hl H) as [-> ->]. auto.
Qed.

Lemma length_pad (n : nat) (v : Z) : String.length (pad n v) = n.
Proof.
  revert v. induction n as [|n IH]; intros v; simpl; auto.
  rewrite length_app, IH. simpl. lia.
Qed.

Lemma digitChar_inj (a b : Z) : digitChar a = digitChar b -> a mod 10 = b mod 10.
Proof.
  unfold digitChar. intros H.
  pose proof (Z.mod_pos_bound a 10 ltac:(lia)) as Ha.
  pose proof (Z.mod_pos_bound b 10 ltac:(lia)) as Hb.
  apply (f_equal N_of_ascii) in H.
  rewrite !N_ascii_embedding in H by lia. lia.
Qed.

Lemma pad_inj (n : nat) :
  forall v v', pad n v = pad n v' -> v mod 10 ^ Z.of_nat n = v' mod 10 ^ Z.of_nat n.
Proof.
  induction n as [|n IH]; intros v v' H.
  - simpl. rewrite !Z.mod_1_r. reflexivity.
  - simpl pad in H.
    apply app_inj_length in H as [Hp Hc]; [|rewrite !length_pad; reflexivity].
    injection Hc as Hc. apply digitChar_inj in Hc. apply IH in Hp.
    rewrite Nat2Z.inj_succ, Z.pow_succ_r by lia.
    rewrite !Z.rem_mul_r by lia. lia.
Qed.

Lemma pad_inj_small (n : nat) (v v' : Z) :
  0 <= v < 10 ^ Z.of_nat n -> 0 <= v' < 10 ^ Z.of_nat n ->
  pad n v = pad n v' -> v = v'.
Proof.
  intros Hv Hv' H. apply pad_inj in H.
  rewrite !Z.mod_small in H by assumption. exact H.
Qed.

Lemma length_isoYear (y : Z) :
  String.length (isoYear y) = if (0 <=? y) && (y <=? 9999) then 4%nat else 7%nat.
Proof.
  unfold isoYear. destruct ((0 <=? y) && (y <=? 9999)).
  - apply length_pad.
  - rewrite length_app, length_pad. destruct (y <? 0); reflexivity.
Qed.

Lemma length_isoDateOf (y m d : Z) :
  String.length (isoDateOf (y, m, d)) = (String.length (isoYear y) + 6)%nat.
Proof.
  unfold isoDateOf. rewrite !length_app, !length_pad. simpl. lia.
Qed.

(** Two dates whose texts are equal, one of them of a four-digit year, are
    equal. *)
Lemma isoDateOf_inj (y m d y' m' d' : Z) :
  0 <= y <= 9999 -> 1 <= m <= 12 -> 1 <= d <= 31 ->
  1 <= m' <= 12 -> 1 <= d' <= 31 ->
  isoDateOf (y', m', d') = isoDateOf (y, m, d) -> (y', m', d') = (y, m, d).
Proof.
  intros Hy Hm Hd Hm' Hd' H.
  pose proof (f_equal String.length H) as Hl.
  rewrite !length_isoDateOf, !length_isoYear in Hl.
  assert (Ey : (0 <=? y) && (y <=? 9999) = true)
    by (apply andb_true_iff; split; apply Z.leb_le; lia).
  rewrite Ey in Hl.
  destruct ((0 <=? y') && (y' <=? 9999)) eqn:Ey'; [|lia].
  apply andb_true_iff in Ey' as [Hy1 Hy2]. apply Z.leb_le in Hy1, Hy2.
  unfold isoDateOf, isoYear in H. rewrite Ey in H.
  replace ((0 <=? y') && (y' <=? 9999)) with true in H
    by (symmetry; apply andb_true_iff; split; apply Z.leb_le; lia).
  apply app_inj_length in H as [H1 H]; [|rewrite !length_pad; reflexivity].
  apply app_inj_length in H as [_ H]; [|reflexivity].
  apply app_inj_length in H as [H2 H]; [|rewrite !length_pad; reflexivity].
  apply app_inj_length in H as [_ H3]; [|reflexivity].
  apply pad_inj_small in H1, H2, H3; simpl; try lia.
  congruence.
Qed.

Lemma validDate_day (y m d : Z) : validDate y m d -> 1 <= m <= 12 /\ 1 <= d <= 31.
Proof.
  intros [Hm Hd]. split; auto.
  assert (daysInMonth y m <= 31); [|lia].
  unfold daysInMonth, daysInMonthOf.
  assert (C : m = 1 \/ m = 2 \/ m = 3 \/ m = 4 \/ m = 5 \/ m = 6 \/ m = 7 \/
              m = 8 \/ m = 9 \/ m = 10 \/ m = 11 \/ m = 12) by lia.
  repeat (destruct C as [C|C]); subst m; try lia;
    destruct (InLeapYear y); lia.
Qed.

(** For a date-only value, [toISOString().split('T')[0] === filterDate]
    holds exactly when the value is the date of [filterDate]. *)
Lemma isoDate_eqb (t y m d : Z) :
  isMidnight t -> validDate y m d -> 0 <= y <= 9999 ->
  String.eqb (isoDate t) (isoDateOf (y, m, d)) = (t =? calendarDate y m d).
Proof.
  intros Ht Hv Hy.
  destruct (Z.eqb_spec t (calendarDate y m d)) as [->|Hne].
  - unfold isoDate. rewrite DateFacts.utcDate_calendarDate by assumption.
    apply String.eqb_refl.
  - apply String.eqb_neq. intros H. apply Hne. unfold isoDate in H.
    pose proof (DateFacts.midnight_is_calendarDate t Ht) as S.
    destruct (utcDate t) as [[y' m'] d']. destruct S as [Hv' <-].
    apply validDate_day in Hv as [Hm Hd]. apply validDate_day in Hv' as [Hm' Hd'].
    apply isoDateOf_inj in H; auto. congruence.
Qed.

Lemma isoDateOf_truthy (y m d : Z) : Crawl.truthy (isoDateOf (y, m, d)) = true.
Proof.
  pose proof (length_isoDateOf y m d) as H.
  destruct (isoDateOf (y, m, d)); [simpl in H; lia | reflexivity].
Qed.

End IsoFacts.

(** ** The deadline filter *)

Module FilterFacts.
Import Crawl.

Lemma filter_insertBy (M : Z) (x : Job) (l : list Job) :
  filter (dueOn M) (insertBy descending x l) =
  if dueOn M x then x :: filter (dueOn M) l else filter (dueOn M) l.
Proof.
  induction l as [|y l IH]; simpl.
  - destruct (dueOn M x); reflexivity.
  - unfold descending at 1.
    destruct (lastDate y - lastDate x <=? 0) eqn:E; simpl.
    + destruct (dueOn M x); reflexivity.
    + rewrite IH. apply Z.leb_gt in E.
      destruct (dueOn M x) eqn:Ex; [|reflexivity].
      unfold dueOn in *. apply Z.eqb_eq in Ex.
      replace (lastDate y =? M) with false; [reflexivity|].
      symmetry. apply Z.eqb_neq. lia.
Qed.

(** Sorting is stable: the jobs due on one date keep their order. *)
Lemma filter_sortBy (M : Z) (l : list Job) :
  filter (dueOn M) (sortBy descending l) = filter (dueOn M) l.
Proof.
  induction l as [|x l IH]; simpl; [reflexivity|].
  rewrite filter_insertBy, IH. reflexivity.
Qed.

Lemma headDate_insertBy (x : Job) (l : list Job) :
  headDate (insertBy descending x l) = Some (later (lastDate x) (headDate l)).
Proof.
  destruct l as [|y l]; simpl; [reflexivity|].
  unfold descending. destruct (lastDate y - lastDate x <=? 0) eqn:E; simpl.
  - apply Z.leb_le in E. f_equal. lia.
  - apply Z.leb_gt in E. f_equal. lia.
Qed.

Lemma headDate_sortBy (first : Job) (rest : list Job) :
  headDate (sortBy descending (first :: rest)) = Some (Spec.maxDate first rest).
Proof.
  simpl. rewrite headDate_insertBy. f_equal.
  induction rest as [|r rest IH]; simpl; [reflexivity|].
  rewrite headDate_insertBy. simpl. rewrite <- IH.
  destruct (headDate (sortBy descending rest)); simpl; lia.
Qed.

Lemma maxDate_le (T : Z) (first : Job) (rest : list Job) :
  Forall (fun j => lastDate j <= T) (first :: rest) ->
  Spec.maxDate first rest <= T.
Proof.
  intros H. inversion H as [|? ? Hf Hr]; subst.
  induction Hr as [|r rest Hr0 Hr IH]; simpl; [assumption|].
  assert (Spec.maxDate first rest <= T).
  { apply IH. constructor; assumption. }
  unfold Spec.maxDate in *. lia.
Qed.

Lemma filter_dueOn_before (M T : Z) (jobs : list Job) :
  M <= T ->
  filter (dueOn M) (filter (fun j => lastDate j <=? T) jobs) =
  filter (dueOn M) jobs.
Proof.
  intros H. induction jobs as [|j jobs IH]; simpl; [reflexivity|].
  destruct (lastDate j <=? T) eqn:E; simpl; rewrite IH; [reflexivity|].
  apply Z.leb_gt in E. unfold dueOn.
  replace (lastDate j =? M) with false; [reflexivity|].
  symmetry. apply Z.eqb_neq. lia.
Qed.

Lemma filter_before_Forall (T : Z) (jobs : list Job) :
  Forall (fun j => lastDate j <= T) (filter (fun j => lastDate j <=? T) jobs).
Proof.
  apply Forall_forall. intros j Hj. apply filter_In in Hj as [_ Hj].
  apply Z.leb_le. exact Hj.
Qed.

(** C2, as the code has it. In [src/App.jsx], for a target date T of a year
    from 0 to 9999 given as the text YYYY-MM-DD, which the host reads as UTC
    midnight of T, and for every job list whose lastDates are date-only
    values: if some job has lastDate = T the result is exactly the jobs with
    lastDate = T; otherwise, if some job has lastDate <= T, the result is
    exactly the jobs whose lastDate is the maximum lastDate among those, all
    ties kept, in their order; otherwise the result is empty. *)
Theorem deadlineFilter_policy (dateParse : string -> option Z) (y m d : Z)
    (jobs : list Job) :
  JSDate.validDate y m d -> 0 <= y <= 9999 ->
  dateParse (JSDate.isoDateOf (y, m, d)) = Some (JSDate.calendarDate y m d) ->
  Forall (fun j => JSDate.isMidnight (lastDate j)) jobs ->
  AppJsx.deadlineFilter dateParse (JSDate.isoDateOf (y, m, d)) jobs
  = Spec.deadlineFilter (JSDate.calendarDate y m d) jobs.
Proof.
  intros Hv Hy Hp Hmid. unfold AppJsx.deadlineFilter, Spec.deadlineFilter.
  rewrite IsoFacts.isoDateOf_truthy, Hp.
  set (T := JSDate.calendarDate y m d).
  assert (Hexact :
    filter (fun job => String.eqb (JSDate.isoDate (lastDate job))
                         (JSDate.isoDateOf (y, m, d))) jobs
    = filter (fun j => lastDate j =? T) jobs).
  { apply filter_ext_in. intros j Hj. apply IsoFacts.isoDate_eqb; auto.
    rewrite Forall_forall in Hmid. auto. }
  rewrite Hexact.
  destruct (filter (fun j => lastDate j =? T) jobs) as [|e exact];
    [|reflexivity].
  simpl Nat.ltb. cbv iota. unfold onOrBefore.
  pose proof (filter_before_Forall T jobs) as Hbefore.
  destruct (filter (fun j => lastDate j <=? T) jobs) as [|first rest] eqn:Ec;
    [reflexivity|].
  pose proof (headDate_sortBy first rest) as Hhead.
  destruct (sortBy descending (first :: rest)) as [|nearest sorted] eqn:Es;
    [discriminate|].
  injection Hhead as Hhead. rewrite Hhead.
  change (fun job : Job => lastDate job =? Spec.maxDate first rest)
    with (dueOn (Spec.maxDate first rest)).
  rewrite <- Es, filter_sortBy, <- Ec.
  apply filter_dueOn_before. apply maxDate_le. exact Hbefore.
Qed.

(** The deadlines 2025-01-10, 2025-01-15 and 2025-01-20: the target
    2025-01-15 yields the job of 2025-01-15, the target 2025-01-17 the job of
    2025-01-15, the target 2025-01-05 nothing. *)
Lemma deadlineFilter_policy_witness :
  let jobs := [Scenario.job10; Scenario.job15; Scenario.job20] in
  AppJsx.deadlineFilter Scenario.isoDateParse "2025-01-15" jobs = [Scenario.job15] /\
  AppJsx.deadlineFilter Scenario.isoDateParse "2025-01-17" jobs = [Scenario.job15] /\
  AppJsx.deadlineFilter Scenario.isoDateParse "2025-01-05" jobs = [].
Proof.
  assert (Hmid : Forall (fun j => JSDate.isMidnight (lastDate j))
                   [Scenario.job10; Scenario.job15; Scenario.job20])
    by (repeat constructor).
  assert (Hv : forall d, 1 <= d <= 31 -> JSDate.validDate 2025 1 d)
    by (intros d Hd; split; [lia | exact Hd]).
  split; [|split].
  - exact (deadlineFilter_policy Scenario.isoDateParse 2025 1 15 _
             (Hv 15 ltac:(lia)) ltac:(lia) eq_refl Hmid).
  - exact (deadlineFilter_policy Scenario.isoDateParse 2025 1 17 _
             (Hv 17 ltac:(lia)) ltac:(lia) eq_refl Hmid).
  - exact (deadlineFilter_policy Scenario.isoDateParse 2025 1 5 _
             (Hv 5 ltac:(lia)) ltac:(lia) eq_refl Hmid).
Defined.

(** C2, the counterexample. In [unnamed/part_000] the filter keeps every job
    on or before the target: for the target 2025-01-17 it yields the jobs of
    2025-01-10 and of 2025-01-15. *)
Lemma part000_filter_keeps_all_before :
  Part000.filteredJobs Scenario.isoDateParse 0
    (Part000.mkState "" [Scenario.job10; Scenario.job15; Scenario.job20]
       false "" "" 1 "2025-01-17" false)
  = [Scenario.job10; Scenario.job15].
Proof. vm_compute. reflexivity. Qed.

(** [filteredJobs] of [unnamed/part_000] with a target the host reads as
    [T]: the jobs on or before [T]. *)
Lemma part000_filter_on_or_before (dateParse : string -> option Z)
    (sixMonthsFromNow T : Z) (state : Part000.State) :
  truthy (Part000.filterDate state) = true ->
  dateParse (Part000.filterDate state) = Some T ->
  Part000.filteredJobs dateParse sixMonthsFromNow state
  = filter (fun j => lastDate j <=? T) (Part000.jobs state).
Proof.
  intros Ht Hp. unfold Part000.filteredJobs. rewrite Ht, Hp. reflexivity.
Qed.

End FilterFacts.

(** ** Matching digits and names *)

Module MatchFacts.
Import Regex Patterns.

Lemma digit_class (c : ascii) :
  Str.is_digit c = true ->
  Str.is_space c = false /\ Str.is_alpha c = false /\ Str.is_sep c = false /\
  Ascii.eqb " " c = false /\ Ascii.eqb "," c = false /\
  (forall s, Str.parseInt (String c s) = Some (Str.digitsValue 0 (String c s))).
Proof.
  destruct c as [[] [] [] [] [] [] [] []]; intros H;
    try discriminate H; repeat split; intros s; unfold Str.parseInt; simpl;
    reflexivity.
Qed.

Lemma is_digit_digitChar (v : Z) : Str.is_digit (JSDate.digitChar v) = true.
Proof.
  unfold JSDate.digitChar.
  pose proof (Z.mod_pos_bound v 10 ltac:(lia)) as H.
  assert (C : v mod 10 = 0 \/ v mod 10 = 1 \/ v mod 10 = 2 \/ v mod 10 = 3 \/
              v mod 10 = 4 \/ v mod 10 = 5 \/ v mod 10 = 6 \/ v mod 10 = 7 \/
              v mod 10 = 8 \/ v mod 10 = 9) by lia.
  repeat (destruct C as [C|C]); rewrite C; reflexivity.
Qed.

Lemma code_digitChar (v : Z) : Str.code (JSDate.digitChar v) - 48 = v mod 10.
Proof.
  unfold JSDate.digitChar, Str.code.
  pose proof (Z.mod_pos_bound v 10 ltac:(lia)) as H.
  rewrite N_ascii_embedding by lia. lia.
Qed.

Lemma take_length_app (a b : string) : Str.take (String.length a) (a ++ b) = a.
Proof. induction a as [|c a IH]; simpl; [destruct b|]; congruence. Qed.

Lemma take_consumed (a b : string) :
  Str.take (String.length (a ++ b) - String.length b) (a ++ b) = a.
Proof.
  rewrite IsoFacts.length_app.
  replace (String.length a + String.length b - String.length b)%nat
    with (String.length a) by lia.
  apply take_length_app.
Qed.

Lemma take_all (a : string) : Str.take (String.length a - 0) a = a.
Proof.
  rewrite Nat.sub_0_r. induction a as [|c a IH]; simpl; congruence.
Qed.

(** A greedy quantifier over a run of [p] that nothing can extend, followed
    by a text on which the continuation succeeds, takes the whole run. *)
Lemma rep_greedy_run (p : ascii -> bool) (ds : string) :
  forall lo hi rest c k r,
    Str.all p ds = true -> (lo <= String.length ds)%nat ->
    fits hi (String.length ds) -> stops p hi (String.length ds) rest ->
    k rest c = Some r ->
    rep true p lo hi (ds ++ rest) c k = Some r.
Proof.
  induction ds as [|x ds IH]; intros lo hi rest c k r Hall Hlo Hfit Hstop Hk.
  - simpl in Hlo. assert (lo = O) by lia. subst lo. simpl append.
    destruct rest as [|y rest]; simpl; [exact Hk|].
    destruct Hstop as [->|Hy].
    + simpl. rewrite andb_false_r. exact Hk.
    + rewrite Hy. exact Hk.
  - simpl in Hall. apply andb_true_iff in Hall as [Hx Hall].
    simpl. rewrite Hx.
    assert (Hmore : more hi = true).
    { destruct hi as [[|h]|]; simpl in *; auto. lia. }
    rewrite Hmore. simpl.
    rewrite (IH (Nat.pred lo) (option_map Nat.pred hi) rest c k r); auto.
    + simpl in Hlo. lia.
    + destruct hi as [h|]; simpl in *; auto. lia.
    + destruct Hstop as [->|Hy]; [left; reflexivity | right; exact Hy].
Qed.

Lemma run_group_run (i : nat) (p : ascii -> bool) (lo : nat) (hi : option nat)
    (ds rest : string) (c : captures) (k : cont) (r : captures) :
  Str.all p ds = true -> (lo <= String.length ds)%nat ->
  fits hi (String.length ds) -> stops p hi (String.length ds) rest ->
  k rest (setCapture i ds c) = Some r ->
  run (Grp i (Rep true lo hi p)) (ds ++ rest) c k = Some r.
Proof.
  intros Hall Hlo Hfit Hstop Hk. simpl.
  apply rep_greedy_run; auto. rewrite take_consumed. exact Hk.
Qed.

Lemma run_Seq (a b : re) (s : string) (c : captures) (k : cont) :
  run (Seq a b) s c k = run a s c (fun s' c' => run b s' c' k).
Proof. reflexivity. Qed.

Lemma run_Chr (p : ascii -> bool) (x : ascii) (s : string) (c : captures)
    (k : cont) :
  run (Chr p) (String x s) c k = if p x then k s c else None.
Proof. reflexivity. Qed.

Lemma run_Opt (a : re) (s : string) (c : captures) (k : cont) :
  run (Opt a) s c k = firstOf (run a s c k) (k s c).
Proof. reflexivity. Qed.

Lemma app_empty (s : string) : (s ++ "")%string = s.
Proof. induction s; simpl; congruence. Qed.

Lemma search_attempt (n : nat) (r : re) (s : string) (c : captures) :
  attempt n r s = Some c -> search n r s = Some c.
Proof. intros H. destruct s; simpl; rewrite H; reflexivity. Qed.

(** A text of the day-month-year form: one or two digits, a separator, one
    or two digits, a separator, two to four digits, and then the end. *)
Lemma dmy_match (D M Y : string) (s1 s2 : ascii) :
  Str.all Str.is_digit D = true -> (1 <= String.length D <= 2)%nat ->
  Str.all Str.is_digit M = true -> (1 <= String.length M <= 2)%nat ->
  Str.all Str.is_digit Y = true -> (2 <= String.length Y <= 4)%nat ->
  Str.is_sep s1 = true -> Str.is_sep s2 = true ->
  search 3 dmyPattern (D ++ String s1 (M ++ String s2 Y))%string =
  Some [Some (D ++ String s1 (M ++ String s2 Y))%string; Some D; Some M; Some Y].
Proof.
  intros HD LD HM LM HY LY H1 H2.
  assert (Hsep : forall x, Str.is_sep x = true -> Str.is_digit x = false).
  { intros x. destruct x as [[] [] [] [] [] [] [] []]; intros H;
      try discriminate H; reflexivity. }
  apply search_attempt. unfold attempt, dmyPattern, digits.
  rewrite run_Seq. apply run_group_run; auto; try (simpl; lia).
  { right. apply Hsep. exact H1. }
  cbv beta. rewrite run_Seq, run_Chr, H1, run_Seq.
  apply run_group_run; auto; try (simpl; lia).
  { right. apply Hsep. exact H2. }
  cbv beta. rewrite run_Seq, run_Chr, H2.
  replace Y with (Y ++ "")%string at 1 by apply app_empty.
  apply run_group_run; auto; try (simpl; lia).
  { right. exact I. }
  cbv beta. rewrite take_all. reflexivity.
Qed.

End MatchFacts.

(** ** Reading the explicit formats *)

Module RoundTrip.
Import Regex Patterns MatchFacts JSDate Render.

Lemma firstOf_None_r (a : option captures) : firstOf a None = a.
Proof. destruct a; reflexivity. Qed.

Lemma year_tail (y1 y2 y3 y4 : ascii) (c : captures) (k : cont) :
  Str.is_digit y1 = true -> Str.is_digit y2 = true ->
  Str.is_digit y3 = true -> Str.is_digit y4 = true ->
  run yearTail (String y1 (String y2 (String y3 (String y4 "")))) c k =
  k "" (setCapture 4 (String y1 (String y2 (String y3 (String y4 "")))) c).
Proof.
  intros H1 H2 H3 H4.
  destruct (digit_class y1 H1) as (_ & _ & _ & _ & C1 & _).
  destruct (digit_class y2 H2) as (_ & _ & _ & _ & C2 & _).
  destruct (digit_class y3 H3) as (_ & _ & _ & _ & C3 & _).
  destruct (digit_class y4 H4) as (_ & _ & _ & _ & C4 & _).
  unfold yearTail, digits, chr, upTo.
  cbn [run rep more option_map Nat.pred firstOf andb String.length Nat.sub
       Str.take].
  rewrite ?H1, ?H2, ?H3, ?H4, ?C1, ?C2, ?C3, ?C4.
  cbn [run rep more option_map Nat.pred firstOf andb String.length Nat.sub
       Str.take].
  rewrite !firstOf_None_r. reflexivity.
Qed.

(** A text of the form D Month YYYY: one or two digits, a space, three
    letters or more, a space, four digits, and then the end. *)
Lemma text_match (D name : string) (y1 y2 y3 y4 : ascii) :
  let Y := String y1 (String y2 (String y3 (String y4 ""))) in
  Str.all Str.is_digit D = true -> (1 <= String.length D <= 2)%nat ->
  Str.all Str.is_alpha name = true -> (3 <= String.length name)%nat ->
  Str.all Str.is_digit Y = true ->
  search 4 textPattern (D ++ String " " (name ++ String " " Y))%string =
  Some [Some (D ++ String " " (name ++ String " " Y))%string;
        Some D; Some name; None; Some Y].
Proof.
  intros Y HD LD HN LN HY. subst Y. simpl in HY.
  apply andb_true_iff in HY as [H1 HY]. apply andb_true_iff in HY as [H2 HY].
  apply andb_true_iff in HY as [H3 HY]. apply andb_true_iff in HY as [H4 _].
  apply search_attempt. unfold attempt, textPattern, digits, chr.
  rewrite run_Seq, run_Opt.
  match goal with |- firstOf ?a _ = Some ?r =>
    assert (E : a = Some r); [|rewrite E; reflexivity] end.
  rewrite run_Seq. apply run_group_run; auto; try (simpl; lia).
  { right. reflexivity. }
  cbv beta. rewrite run_Chr. change (Ascii.eqb " " " ") with true. cbv iota.
  rewrite run_Seq. apply run_group_run; auto; try (simpl; lia).
  { right. reflexivity. }
  cbv beta. rewrite run_Seq, run_Chr. change (Ascii.eqb " " " ") with true.
  cbv iota. rewrite year_tail by assumption.
  rewrite take_all. reflexivity.
Qed.

(** *** Numbers from digits *)

Lemma all_app (p : ascii -> bool) (a b : string) :
  Str.all p (a ++ b) = Str.all p a && Str.all p b.
Proof.
  induction a as [|c a IH]; simpl; [reflexivity|].
  rewrite IH, andb_assoc. reflexivity.
Qed.

Lemma all_impl (p q : ascii -> bool) (s : string) :
  (forall c, p c = true -> q c = true) ->
  Str.all p s = true -> Str.all q s = true.
Proof.
  intros Hpq. induction s as [|c s IH]; simpl; [reflexivity|].
  intros H. apply andb_true_iff in H as [Hc Hs].
  rewrite (Hpq c Hc), IH; auto.
Qed.

Lemma all_digit_pad (n : nat) (v : Z) : Str.all Str.is_digit (pad n v) = true.
Proof.
  revert v. induction n as [|n IH]; intros v; simpl; [reflexivity|].
  rewrite all_app, IH. simpl. rewrite is_digit_digitChar. reflexivity.
Qed.

Lemma digitsValue_app (a b : string) (acc : Z) :
  Str.all Str.is_digit a = true ->
  Str.digitsValue acc (a ++ b) = Str.digitsValue (Str.digitsValue acc a) b.
Proof.
  revert acc. induction a as [|c a IH]; intros acc H; simpl; [reflexivity|].
  simpl in H. apply andb_true_iff in H as [Hc Ha]. rewrite Hc. auto.
Qed.

Lemma digitsValue_pad (n : nat) :
  forall v acc,
    Str.digitsValue acc (pad n v) = acc * 10 ^ Z.of_nat n + v mod 10 ^ Z.of_nat n.
Proof.
  induction n as [|n IH]; intros v acc.
  - simpl. rewrite Z.mod_1_r. lia.
  - simpl pad. rewrite digitsValue_app by apply all_digit_pad.
    rewrite IH. cbn [Str.digitsValue].
    rewrite is_digit_digitChar, code_digitChar.
    rewrite Nat2Z.inj_succ, Z.pow_succ_r by lia.
    rewrite (Z.rem_mul_r v 10 (10 ^ Z.of_nat n)) by lia. ring.
Qed.

Lemma parseInt_digits (s : string) :
  Str.all Str.is_digit s = true -> (1 <= String.length s)%nat ->
  Str.parseIntValue (Some s) = Some (Str.digitsValue 0 s).
Proof.
  intros H L. destruct s as [|c s]; [simpl in L; lia|].
  simpl in H. apply andb_true_iff in H as [Hc _].
  apply (digit_class c Hc).
Qed.

Lemma parseInt_pad (n : nat) (v : Z) :
  (1 <= n)%nat -> 0 <= v < 10 ^ Z.of_nat n ->
  Str.parseIntValue (Some (pad n v)) = Some v.
Proof.
  intros Hn Hv. rewrite parseInt_digits.
  - rewrite digitsValue_pad, Z.mod_small by assumption. reflexivity.
  - apply all_digit_pad.
  - rewrite IsoFacts.length_pad. exact Hn.
Qed.

Lemma numeral_spec (leadingZero : bool) (v : Z) :
  0 <= v <= 99 ->
  Str.all Str.is_digit (numeral leadingZero v) = true /\
  (1 <= String.length (numeral leadingZero v) <= 2)%nat /\
  Str.parseIntValue (Some (numeral leadingZero v)) = Some v.
Proof.
  intros Hv. unfold numeral.
  destruct (leadingZero || (10 <=? v)) eqn:E.
  - rewrite all_digit_pad, IsoFacts.length_pad, parseInt_pad;
      repeat split; simpl; lia.
  - apply orb_false_iff in E as [_ E]. apply Z.leb_gt in E.
    rewrite all_digit_pad, IsoFacts.length_pad, parseInt_pad;
      repeat split; simpl; lia.
Qed.

(** *** The time value of a date of the years 100 to 9999 *)

Lemma daysBeforeMonth_bound (leap : bool) (mn : Z) :
  0 <= daysBeforeMonth leap mn <= 335.
Proof.
  unfold daysBeforeMonth.
  destruct mn as [|p|p]; [lia| |destruct leap; lia].
  do 4 (destruct p as [p|p|]; try (destruct leap; lia)).
Qed.

Lemma UTC_calendarDate (y m d : Z) :
  100 <= y <= 9999 -> 1 <= m <= 12 -> 1 <= d <= 31 ->
  UTC (Some y) (Some (m - 1)) (Some d) = Some (calendarDate y m d).
Proof.
  intros Hy Hm Hd. unfold UTC.
  replace ((0 <=? y) && (y <=? 99)) with false
    by (symmetry; apply andb_false_iff; right; apply Z.leb_gt; lia).
  unfold TimeClip, calendarDate.
  rewrite DateFacts.MakeDay_month by lia.
  pose proof (proj2 (DateFacts.year_ok y)) as Hdrift. unfold drift in Hdrift.
  pose proof (daysBeforeMonth_bound (InLeapYear y) (m - 1)) as Hb.
  replace (Z.abs _ <=? 8640000000000000) with true; [reflexivity|].
  symmetry. apply Z.leb_le. unfold msPerDay. lia.
Qed.

End RoundTrip.

(** ** The order of the patterns, and the formats they read *)

Module FormatFacts.
Import Regex Patterns MatchFacts RoundTrip JSDate Render.

Lemma rep_suffix (g : bool) (p : ascii -> bool) (s : string) :
  forall lo hi c k res,
    rep g p lo hi s c k = Some res ->
    exists pre s', s = (pre ++ s')%string /\ k s' c = Some res.
Proof.
  induction s as [|x s IH]; intros lo hi c k res H; simpl in H.
  - destruct lo; [|discriminate]. exists "", "". auto.
  - assert (Hstop : match lo with O => k (String x s) c | S _ => None end
                    = Some res ->
                    exists pre s', String x s = (pre ++ s')%string /\
                                   k s' c = Some res).
    { destruct lo; [|discriminate]. intros Hk. exists "", (String x s). auto. }
    destruct (p x && more hi); [|auto].
    assert (Hgo : rep g p (Nat.pred lo) (option_map Nat.pred hi) s c k
                  = Some res ->
                  exists pre s', String x s = (pre ++ s')%string /\
                                 k s' c = Some res).
    { intros Hr. apply IH in Hr as (pre & s' & -> & Hk).
      exists (String x pre), s'. auto. }
    destruct g; apply RegexFacts.firstOf_Some in H as [H|H]; auto.
Qed.

Lemma all_suffix (p : ascii -> bool) (pre s : string) :
  Str.all p (pre ++ s) = true -> Str.all p s = true.
Proof. rewrite all_app. intros H. apply andb_true_iff in H. tauto. Qed.

Lemma search_unfold (n : nat) (r : re) (s : string) :
  search n r s = firstOf (attempt n r s)
                   match s with
                   | String _ s' => search n r s'
                   | EmptyString => None
                   end.
Proof. destruct s; reflexivity. Qed.

(** The day-month-year pattern matches no text without a separator. *)
Lemma dmy_needs_separator (s : string) :
  Str.all Str.noSep s = true -> search 3 dmyPattern s = None.
Proof.
  assert (Hattempt : forall s, Str.all Str.noSep s = true ->
                               attempt 3 dmyPattern s = None).
  { clear s. intros s Hs. unfold attempt, dmyPattern, digits.
    match goal with |- ?a = None => destruct a as [res|] eqn:E end;
      [exfalso | reflexivity].
    rewrite run_Seq in E. cbn [run] in E.
    apply rep_suffix in E as (pre & s' & -> & E).
    apply all_suffix in Hs.
    destruct s' as [|x s']; [discriminate|].
    simpl in Hs. apply andb_true_iff in Hs as [Hx _].
    unfold Str.noSep in Hx. destruct (Str.is_sep x); discriminate. }
  induction s as [|x s IH]; intros Hs; rewrite search_unfold, Hattempt
    by assumption.
  - reflexivity.
  - simpl in Hs. apply andb_true_iff in Hs as [_ Hs]. simpl. auto.
Qed.

Lemma replaceCommaSpace_id (s : string) :
  Str.all Str.noComma s = true -> Str.replaceCommaSpace s = s.
Proof.
  induction s as [|c s IH]; [reflexivity|].
  intros H. simpl in H. apply andb_true_iff in H as [Hc Hs].
  specialize (IH Hs).
  destruct c as [[] [] [] [] [] [] [] []]; try discriminate Hc;
    simpl; rewrite IH; reflexivity.
Qed.

Lemma digit_plain (c : ascii) :
  Str.is_digit c = true -> Str.noSep c = true /\ Str.noComma c = true.
Proof.
  destruct c as [[] [] [] [] [] [] [] []]; intros H; try discriminate H;
    split; reflexivity.
Qed.

Lemma alpha_plain (c : ascii) :
  Str.is_alpha c = true -> Str.noSep c = true /\ Str.noComma c = true.
Proof.
  destruct c as [[] [] [] [] [] [] [] []]; intros H; try discriminate H;
    split; reflexivity.
Qed.

Lemma dayMonthYear_plain (p : ascii -> bool) (D name Y : string) :
  (forall c, Str.is_digit c = true -> p c = true) ->
  (forall c, Str.is_alpha c = true -> p c = true) ->
  p " "%char = true ->
  Str.all Str.is_digit D = true -> Str.all Str.is_alpha name = true ->
  Str.all Str.is_digit Y = true ->
  Str.all p (D ++ String " " (name ++ String " " Y)) = true.
Proof.
  intros Hd Ha Hs HD HN HY.
  rewrite all_app. simpl. rewrite all_app. simpl. rewrite Hs.
  rewrite (all_impl _ p D Hd HD), (all_impl _ p name Ha HN),
    (all_impl _ p Y Hd HY). reflexivity.
Qed.

(** *** What each branch reads *)

Lemma validDate_range (y m d : Z) :
  validDate y m d -> 0 <= m <= 99 /\ 0 <= d <= 99 /\ 1 <= m <= 12 /\ 1 <= d <= 31.
Proof. intros H. apply IsoFacts.validDate_day in H. lia. Qed.

Lemma dmyBranch_year (leadingZero : bool) (s1 s2 : ascii) (Y : string)
    (y m d : Z) :
  validDate y m d -> 100 <= y <= 9999 ->
  Str.is_sep s1 = true -> Str.is_sep s2 = true ->
  Str.all Str.is_digit Y = true -> (2 <= String.length Y <= 4)%nat ->
  expandYear (Str.parseIntValue (Some Y)) = Some y ->
  dmyBranch (numeral leadingZero d ++ String s1 (numeral leadingZero m
               ++ String s2 Y))%string
  = Some (calendarDate y m d).
Proof.
  intros Hv Hy H1 H2 HY LY Hyear.
  apply validDate_range in Hv as (Hm & Hd & Hm' & Hd').
  destruct (numeral_spec leadingZero d Hd) as (AD & LD & PD).
  destruct (numeral_spec leadingZero m Hm) as (AM & LM & PM).
  unfold dmyBranch. rewrite dmy_match by assumption.
  cbn [getCapture nth]. rewrite PD, PM, Hyear.
  apply UTC_calendarDate; assumption.
Qed.

Lemma dmyBranch_dmyText (leadingZero : bool) (s1 s2 : ascii) (y m d : Z) :
  validDate y m d -> 100 <= y <= 9999 ->
  Str.is_sep s1 = true -> Str.is_sep s2 = true ->
  dmyBranch (dmyText leadingZero s1 s2 y m d) = Some (calendarDate y m d).
Proof.
  intros Hv Hy H1 H2. unfold dmyText.
  apply dmyBranch_year; auto using all_digit_pad.
  - pose proof (IsoFacts.length_pad 4 y). lia.
  - rewrite parseInt_pad by (simpl; lia). unfold expandYear.
    replace (y <? 100) with false by (symmetry; apply Z.ltb_ge; lia).
    reflexivity.
Qed.

Lemma dmyBranch_dmyShortText (leadingZero : bool) (s1 s2 : ascii) (y m d : Z) :
  validDate y m d -> 2000 <= y <= 2099 ->
  Str.is_sep s1 = true -> Str.is_sep s2 = true ->
  dmyBranch (dmyShortText leadingZero s1 s2 y m d) = Some (calendarDate y m d).
Proof.
  intros Hv Hy H1 H2. unfold dmyShortText.
  apply dmyBranch_year; auto using all_digit_pad; try lia.
  rewrite parseInt_pad by (simpl; lia). unfold expandYear.
    replace (y - 2000 <? 100) with true by (symmetry; apply Z.ltb_lt; lia).
    f_equal. lia.
Qed.

Lemma textual_dayMonthYearText (leadingZero : bool) (name : string) (y m d : Z) :
  validDate y m d -> 100 <= y <= 9999 -> isMonthName name m ->
  dmyBranch (dayMonthYearText leadingZero name y d) = None /\
  textValue (dayMonthYearText leadingZero name y d) = Some (calendarDate y m d).
Proof.
  intros Hv Hy (HN & LN & Hmonth).
  apply validDate_range in Hv as (Hm & Hd & Hm' & Hd').
  destruct (numeral_spec leadingZero d Hd) as (AD & LD & PD).
  pose proof (all_digit_pad 4 y) as AY.
  unfold dayMonthYearText. split.
  - unfold dmyBranch. rewrite dmy_needs_separator; [reflexivity|].
    apply dayMonthYear_plain; auto; try reflexivity;
      intros c Hc; [apply digit_plain | apply alpha_plain]; exact Hc.
  - unfold textValue, textMatch. rewrite replaceCommaSpace_id.
    2:{ apply dayMonthYear_plain; auto; try reflexivity;
          intros c Hc; [apply digit_plain | apply alpha_plain]; exact Hc. }
    cbn [pad append] in AY |- *.
    rewrite text_match by assumption.
    cbn [getCapture nth]. unfold textDate. rewrite Hmonth.
    cbn [getCapture nth]. 
    assert (HD : Str.orElse (Some (numeral leadingZero d)) None
                 = Some (numeral leadingZero d)).
    { destruct (numeral leadingZero d); [simpl in LD; lia | reflexivity]. }
    rewrite HD, PD.
    change (String (digitChar (y / 10 / 10 / 10))
              (String (digitChar (y / 10 / 10))
                 (String (digitChar (y / 10)) (String (digitChar y) ""))))
      with (pad 4 y).
    rewrite parseInt_pad by (simpl; lia).
    apply UTC_calendarDate; assumption.
Qed.

(** *** The order of the attempts *)

Lemma AppJsx_textBranch_value (s : string) :
  AppJsx.textBranch s = Ret (textValue s).
Proof.
  unfold AppJsx.textBranch, textValue.
  destruct (textMatch s) as [parts|] eqn:E; [|reflexivity].
  destruct (ParserFacts.textMatch_name s parts E) as [name ->]. reflexivity.
Qed.

Lemma Part000_textBranch_value (s : string) :
  Part000.textBranch s = Ret (textValue s).
Proof.
  unfold Part000.textBranch, textValue.
  destruct (textMatch s) as [parts|]; [|reflexivity].
  destruct (getCapture 2 parts); reflexivity.
Qed.

Lemma parseDate_order (dateParse : string -> option Z) (s : string) :
  s <> "" ->
  AppJsx.parseDate dateParse (Some s)
  = Ret (firstDate (dmyBranch s) (firstDate (textValue s) (dateParse s))) /\
  Part000.parseDate dateParse (Some s)
  = Ret (firstDate (dmyBranch s)
           (firstDate (textValue s)
              (firstDate (ymdBranch s) (dateParse s)))) /\
  Part001.parseDate dateParse (Some s)
  = Ret (firstDate (dmyBranch s) (dateParse s)).
Proof.
  intros Hs. destruct s as [|c s]; [congruence|].
  unfold AppJsx.parseDate, Part000.parseDate, Part001.parseDate.
  rewrite AppJsx_textBranch_value, Part000_textBranch_value.
  unfold orNext, firstDate; simpl bind.
  destruct (dmyBranch (String c s)); simpl; auto.
  destruct (textValue (String c s)); simpl; auto.
  destruct (ymdBranch (String c s)); simpl; auto.
Qed.

End FormatFacts.

Module FormatTheorems.
Import Regex Patterns JSDate Render FormatFacts.

Lemma reads_dmy (dateParse : string -> option Z) (s : string) (t : Z) :
  dmyBranch s = Some t ->
  AppJsx.parseDate dateParse (Some s) = Ret (Some t) /\
  Part000.parseDate dateParse (Some s) = Ret (Some t) /\
  Part001.parseDate dateParse (Some s) = Ret (Some t).
Proof.
  intros H.
  assert (Hs : s <> "") by (intros ->; discriminate H).
  destruct (parseDate_order dateParse s Hs) as (-> & -> & ->).
  rewrite H. auto.
Qed.

Lemma reads_text (dateParse : string -> option Z) (s : string) (t : Z) :
  dmyBranch s = None -> textValue s = Some t ->
  AppJsx.parseDate dateParse (Some s) = Ret (Some t) /\
  Part000.parseDate dateParse (Some s) = Ret (Some t).
Proof.
  intros Hd Ht.
  assert (Hs : s <> "") by (intros ->; discriminate Ht).
  destruct (parseDate_order dateParse s Hs) as (-> & -> & _).
  rewrite Hd, Ht. auto.
Qed.

(** X22. In [src/App.jsx] and [unnamed/part_000], [parseDate] tries the
    numeric day-month-year pattern first (separators / - . and a year below
    100 read as 2000 + Y), the textual month pattern second, the numeric
    year-month-day pattern third ([unnamed/part_000] only; [src/App.jsx] has
    none) and the host's date constructor last, and returns the first date
    obtained. For every valid day, month and year it returns the calendar
    date (year, month, day) on the day-month-year rendering, with or without
    leading zeros, with a four-digit year from 100 to 9999 or the last two
    digits of a year from 2000 to 2099, and on the textual rendering with
    the day first, D Month YYYY, for a year from 100 to 9999 and a month
    name of letters whose first three name the month. *)
Theorem parseDate_reads_formats (dateParse : string -> option Z) :
  (forall s, s <> "" ->
     AppJsx.parseDate dateParse (Some s)
     = Ret (firstDate (dmyBranch s) (firstDate (textValue s) (dateParse s))) /\
     Part000.parseDate dateParse (Some s)
     = Ret (firstDate (dmyBranch s)
              (firstDate (textValue s)
                 (firstDate (ymdBranch s) (dateParse s))))) /\
  (forall leadingZero s1 s2 y m d,
     validDate y m d -> Str.is_sep s1 = true -> Str.is_sep s2 = true ->
     utcDate (calendarDate y m d) = (y, m, d) /\
     (100 <= y <= 9999 ->
      AppJsx.parseDate dateParse (Some (dmyText leadingZero s1 s2 y m d))
      = Ret (Some (calendarDate y m d)) /\
      Part000.parseDate dateParse (Some (dmyText leadingZero s1 s2 y m d))
      = Ret (Some (calendarDate y m d))) /\
     (2000 <= y <= 2099 ->
      AppJsx.parseDate dateParse (Some (dmyShortText leadingZero s1 s2 y m d))
      = Ret (Some (calendarDate y m d)) /\
      Part000.parseDate dateParse (Some (dmyShortText leadingZero s1 s2 y m d))
      = Ret (Some (calendarDate y m d)))) /\
  (forall leadingZero name y m d,
     validDate y m d -> 100 <= y <= 9999 -> isMonthName name m ->
     AppJsx.parseDate dateParse (Some (dayMonthYearText leadingZero name y d))
     = Ret (Some (calendarDate y m d)) /\
     Part000.parseDate dateParse (Some (dayMonthYearText leadingZero name y d))
     = Ret (Some (calendarDate y m d))).
Proof.
  split; [|split].
  - intros s Hs. destruct (parseDate_order dateParse s Hs) as (H1 & H2 & _).
    auto.
  - intros leadingZero s1 s2 y m d Hv H1 H2. split; [|split].
    + apply DateFacts.utcDate_calendarDate. exact Hv.
    + intros Hy.
      destruct (reads_dmy dateParse (dmyText leadingZero s1 s2 y m d)
                  (calendarDate y m d)) as (Ha & Hb & _); auto.
      apply dmyBranch_dmyText; assumption.
    + intros Hy.
      destruct (reads_dmy dateParse (dmyShortText leadingZero s1 s2 y m d)
                  (calendarDate y m d)) as (Ha & Hb & _); auto.
      apply dmyBranch_dmyShortText; assumption.
  - intros leadingZero name y m d Hv Hy Hn.
    destruct (textual_dayMonthYearText leadingZero name y m d Hv Hy Hn)
      as [Hd Ht].
    apply reads_text; assumption.
Qed.

Lemma parseDate_reads_formats_witness :
  AppJsx.parseDate Scenario.noDateParse (Some "15/01/2025")
  = Ret (Some (calendarDate 2025 1 15)) /\
  Part000.parseDate Scenario.noDateParse (Some "5.1.25")
  = Ret (Some (calendarDate 2025 1 5)) /\
  Part000.parseDate Scenario.noDateParse (Some "5 January 2025")
  = Ret (Some (calendarDate 2025 1 5)).
Proof.
  assert (Hv : forall d, 1 <= d <= 31 -> validDate 2025 1 d)
    by (intros d Hd; split; [lia | exact Hd]).
  pose proof (parseDate_reads_formats Scenario.noDateParse) as (_ & Hdmy & Htext).
  split; [|split].
  - apply (proj1 (proj2 (Hdmy true "/"%char "/"%char 2025 1 15
                           (Hv 15 ltac:(lia)) eq_refl eq_refl))). lia.
  - apply (proj2 (proj2 (Hdmy false "."%char "."%char 2025 1 5
                           (Hv 5 ltac:(lia)) eq_refl eq_refl))). lia.
  - apply (Htext false "January" 2025 1 5 (Hv 5 ltac:(lia))); [lia|].
    repeat split; simpl; lia.
Defined.

(** C6 (defect of the code). "2025-01-15" is the year-month-day rendering
    of 15 January 2025, and the third pattern of [unnamed/part_000], the one
    its comment names yyyy-mm-dd, reads it as that day. [parseDate] never
    gets there: the first pattern, which is not anchored, matches at the
    last two digits of the year, and [unnamed/part_000] and [src/App.jsx]
    both return 25 January 2015, whatever the host; so does the deadline
    read from a posting that ends with "Last date: 2025-01-15". With a day
    of one digit, "2025-1-5", the first pattern finds no year and
    [unnamed/part_000] returns 5 January 2025. *)
Theorem ymd_is_read_as_dmy (dateParse : string -> option Z) :
  ymdText "-" "-" 2025 1 15 = "2025-01-15" /\ validDate 2025 1 15 /\
  ymdBranch "2025-01-15" = Some (calendarDate 2025 1 15) /\
  Part000.parseDate dateParse (Some "2025-01-15")
  = Ret (Some (calendarDate 2015 1 25)) /\
  AppJsx.parseDate dateParse (Some "2025-01-15")
  = Ret (Some (calendarDate 2015 1 25)) /\
  calendarDate 2015 1 25 <> calendarDate 2025 1 15 /\
  utcDate (calendarDate 2015 1 25) = (2015, 1, 25) /\
  Crawl.extractDeadline (Part000.parseDate dateParse) 0
    "Qualification: B.Sc. Salary: 40000. Last date: 2025-01-15"
  = Ret (Some (calendarDate 2015 1 25)) /\
  Part000.parseDate dateParse (Some "2025-1-5")
  = Ret (Some (calendarDate 2025 1 5)).
Proof.
  repeat split; try reflexivity; try (simpl; lia).
  vm_compute. discriminate.
Qed.

(** The textual pattern comes before the year-month-day pattern: a text both
    match is read by the former. *)
Lemma textual_before_ymd :
  dmyBranch "5 Mar 2025-01-5" = None /\
  textValue "5 Mar 2025-01-5" = Some (calendarDate 2025 3 5) /\
  ymdBranch "5 Mar 2025-01-5" = Some (calendarDate 2025 1 5) /\
  Part000.parseDate Scenario.noDateParse (Some "5 Mar 2025-01-5")
  = Ret (Some (calendarDate 2025 3 5)).
Proof. repeat split; vm_compute; reflexivity. Qed.

(** A date written month first, "March 5, 2025", matches neither pattern
    once its comma is replaced, and is left to the host's constructor. *)
Lemma month_first_is_left_to_the_host (dateParse : string -> option Z) :
  dmyBranch "March 5, 2025" = None /\ textValue "March 5, 2025" = None /\
  AppJsx.parseDate dateParse (Some "March 5, 2025")
  = Ret (dateParse "March 5, 2025").
Proof.
  assert (Hd : dmyBranch "March 5, 2025" = None) by (vm_compute; reflexivity).
  assert (Ht : textValue "March 5, 2025" = None) by (vm_compute; reflexivity).
  repeat split; auto.
Qed.

(** A date-only lastDate that is on or after local midnight of today is on or
    after UTC midnight of today, in every zone less than a day from UTC. *)
Lemma midnight_dates_after_utc_midnight (now tza t : Z) :
  - msPerDay < tza < msPerDay -> isMidnight t ->
  Crawl.localMidnight now tza <= t -> Crawl.utcMidnight now <= t.
Proof.
  unfold Crawl.localMidnight, Crawl.utcMidnight, isMidnight, Day, msPerDay.
  intros Hz Ht H.
  pose proof (Z.div_mod (now + tza) 86400000 ltac:(lia)) as E1.
  pose proof (Z.mod_pos_bound (now + tza) 86400000 ltac:(lia)) as B1.
  pose proof (Z.div_mod now 86400000 ltac:(lia)) as E2.
  pose proof (Z.mod_pos_bound now 86400000 ltac:(lia)) as B2.
  pose proof (Z.div_mod t 86400000 ltac:(lia)) as E3.
  lia.
Qed.

End FormatTheorems.

(** ** What a match tells about the text *)

Module InversionFacts.
Import Regex Patterns MatchFacts RoundTrip.

Lemma rep_run_inv (g : bool) (p : ascii -> bool) (s : string) :
  forall lo hi c k res,
    rep g p lo hi s c k = Some res ->
    exists ds s',
      s = (ds ++ s')%string /\ Str.all p ds = true /\
      (lo <= String.length ds)%nat /\ fits hi (String.length ds) /\
      k s' c = Some res.
Proof.
  induction s as [|x s IH]; intros lo hi c k res H; simpl in H.
  - destruct lo; [|discriminate]. exists "", "".
    repeat split; auto. destruct hi; simpl; auto. lia.
  - assert (Hstop : match lo with O => k (String x s) c | S _ => None end
                    = Some res ->
                    exists ds s',
                      String x s = (ds ++ s')%string /\ Str.all p ds = true /\
                      (lo <= String.length ds)%nat /\
                      fits hi (String.length ds) /\ k s' c = Some res).
    { destruct lo; [|discriminate]. intros Hk. exists "", (String x s).
      repeat split; auto. destruct hi; simpl; auto. lia. }
    destruct (p x && more hi) eqn:E; [|auto].
    apply andb_true_iff in E as [Hx Hmore].
    assert (Hgo : rep g p (Nat.pred lo) (option_map Nat.pred hi) s c k
                  = Some res ->
                  exists ds s',
                    String x s = (ds ++ s')%string /\ Str.all p ds = true /\
                    (lo <= String.length ds)%nat /\
                    fits hi (String.length ds) /\ k s' c = Some res).
    { intros Hr. apply IH in Hr as (ds & s' & -> & Hall & Hlo & Hfit & Hk).
      exists (String x ds), s'. simpl. rewrite Hx, Hall.
      repeat split; auto; [lia|].
      destruct hi as [[|h]|]; simpl in *; auto; [discriminate | lia]. }
    destruct g; apply RegexFacts.firstOf_Some in H as [H|H]; auto.
Qed.

Lemma group_run_inv (i : nat) (g : bool) (p : ascii -> bool) (lo : nat)
    (hi : option nat) (s : string) (c : captures) (k : cont) (res : captures) :
  run (Grp i (Rep g lo hi p)) s c k = Some res ->
  exists ds s',
    s = (ds ++ s')%string /\ Str.all p ds = true /\
    (lo <= String.length ds)%nat /\ fits hi (String.length ds) /\
    k s' (setCapture i ds c) = Some res.
Proof.
  intros H. simpl in H.
  apply rep_run_inv in H as (ds & s' & -> & Hall & Hlo & Hfit & Hk).
  rewrite take_consumed in Hk. exists ds, s'. auto.
Qed.

Lemma chr_inv (p : ascii -> bool) (s : string) (c : captures) (k : cont)
    (res : captures) :
  run (Chr p) s c k = Some res ->
  exists x s', s = String x s' /\ p x = true /\ k s' c = Some res.
Proof.
  simpl. destruct s as [|x s']; [discriminate|].
  destruct (p x) eqn:E; [|discriminate]. eauto.
Qed.

Lemma search_inv (n : nat) (r : re) (s : string) (res : captures) :
  search n r s = Some res ->
  exists pre s0, s = (pre ++ s0)%string /\ attempt n r s0 = Some res.
Proof.
  induction s as [|x s IH]; rewrite FormatFacts.search_unfold; intros H;
    apply RegexFacts.firstOf_Some in H as [H|H]; try discriminate.
  - exists "", "". auto.
  - exists "", (String x s). auto.
  - apply IH in H as (pre & s0 & -> & H). exists (String x pre), s0. auto.
Qed.

(** What the day-month-year pattern captures: three runs of digits, of one
    or two, one or two, and two to four digits. *)
Lemma dmy_captures (s : string) (parts : captures) :
  search 3 dmyPattern s = Some parts ->
  exists D M Y,
    getCapture 1 parts = Some D /\ getCapture 2 parts = Some M /\
    getCapture 3 parts = Some Y /\
    Str.all Str.is_digit D = true /\ (1 <= String.length D <= 2)%nat /\
    Str.all Str.is_digit M = true /\ (1 <= String.length M <= 2)%nat /\
    Str.all Str.is_digit Y = true /\ (2 <= String.length Y <= 4)%nat.
Proof.
  intros H. apply search_inv in H as (pre & s0 & _ & H).
  unfold attempt, dmyPattern, digits in H. rewrite run_Seq in H.
  apply group_run_inv in H as (D & r1 & -> & HD & LD & FD & H).
  cbv beta in H. rewrite run_Seq in H.
  apply chr_inv in H as (x1 & r2 & -> & _ & H). rewrite run_Seq in H.
  apply group_run_inv in H as (M & r3 & -> & HM & LM & FM & H).
  cbv beta in H. rewrite run_Seq in H.
  apply chr_inv in H as (x2 & r4 & -> & _ & H).
  apply group_run_inv in H as (Y & r5 & -> & HY & LY & FY & H).
  cbv beta in H. injection H as <-.
  exists D, M, Y. simpl in FD, FM, FY. repeat split; auto.
Qed.

End InversionFacts.

(** ** Every date the patterns give *)

Module PatternFacts.
Import Regex Patterns MatchFacts RoundTrip InversionFacts JSDate.

Lemma digit_code (c : ascii) :
  Str.is_digit c = true -> 0 <= Str.code c - 48 <= 9.
Proof.
  unfold Str.is_digit, Str.between. intros H.
  apply andb_true_iff in H as [H1 H2]. apply Z.leb_le in H1, H2. lia.
Qed.

(** The number written by one to four digits. *)
Lemma digitsValue_small (s : string) :
  Str.all Str.is_digit s = true -> (1 <= String.length s <= 4)%nat ->
  Str.parseIntValue (Some s) = Some (Str.digitsValue 0 s) /\
  0 <= Str.digitsValue 0 s < 10 ^ Z.of_nat (String.length s).
Proof.
  intros H L. split; [apply parseInt_digits; [exact H | lia]|].
  destruct s as [|a [|b [|c [|d [|e s]]]]]; simpl in L; try lia;
    simpl in H; repeat (apply andb_true_iff in H as [? H]);
    cbn [Str.digitsValue String.length];
    repeat match goal with
           | Hc : Str.is_digit ?x = true |- _ =>
               rewrite Hc; apply digit_code in Hc
           end;
    cbn [Z.of_nat Pos.of_succ_nat Pos.succ]; lia.
Qed.

Lemma MakeDay_bound (y m d : Z) :
  100 <= y <= 9999 -> -1 <= m <= 98 -> 0 <= d <= 99 ->
  -1000000 <= MakeDay y m d <= 4000000.
Proof.
  intros Hy Hm Hd. unfold MakeDay. cbv zeta.
  assert (Hq : -1 <= m / 12 <= 8).
  { split; [apply Z.div_le_lower_bound; lia|].
    assert (m / 12 < 9) by (apply Z.div_lt_upper_bound; lia). lia. }
  pose proof (proj2 (DateFacts.year_ok (y + m / 12))) as Hdrift.
  unfold drift in Hdrift.
  pose proof (daysBeforeMonth_bound (InLeapYear (y + m / 12)) (m mod 12)).
  lia.
Qed.

(** [Date.UTC] on a year from 100 to 9999, any month number from -1 to 98
    and any day number from 0 to 99 is a date: out-of-range months and days
    carry over. *)
Lemma UTC_carries (y m d : Z) :
  100 <= y <= 9999 -> 0 <= m <= 99 -> 0 <= d <= 99 ->
  UTC (Some y) (Some (m - 1)) (Some d) = Some (calendarDate y m d).
Proof.
  intros Hy Hm Hd. unfold UTC.
  replace ((0 <=? y) && (y <=? 99)) with false
    by (symmetry; apply andb_false_iff; right; apply Z.leb_gt; lia).
  unfold TimeClip, calendarDate.
  pose proof (MakeDay_bound y (m - 1) d Hy ltac:(lia) Hd) as Hb.
  replace (Z.abs _ <=? 8640000000000000) with true; [reflexivity|].
  symmetry. apply Z.leb_le. unfold msPerDay. lia.
Qed.

Lemma UTC_midnight (y m d : option Z) (t : Z) :
  UTC y m d = Some t -> isMidnight t.
Proof.
  unfold UTC, TimeClip, isMidnight.
  destruct y as [y|], m as [m|], d as [d|]; try discriminate.
  destruct (Z.abs _ <=? _); [|discriminate].
  intros [= <-]. apply Z.mod_mul. unfold msPerDay. lia.
Qed.

End PatternFacts.

Module PatternTheorems.
Import Regex Patterns MatchFacts RoundTrip InversionFacts PatternFacts JSDate.
Import Reading.

Lemma pow10_le (n k : nat) : (n <= k)%nat -> 10 ^ Z.of_nat n <= 10 ^ Z.of_nat k.
Proof. intros H. apply Z.pow_le_mono_r; lia. Qed.

Lemma dmyBranch_of_captures (s : string) (parts : captures) (D M Y : string) :
  search 3 dmyPattern s = Some parts ->
  getCapture 1 parts = Some D -> getCapture 2 parts = Some M ->
  getCapture 3 parts = Some Y ->
  Str.all Str.is_digit D = true -> (1 <= String.length D <= 2)%nat ->
  Str.all Str.is_digit M = true -> (1 <= String.length M <= 2)%nat ->
  Str.all Str.is_digit Y = true -> (2 <= String.length Y <= 4)%nat ->
  dmyBranch s
  = Some (calendarDate (yearOf Y) (Str.digitsValue 0 M) (Str.digitsValue 0 D)).
Proof.
  intros Hs H1 H2 H3 HD LD HM LM HY LY.
  destruct (digitsValue_small D HD ltac:(lia)) as [PD BD].
  destruct (digitsValue_small M HM ltac:(lia)) as [PM BM].
  destruct (digitsValue_small Y HY ltac:(lia)) as [PY BY].
  pose proof (pow10_le (String.length D) 2 ltac:(lia)) as ED.
  pose proof (pow10_le (String.length M) 2 ltac:(lia)) as EM.
  pose proof (pow10_le (String.length Y) 4 ltac:(lia)) as EY.
  change (10 ^ Z.of_nat 2) with 100 in ED, EM.
  change (10 ^ Z.of_nat 4) with 10000 in EY.
  unfold dmyBranch. rewrite Hs, H1, H2, H3, PD, PM, PY.
  unfold expandYear, minusOne, option_map, yearOf.
  destruct (Str.digitsValue 0 Y <? 100) eqn:E;
    [apply Z.ltb_lt in E | apply Z.ltb_ge in E];
    apply UTC_carries; lia.
Qed.

(** X1. Whenever the day-month-year pattern matches, [parseDate] returns
    the date built from the three runs of digits, in each of the three
    files: no later pattern and no host parser is consulted, and a day or
    month number out of range is carried over, never refused. *)
Theorem dmy_match_is_final (dateParse : string -> option Z) (s : string)
    (parts : captures) :
  search 3 dmyPattern s = Some parts ->
  exists D M Y,
    getCapture 1 parts = Some D /\ getCapture 2 parts = Some M /\
    getCapture 3 parts = Some Y /\
    let t := calendarDate (yearOf Y) (Str.digitsValue 0 M)
               (Str.digitsValue 0 D) in
    AppJsx.parseDate dateParse (Some s) = Ret (Some t) /\
    Part000.parseDate dateParse (Some s) = Ret (Some t) /\
    Part001.parseDate dateParse (Some s) = Ret (Some t).
Proof.
  intros Hs.
  destruct (dmy_captures s parts Hs)
    as (D & M & Y & H1 & H2 & H3 & HD & LD & HM & LM & HY & LY).
  exists D, M, Y. repeat split; auto;
    apply FormatTheorems.reads_dmy;
    eapply dmyBranch_of_captures; eauto.
Qed.

Lemma dmy_match_is_final_witness :
  exists D M Y,
    getCapture 1 [Some "99/99/99"; Some "99"; Some "99"; Some "99"] = Some D /\
    getCapture 2 [Some "99/99/99"; Some "99"; Some "99"; Some "99"] = Some M /\
    getCapture 3 [Some "99/99/99"; Some "99"; Some "99"; Some "99"] = Some Y /\
    let t := calendarDate (yearOf Y) (Str.digitsValue 0 M)
               (Str.digitsValue 0 D) in
    AppJsx.parseDate Scenario.noDateParse (Some "on 99/99/99") = Ret (Some t) /\
    Part000.parseDate Scenario.noDateParse (Some "on 99/99/99") = Ret (Some t) /\
    Part001.parseDate Scenario.noDateParse (Some "on 99/99/99") = Ret (Some t).
Proof.
  apply (dmy_match_is_final Scenario.noDateParse "on 99/99/99").
  vm_compute. reflexivity.
Defined.

Lemma dmyBranch_midnight (s : string) (t : Z) :
  dmyBranch s = Some t -> isMidnight t.
Proof.
  unfold dmyBranch. destruct (search 3 dmyPattern s); [|discriminate].
  apply UTC_midnight.
Qed.

Lemma ymdBranch_midnight (s : string) (t : Z) :
  ymdBranch s = Some t -> isMidnight t.
Proof.
  unfold ymdBranch. destruct (search 3 ymdPattern s); [|discriminate].
  apply UTC_midnight.
Qed.

Lemma textValue_midnight (s : string) (t : Z) :
  textValue s = Some t -> isMidnight t.
Proof.
  unfold textValue, textDate. destruct (textMatch s) as [parts|]; [|discriminate].
  destruct (getCapture 2 parts); [|discriminate].
  destruct (months _); [|discriminate]. apply UTC_midnight.
Qed.

(** X2. Every date [parseDate] returns is a date-only value, UTC midnight
    of some day, unless it is the very value the host's date constructor
    gave for the whole string. *)
Theorem parsed_dates_are_date_only (dateParse : string -> option Z)
    (input : option string) (t : Z) :
  AppJsx.parseDate dateParse input = Ret (Some t) \/
  Part000.parseDate dateParse input = Ret (Some t) \/
  Part001.parseDate dateParse input = Ret (Some t) ->
  isMidnight t \/ exists s, input = Some s /\ dateParse s = Some t.
Proof.
  intros H. destruct input as [s|]; [|destruct H as [H|[H|H]]; discriminate].
  destruct (string_dec s "") as [->|Hs];
    [destruct H as [H|[H|H]]; discriminate|].
  destruct (FormatFacts.parseDate_order dateParse s Hs) as (Ea & Eb & Ec).
  rewrite Ea, Eb, Ec in H. unfold firstDate in H.
  destruct (dmyBranch s) as [t1|] eqn:E1.
  { left. apply (dmyBranch_midnight s).
    destruct H as [H|[H|H]]; congruence. }
  destruct H as [H|[H|H]].
  - destruct (textValue s) as [t2|] eqn:E2.
    + left. apply (textValue_midnight s). congruence.
    + right. exists s. split; congruence.
  - destruct (textValue s) as [t2|] eqn:E2.
    + left. apply (textValue_midnight s). congruence.
    + destruct (ymdBranch s) as [t3|] eqn:E3.
      * left. apply (ymdBranch_midnight s). congruence.
      * right. exists s. split; congruence.
  - right. exists s. split; congruence.
Qed.

Lemma parsed_dates_are_date_only_witness :
  isMidnight (calendarDate 2025 3 5) \/
  exists s, Some "5 March 2025" = Some s /\
            Scenario.noDateParse s = Some (calendarDate 2025 3 5).
Proof.
  apply (parsed_dates_are_date_only Scenario.noDateParse (Some "5 March 2025")
           (calendarDate 2025 3 5)).
  left. vm_compute. reflexivity.
Defined.

End PatternTheorems.

(** ** The deadline pattern *)

Module TriggerFacts.
Import Regex Patterns MatchFacts RoundTrip InversionFacts Crawl Triggers.

Lemma app_assoc (a b c : string) : ((a ++ b) ++ c)%string = (a ++ (b ++ c))%string.
Proof. induction a as [|x a IH]; simpl; congruence. Qed.

Lemma toLowerCase_app (a b : string) :
  Str.toLowerCase (a ++ b) = (Str.toLowerCase a ++ Str.toLowerCase b)%string.
Proof. induction a as [|x a IH]; simpl; congruence. Qed.

Lemma startsWith_app (p s : string) : Str.startsWith (p ++ s) p = true.
Proof.
  induction p as [|x p IH]; simpl; [destruct s; reflexivity|].
  rewrite Ascii.eqb_refl. exact IH.
Qed.

Lemma includes_unfold (s p : string) :
  Str.includes s p = Str.startsWith s p ||
                     match s with
                     | EmptyString => false
                     | String _ s' => Str.includes s' p
                     end.
Proof. destruct s; reflexivity. Qed.

Lemma includes_app (a p s : string) : Str.includes (a ++ (p ++ s)) p = true.
Proof.
  induction a as [|x a IH].
  - simpl append. rewrite includes_unfold, startsWith_app. reflexivity.
  - simpl. rewrite IH. apply orb_true_r.
Qed.

Lemma litI_inv (p : string) :
  p <> "" ->
  forall s c k res,
    run (litI p) s c k = Some res ->
    exists w s', s = (w ++ s')%string /\
                 Str.toLowerCase w = Str.toLowerCase p /\ k s' c = Some res.
Proof.
  induction p as [|x p IH]; [congruence|]. intros _ s c k res H.
  destruct p as [|y p].
  - apply chr_inv in H as (z & s' & -> & Hz & Hk).
    apply Ascii.eqb_eq in Hz. exists (String z ""), s'. simpl. rewrite Hz. auto.
  - change (litI (String x (String y p)))
      with (Seq (chrI x) (litI (String y p))) in H.
    rewrite run_Seq in H.
    apply chr_inv in H as (z & s1 & -> & Hz & H).
    apply Ascii.eqb_eq in Hz.
    apply IH in H as (w & s' & -> & Hw & Hk); [|discriminate].
    exists (String z w), s'. split; [reflexivity|]. split; [|exact Hk].
    change (Str.toLowerCase (String z w))
      with (String (Str.lower z) (Str.toLowerCase w)).
    change (Str.toLowerCase (String x (String y p)))
      with (String (Str.lower x) (Str.toLowerCase (String y p))).
    rewrite Hz, Hw. reflexivity.
Qed.

Lemma run_Alt (a b : re) (s : string) (c : captures) (k : cont) :
  run (Alt a b) s c k = firstOf (run a s c k) (run b s c k).
Proof. reflexivity. Qed.

Lemma run_Grp (i : nat) (a : re) (s : string) (c : captures) (k : cont) :
  run (Grp i a) s c k =
  run a s c (fun s' c' =>
    k s' (setCapture i (Str.take (String.length s - String.length s') s) c')).
Proof. reflexivity. Qed.

Lemma run_Rep (g : bool) (lo : nat) (hi : option nat) (p : ascii -> bool)
    (s : string) (c : captures) (k : cont) :
  run (Rep g lo hi p) s c k = rep g p lo hi s c k.
Proof. reflexivity. Qed.

(** What a match of [deadlineRegex] is made of: a trigger phrase in any mix
    of cases, a gap, and the payload: characters of [[\w\s,./-]] and then one
    to four digits. *)
Lemma deadline_attempt_inv (s0 : string) (res : captures) :
  attempt 1 deadlineRegex s0 = Some res ->
  exists w gap P Dg rest,
    s0 = (w ++ (gap ++ ((P ++ Dg) ++ rest)))%string /\
    In (Str.toLowerCase w) triggerPhrases /\
    Str.all isPayload P = true /\ (1 <= String.length P)%nat /\
    Str.all Str.is_digit Dg = true /\ (1 <= String.length Dg <= 4)%nat /\
    getCapture 1 res = Some (P ++ Dg)%string.
Proof.
  unfold attempt, deadlineRegex. intros H. rewrite run_Seq in H.
  assert (Hw : exists w s1,
             s0 = (w ++ s1)%string /\ In (Str.toLowerCase w) triggerPhrases /\
             run (Seq (Rep true 0 unbounded isGap)
                    (Grp 1 (Seq (Rep true 1 unbounded isPayload)
                              (Rep true 1 (upTo 4) Str.is_digit))))
               s1 (repeat None 2)
               (fun s' c' =>
                  Some (setCapture 0
                          (Str.take (String.length s0 - String.length s') s0) c'))
             = Some res).
  { repeat (rewrite run_Alt in H; apply RegexFacts.firstOf_Some in H as [H|H]);
      (apply litI_inv in H as (w & s1 & E & Hl & Hk); [|discriminate]);
      exists w, s1; (split; [exact E|]); (split; [|exact Hk]);
      rewrite Hl; simpl; tauto. }
  clear H. destruct Hw as (w & s1 & -> & Hin & H).
  rewrite run_Seq, run_Rep in H.
  apply rep_run_inv in H as (gap & s2 & -> & _ & _ & _ & H).
  rewrite run_Grp, run_Seq, run_Rep in H.
  apply rep_run_inv in H as (P & s3 & -> & HP & LP & _ & H).
  rewrite run_Rep in H.
  apply rep_run_inv in H as (Dg & rest & -> & HD & LD & FD & H).
  rewrite <- (app_assoc P Dg rest), take_consumed in H.
  injection H as <-.
  exists w, gap, P, Dg, rest. simpl in FD. repeat split; auto.
  rewrite (app_assoc P Dg rest). reflexivity.
Qed.

End TriggerFacts.

Module TriggerTheorems.
Import Regex Patterns MatchFacts RoundTrip InversionFacts Crawl Triggers.
Import TriggerFacts.

Lemma deadline_match_has_trigger (body : string) (m : captures) :
  search 1 deadlineRegex body = Some m -> hasTrigger body = true.
Proof.
  intros H. apply search_inv in H as (pre & s0 & -> & H).
  apply deadline_attempt_inv in H
    as (w & gap & P & Dg & rest & -> & Hin & _).
  unfold hasTrigger. apply existsb_exists.
  exists (Str.toLowerCase w). split; [exact Hin|].
  rewrite !toLowerCase_app. apply includes_app.
Qed.

(** X3. In [src/App.jsx] and [unnamed/part_000], a page in whose text none
    of the six trigger phrases occurs, in any mix of cases, yields no
    deadline, whatever its keywords and whatever dates it shows. *)
Theorem no_trigger_no_deadline (dateParse : string -> option Z) (today : Z)
    (body : string) :
  hasTrigger body = false ->
  extractDeadline (AppJsx.parseDate dateParse) today body = Ret None /\
  extractDeadline (Part000.parseDate dateParse) today body = Ret None.
Proof.
  intros H. unfold extractDeadline.
  destruct (search 1 deadlineRegex body) as [m|] eqn:E; [|auto].
  apply deadline_match_has_trigger in E. congruence.
Qed.

Lemma no_trigger_no_deadline_witness :
  extractDeadline (AppJsx.parseDate Scenario.noDateParse) 0
    "Qualification and salary as on 15/01/2099" = Ret None /\
  extractDeadline (Part000.parseDate Scenario.noDateParse) 0
    "Qualification and salary as on 15/01/2099" = Ret None.
Proof.
  apply (no_trigger_no_deadline Scenario.noDateParse 0). vm_compute. reflexivity.
Defined.

Lemma endsWithDigit_app (a b : string) :
  endsWithDigit b = true -> endsWithDigit (a ++ b) = true.
Proof.
  intros Hb. induction a as [|x a IH]; [exact Hb|].
  simpl append. destruct (a ++ b)%string eqn:E; [|exact IH].
  destruct a; [|discriminate]. simpl in E. subst b. discriminate.
Qed.

Lemma endsWithDigit_digits (s : string) :
  Str.all Str.is_digit s = true -> (1 <= String.length s)%nat ->
  endsWithDigit s = true.
Proof.
  induction s as [|x s IH]; simpl; [lia|]. intros H _.
  apply andb_true_iff in H as [Hx Hs].
  destruct s as [|y s]; [exact Hx|]. apply IH; [exact Hs | simpl; lia].
Qed.

Lemma trimEnd_endsWithDigit (s : string) :
  endsWithDigit s = true -> Str.trimEnd s = s.
Proof.
  induction s as [|x s IH]; [discriminate|]. intros H.
  destruct s as [|y s].
  - simpl in H. destruct (digit_class x H) as (Hs & _).
    simpl. rewrite Hs. reflexivity.
  - change (endsWithDigit (String y s) = true) in H.
    specialize (IH H). change (Str.trimEnd (String x (String y s)))
      with (match Str.trimEnd (String y s) with
            | EmptyString =>
                if Str.is_space x then EmptyString else String x EmptyString
            | r => String x r
            end).
    rewrite IH. reflexivity.
Qed.

Lemma trimStart_endsWithDigit (s : string) :
  endsWithDigit s = true -> endsWithDigit (Str.trimStart s) = true.
Proof.
  induction s as [|x s IH]; [discriminate|]. intros H.
  simpl Str.trimStart. destruct (Str.is_space x) eqn:E; [|exact H].
  destruct s as [|y s].
  - simpl in H. destruct (digit_class x H) as (Hs & _). congruence.
  - apply IH. exact H.
Qed.

Lemma digit_is_payload (c : ascii) :
  Str.is_digit c = true -> isPayload c = true.
Proof.
  intros H. unfold isPayload, Str.is_word. rewrite H.
  rewrite orb_true_r. reflexivity.
Qed.

(** X4. In [src/App.jsx] and [unnamed/part_000], whenever the deadline
    pattern matches, the payload it captures is made of word characters,
    white space, commas, dots, slashes and hyphens only, has two characters
    at least and ends with a digit; trimmed, it still ends with a digit, so
    [parseDate] is never given an empty text. *)
Theorem deadline_payload_shape (body : string) (m : captures) :
  search 1 deadlineRegex body = Some m ->
  exists payload,
    getCapture 1 m = Some payload /\
    Str.all isPayload payload = true /\
    (2 <= String.length payload)%nat /\
    endsWithDigit payload = true /\
    endsWithDigit (Str.trim payload) = true /\
    truthy payload = true.
Proof.
  intros H. apply search_inv in H as (pre & s0 & _ & H).
  apply deadline_attempt_inv in H
    as (w & gap & P & Dg & rest & _ & _ & HP & LP & HD & LD & Hc).
  assert (He : endsWithDigit (P ++ Dg) = true).
  { apply endsWithDigit_app, endsWithDigit_digits; [exact HD | lia]. }
  exists (P ++ Dg)%string. repeat split.
  - exact Hc.
  - rewrite all_app, HP.
    rewrite (all_impl _ isPayload Dg digit_is_payload HD). reflexivity.
  - rewrite IsoFacts.length_app. lia.
  - exact He.
  - unfold Str.trim. rewrite trimEnd_endsWithDigit;
      apply trimStart_endsWithDigit; exact He.
  - destruct (P ++ Dg)%string; [discriminate He | reflexivity].
Qed.

Lemma deadline_payload_shape_witness :
  exists payload,
    getCapture 1 [Some "Last date: 15/01/2099"; Some "15/01/2099"]
    = Some payload /\
    Str.all isPayload payload = true /\
    (2 <= String.length payload)%nat /\
    endsWithDigit payload = true /\
    endsWithDigit (Str.trim payload) = true /\
    truthy payload = true.
Proof.
  apply (deadline_payload_shape (bodyText Scenario.nurseDoc)).
  vm_compute. reflexivity.
Defined.

End TriggerTheorems.

Module NumericDeadline.
Import Regex Patterns MatchFacts RoundTrip InversionFacts PatternFacts JSDate.
Import Crawl Reading TriggerFacts.

(** What the deadline pattern of [unnamed/part_001] captures: day, month
    and year as runs of digits with two separators. *)
Lemma part001_payload (body : string) (m : captures) :
  search 1 Part001.deadlineRegex body = Some m ->
  exists D M Y s1 s2,
    getCapture 1 m = Some (D ++ String s1 (M ++ String s2 Y))%string /\
    Str.all Str.is_digit D = true /\ (1 <= String.length D <= 2)%nat /\
    Str.all Str.is_digit M = true /\ (1 <= String.length M <= 2)%nat /\
    Str.all Str.is_digit Y = true /\ (2 <= String.length Y <= 4)%nat /\
    Str.is_sep s1 = true /\ Str.is_sep s2 = true.
Proof.
  intros H. apply search_inv in H as (pre & s0 & _ & H).
  unfold attempt, Part001.deadlineRegex in H. rewrite run_Seq in H.
  apply RegexFacts.run_inv in H as (s1' & c1 & H & _ & _).
  rewrite run_Seq in H. unfold Part001.anything in H. rewrite run_Rep in H.
  apply rep_run_inv in H as (skip & s2' & -> & _ & _ & _ & H).
  rewrite run_Grp, run_Seq in H. unfold digits in H. rewrite run_Rep in H.
  apply rep_run_inv in H as (D & r1 & -> & HD & LD & FD & H).
  rewrite run_Seq in H. apply chr_inv in H as (x1 & r2 & -> & H1 & H).
  rewrite run_Seq, run_Rep in H.
  apply rep_run_inv in H as (M & r3 & -> & HM & LM & FM & H).
  rewrite run_Seq in H. apply chr_inv in H as (x2 & r4 & -> & H2 & H).
  rewrite run_Rep in H.
  apply rep_run_inv in H as (Y & rest & -> & HY & LY & FY & H).
  replace (D ++ String x1 (M ++ String x2 (Y ++ rest)))%string
    with ((D ++ String x1 (M ++ String x2 Y)) ++ rest)%string in H.
  2:{ rewrite app_assoc. simpl. rewrite app_assoc. reflexivity. }
  rewrite take_consumed in H. cbv beta in H. injection H as <-.
  exists D, M, Y, x1, x2. simpl in FD, FM, FY.
  split; [destruct c1 as [|a [|b c1]]; reflexivity | repeat split; auto].
Qed.


Lemma part001_payload_date (dateParse : string -> option Z) (D M Y : string)
    (s1 s2 : ascii) :
  Str.all Str.is_digit D = true -> (1 <= String.length D <= 2)%nat ->
  Str.all Str.is_digit M = true -> (1 <= String.length M <= 2)%nat ->
  Str.all Str.is_digit Y = true -> (2 <= String.length Y <= 4)%nat ->
  Str.is_sep s1 = true -> Str.is_sep s2 = true ->
  Part001.parseDate dateParse (Some (D ++ String s1 (M ++ String s2 Y))%string)
  = Ret (Some (calendarDate (yearOf Y) (Str.digitsValue 0 M)
                 (Str.digitsValue 0 D))).
Proof.
  intros HD LD HM LM HY LY H1 H2.
  apply FormatTheorems.reads_dmy.
  eapply PatternTheorems.dmyBranch_of_captures;
    [apply dmy_match; eassumption | reflexivity | reflexivity | reflexivity
    | auto ..].
Qed.

Lemma truthy_app (a b : string) :
  (1 <= String.length a)%nat -> truthy (a ++ b) = true.
Proof. destruct a; simpl; [lia | reflexivity]. Qed.

(** X5. In [unnamed/part_001], when the deadline pattern matches, the text
    it captures is day, separator, month, separator, year in digits, and the
    deadline of the page is the calendar date built from these numbers, a
    two-digit year counted from 2000, kept when it is not before [today]:
    the host's date parser has no say in it. *)
Theorem part001_deadline_is_numeric (dateParse : string -> option Z)
    (today : Z) (body : string) (m : captures) :
  search 1 Part001.deadlineRegex body = Some m ->
  exists D M Y s1 s2,
    getCapture 1 m = Some (D ++ String s1 (M ++ String s2 Y))%string /\
    Str.is_sep s1 = true /\ Str.is_sep s2 = true /\
    let t := calendarDate (yearOf Y) (Str.digitsValue 0 M)
               (Str.digitsValue 0 D) in
    Part001.extractDeadline dateParse today body
    = Ret (if today <=? t then Some t else None).
Proof.
  intros H.
  destruct (part001_payload body m H)
    as (D & M & Y & s1 & s2 & Hc & HD & LD & HM & LM & HY & LY & H1 & H2).
  exists D, M, Y, s1, s2. repeat split; auto.
  unfold Part001.extractDeadline. rewrite H, Hc.
  rewrite truthy_app by lia.
  rewrite (part001_payload_date dateParse D M Y s1 s2) by assumption.
  cbn [bind]. destruct (today <=? _); reflexivity.
Qed.

Lemma part001_deadline_is_numeric_witness :
  exists D M Y s1 s2,
    getCapture 1 [Some "Last date: 15/01/2099"; Some "15/01/2099"]
    = Some (D ++ String s1 (M ++ String s2 Y))%string /\
    Str.is_sep s1 = true /\ Str.is_sep s2 = true /\
    let t := calendarDate (yearOf Y) (Str.digitsValue 0 M)
               (Str.digitsValue 0 D) in
    Part001.extractDeadline Scenario.noDateParse 0
      (bodyText Scenario.nurseDoc)
    = Ret (if 0 <=? t then Some t else None).
Proof.
  apply (part001_deadline_is_numeric Scenario.noDateParse 0
           (bodyText Scenario.nurseDoc)).
  vm_compute. reflexivity.
Defined.

Lemma part001_extractDeadline_host (dateParse dateParse' : string -> option Z)
    (today : Z) (body : string) :
  Part001.extractDeadline dateParse today body
  = Part001.extractDeadline dateParse' today body.
Proof.
  unfold Part001.extractDeadline.
  destruct (search 1 Part001.deadlineRegex body) as [m|] eqn:H; [|reflexivity].
  destruct (part001_payload body m H)
    as (D & M & Y & s1 & s2 & Hc & HD & LD & HM & LM & HY & LY & H1 & H2).
  rewrite Hc.
  rewrite (part001_payload_date dateParse D M Y s1 s2) by assumption.
  rewrite (part001_payload_date dateParse' D M Y s1 s2) by assumption.
  reflexivity.
Qed.

Lemma foldM_ext {A B : Type} (f g : A -> B -> js A) (l : list B) :
  (forall a x, f a x = g a x) -> forall a, foldM f l a = foldM g l a.
Proof.
  intros E. induction l as [|x l IH]; intros a; simpl; [reflexivity|].
  rewrite E. destruct (g a x); simpl; auto.
Qed.

(** X6. In [unnamed/part_001] the outcome of a scan does not depend on how
    the host reads date strings: two hosts that differ only in [new
    Date(string)] leave [handleFetchJobs] in the same state. *)
Theorem part001_scan_ignores_host_dates
    (dateParse dateParse' : string -> option Z)
    (urlHref : string -> string -> option string)
    (urlOrigin : string -> option string)
    (fetchHtml : string -> js (option string))
    (parseHTML : string -> Document) (now tza : Z) (state : Part001.State) :
  Part001.handleFetchJobs dateParse urlHref urlOrigin fetchHtml parseHTML
    now tza state
  = Part001.handleFetchJobs dateParse' urlHref urlOrigin fetchHtml parseHTML
      now tza state.
Proof.
  assert (E : forall links,
             Part001.foundJobsOf dateParse fetchHtml parseHTML now tza links
             = Part001.foundJobsOf dateParse' fetchHtml parseHTML now tza links).
  { intros links. unfold Part001.foundJobsOf.
    rewrite (foldM_ext _ (Part001.visitHtml dateParse' parseHTML
                            (localMidnight now tza) links)); [reflexivity|].
    intros [jobs i] html. unfold Part001.visitHtml.
    rewrite (part001_extractDeadline_host dateParse dateParse').
    reflexivity. }
  unfold Part001.handleFetchJobs, Part001.scan.
  destruct (truthy (Part001.url state)); [|reflexivity].
  destruct (fetchHtml (Part001.url state)) as [[html|]|e]; cbn [bind];
    try reflexivity.
  destruct (truthy html); [|reflexivity].
  destruct (Part001.discoverLinks _ _ _ _) as [[|l links]|e]; cbn [bind];
    try reflexivity.
  rewrite E. reflexivity.
Qed.

End NumericDeadline.

Module ScoreFacts.
Import Crawl TriggerFacts.

Lemma score_bounds (f : string -> bool) (l : list string) (acc : Z) :
  let r := fold_left (fun score keyword =>
                        if f keyword then score + 1 else score) l acc in
  acc <= r <= acc + Z.of_nat (List.length l).
Proof.
  revert acc. induction l as [|k l IH]; intros acc; cbn [fold_left List.length].
  - simpl. lia.
  - cbv zeta in IH |- *. rewrite Nat2Z.inj_succ.
    destruct (f k); [specialize (IH (acc + 1)) | specialize (IH acc)]; lia.
Qed.

Lemma score_mono (f g : string -> bool) (l : list string) :
  (forall k, f k = true -> g k = true) ->
  forall acc acc', acc <= acc' ->
    fold_left (fun score keyword => if f keyword then score + 1 else score) l acc
    <= fold_left (fun score keyword => if g keyword then score + 1 else score)
         l acc'.
Proof.
  intros Hfg. induction l as [|k l IH]; intros acc acc' Hle; cbn [fold_left].
  - exact Hle.
  - apply IH. destruct (f k) eqn:E.
    + rewrite (Hfg k E). lia.
    + destruct (g k); lia.
Qed.

Lemma startsWith_more (s t p : string) :
  Str.startsWith s p = true -> Str.startsWith (s ++ t) p = true.
Proof.
  revert s. induction p as [|a p IH]; intros s H;
    [destruct (s ++ t)%string; reflexivity|].
  destruct s as [|b s]; [discriminate|].
  simpl in *. apply andb_true_iff in H as [-> H]. apply IH. exact H.
Qed.

Lemma includes_more (s t p : string) :
  Str.includes s p = true -> Str.includes (s ++ t) p = true.
Proof.
  induction s as [|b s IH]; intros H.
  - rewrite includes_unfold in H. rewrite orb_false_r in H.
    destruct p; [|discriminate]. destruct t; reflexivity.
  - rewrite includes_unfold in H. simpl append. rewrite includes_unfold.
    apply orb_true_iff in H as [H|H]; apply orb_true_iff.
    + left. apply (startsWith_more (String b s)). exact H.
    + right. auto.
Qed.

Lemma includes_later (a s p : string) :
  Str.includes s p = true -> Str.includes (a ++ s) p = true.
Proof.
  intros H. induction a as [|b a IH]; [exact H|].
  simpl append. rewrite includes_unfold, IH. apply orb_true_r.
Qed.

Lemma lower_lower (c : ascii) : Str.lower (Str.lower c) = Str.lower c.
Proof. destruct c as [[] [] [] [] [] [] [] []]; reflexivity. Qed.

Lemma toLowerCase_idem (s : string) :
  Str.toLowerCase (Str.toLowerCase s) = Str.toLowerCase s.
Proof.
  induction s as [|c s IH]; [reflexivity|].
  change (Str.toLowerCase (String c s))
    with (String (Str.lower c) (Str.toLowerCase s)).
  change (Str.toLowerCase (String (Str.lower c) (Str.toLowerCase s)))
    with (String (Str.lower (Str.lower c))
            (Str.toLowerCase (Str.toLowerCase s))).
  rewrite lower_lower, IH. reflexivity.
Qed.

(** X7. The relevance score of a page lies between 0 and 7, does not change
    when the case of its letters changes, and does not go down when text is
    put before or after the text of the page. *)
Theorem relevanceScore_facts (body before after : string) :
  0 <= relevanceScore body <= 7 /\
  relevanceScore (Str.toLowerCase body) = relevanceScore body /\
  relevanceScore body <= relevanceScore (before ++ (body ++ after)).
Proof.
  unfold relevanceScore. cbv zeta. split; [|split].
  - pose proof (score_bounds (Str.includes (Str.toLowerCase body))
                  jobKeywords 0) as H.
    cbv zeta in H. change (Z.of_nat (List.length jobKeywords)) with 7 in H.
    exact H.
  - rewrite toLowerCase_idem. reflexivity.
  - apply score_mono; [|lia]. intros k H.
    rewrite !toLowerCase_app. apply includes_later, includes_more. exact H.
Qed.

End ScoreFacts.

Module DiscoveryTheorems.
Import Crawl Selection Elements DiscoveryFacts.

Lemma setAdd_has (x : string) (l : list string) : In x (setAdd x l).
Proof.
  unfold setAdd. destruct (existsb (String.eqb x) l) eqn:E.
  - apply existsb_exists in E as (y & Hy & E).
    apply String.eqb_eq in E. subst y. exact Hy.
  - apply in_or_app. right. left. reflexivity.
Qed.

Lemma setAdd_keeps (x y : string) (l : list string) :
  In y l -> In y (setAdd x l).
Proof.
  unfold setAdd. destruct (existsb (String.eqb x) l); auto.
  intros H. apply in_or_app. auto.
Qed.

Section Discover.

Variable urlHref : string -> string -> option string.
Variable urlOrigin : string -> option string.
Variable accept : string -> string -> bool.
Variable base : string.

Local Abbreviation visit := (visitAnchor urlHref urlOrigin accept base).
Local Abbreviation resolved := (Selection.resolved urlHref base).

Lemma visitAnchor_eq (postLinks : list string) (a : Anchor) :
  visit postLinks a =
  match resolved a with
  | None => Ret postLinks
  | Some h =>
      if truthy h then
        match urlOrigin base with
        | None => Throw "Invalid URL"
        | Some origin =>
            if Str.startsWith h origin && accept h (innerText a)
            then Ret (setAdd h postLinks)
            else Ret postLinks
        end
      else Ret postLinks
  end.
Proof. reflexivity. Qed.

(** With a seed address that has an origin, a turn of the loop returns: it
    adds the address of the anchor when the anchor selects one, and leaves
    the set as it is otherwise. *)
Lemma visitAnchor_returns (origin : string) (postLinks : list string)
    (a : Anchor) :
  urlOrigin base = Some origin ->
  (exists h, selects urlHref accept origin base a h /\
             visit postLinks a = Ret (setAdd h postLinks)) \/
  ((forall h, ~ selects urlHref accept origin base a h) /\
   visit postLinks a = Ret postLinks).
Proof.
  intros Ho. rewrite visitAnchor_eq. unfold selects.
  destruct (resolved a) as [h|]; [|right; split; [intros h (E & _); discriminate | reflexivity]].
  destruct (truthy h) eqn:Et;
    [|right; split; [intros h' (E & T & _); congruence | reflexivity]].
  rewrite Ho.
  destruct (Str.startsWith h origin) eqn:Es; cbn [andb];
    [|right; split; [intros h' (E & _ & S & _); congruence | reflexivity]].
  destruct (accept h (innerText a)) eqn:Ea;
    [|right; split; [intros h' (E & _ & _ & A); congruence | reflexivity]].
  left. exists h. auto.
Qed.

Lemma discover_from (origin : string) (l : list Anchor) :
  urlOrigin base = Some origin ->
  forall postLinks, exists links,
    foldM visit l postLinks = Ret links /\
    forall h, In h links <->
              In h postLinks \/
              exists a, In a l /\ selects urlHref accept origin base a h.
Proof.
  intros Ho. induction l as [|a l IH]; intros postLinks.
  - exists postLinks. split; [reflexivity|]. intros h. split; auto.
    intros [H|(a & [] & _)]. exact H.
  - cbn [foldM].
    destruct (visitAnchor_returns origin postLinks a Ho)
      as [(h0 & Hsel & ->)|(Hno & ->)]; cbn [bind].
    + destruct (IH (setAdd h0 postLinks)) as (links & -> & Hl).
      exists links. split; [reflexivity|]. intros h. rewrite Hl. split.
      * intros [H|(b & Hb & Hs)].
        -- apply setAdd_In in H as [->|H]; [|auto].
           right. exists a. split; [left; reflexivity | exact Hsel].
        -- right. exists b. split; [right; exact Hb | exact Hs].
      * intros [H|(b & [<-|Hb] & Hs)].
        -- left. apply setAdd_keeps. exact H.
        -- left. destruct Hsel as (E0 & _), Hs as (E & _).
           assert (h = h0) by congruence. subst h. apply setAdd_has.
        -- right. exists b. auto.
    + destruct (IH postLinks) as (links & -> & Hl).
      exists links. split; [reflexivity|]. intros h. rewrite Hl. split.
      * intros [H|(b & Hb & Hs)]; [auto|].
        right. exists b. split; [right; exact Hb | exact Hs].
      * intros [H|(b & [<-|Hb] & Hs)]; [auto | |].
        -- exfalso. exact (Hno h Hs).
        -- right. exists b. auto.
Qed.

(** Without an origin for the seed address, the loop goes on as long as no
    anchor has an address, and throws at the first one that has. *)
Lemma discover_without_origin (l : list Anchor) :
  urlOrigin base = None ->
  (Forall (fun a => forall h, resolved a = Some h -> truthy h = false) l /\
   foldM visit l [] = Ret []) \/
  (Exists (fun a => exists h, resolved a = Some h /\ truthy h = true) l /\
   foldM visit l [] = Throw "Invalid URL").
Proof.
  intros Ho. induction l as [|a l IH].
  - left. split; [constructor | reflexivity].
  - cbn [foldM]. rewrite visitAnchor_eq.
    destruct (resolved a) as [h|] eqn:Er.
    + destruct (truthy h) eqn:Et.
      * rewrite Ho. right. split; [|reflexivity].
        apply Exists_cons_hd. exists h. auto.
      * cbn [bind]. destruct IH as [[Hf ->]|[He ->]].
        -- left. split; [|reflexivity]. constructor; [|exact Hf].
           intros h' E. congruence.
        -- right. split; [|reflexivity]. apply Exists_cons_tl. exact He.
    + cbn [bind]. destruct IH as [[Hf ->]|[He ->]].
      * left. split; [|reflexivity]. constructor; [|exact Hf].
        intros h' E. congruence.
      * right. split; [|reflexivity]. apply Exists_cons_tl. exact He.
Qed.

End Discover.

Lemma elements_all_html (elements : list Element) :
  ~ In SvgAnchor elements -> elements = map HtmlAnchor (htmlAnchors elements).
Proof.
  induction elements as [|[a|] rest IH]; intros H; [reflexivity | |].
  - cbn [htmlAnchors map]. f_equal. apply IH.
    intros Hin. apply H. right. exact Hin.
  - exfalso. apply H. left. reflexivity.
Qed.

Lemma htmlAnchors_In (elements : list Element) (a : Anchor) :
  In a (htmlAnchors elements) <-> In (HtmlAnchor a) elements.
Proof.
  induction elements as [|[b|] rest IH]; cbn [htmlAnchors In].
  - tauto.
  - rewrite IH. split; intros [E|H]; auto; left; congruence.
  - rewrite IH. split; [auto | intros [E|H]; [discriminate | exact H]].
Qed.

Section Elements.

Variable urlHref : string -> string -> option string.
Variable urlOrigin : string -> option string.
Variable accept : string -> string -> bool.
Variable base : string.

Local Abbreviation visitE := (visitElement urlHref urlOrigin accept base).

Lemma discoverElements_html (l : list Anchor) (postLinks : list string) :
  foldM visitE (map HtmlAnchor l) postLinks
  = foldM (visitAnchor urlHref urlOrigin accept base) l postLinks.
Proof.
  revert postLinks. induction l as [|a l IH]; intros postLinks; [reflexivity|].
  cbn [map foldM visitElement].
  destruct (visitAnchor urlHref urlOrigin accept base postLinks a);
    cbn [bind]; auto.
Qed.

(** An SVG anchor among the elements stops the loop with an exception,
    at that element if not before. *)
Lemma discoverElements_svg (origin : string) (elements : list Element) :
  urlOrigin base = Some origin -> In SvgAnchor elements ->
  forall postLinks,
    foldM visitE elements postLinks
    = Throw "TypeError: href.startsWith is not a function".
Proof.
  intros Ho. induction elements as [|[a|] rest IH]; intros Hin postLinks.
  - destruct Hin.
  - cbn [foldM visitElement].
    destruct Hin as [E|Hin]; [discriminate|].
    destruct (visitAnchor_returns urlHref urlOrigin accept base origin
                postLinks a Ho) as [(h & _ & ->)|(_ & ->)]; cbn [bind]; auto.
  - reflexivity.
Qed.

End Elements.

(** X8. In each of the three files, when the seed address has an origin:
    if every selected element is an HTML anchor, whose [href] is a string,
    the discovery of links returns a list, and the list holds exactly the
    addresses selected by some anchor, the resolved address of the anchor,
    not empty, beginning with the origin and, in [src/App.jsx] and
    [unnamed/part_000], passing the keyword test, none left out and none
    twice; if some selected element is an [a] of SVG, whose [href] is an
    object, [href.startsWith] throws and the discovery returns no list.
    [discoverLinks] is the discovery on a page of HTML anchors. *)
Theorem discoverLinks_exact (urlHref : string -> string -> option string)
    (urlOrigin : string -> option string) (base origin : string)
    (elements : list Element) :
  urlOrigin base = Some origin ->
  (In SvgAnchor elements ->
   discoverElements urlHref urlOrigin hasJobKeyword base elements
   = Throw "TypeError: href.startsWith is not a function" /\
   discoverElements urlHref urlOrigin (fun _ _ => true) base elements
   = Throw "TypeError: href.startsWith is not a function") /\
  (~ In SvgAnchor elements ->
   (exists links,
      discoverElements urlHref urlOrigin hasJobKeyword base elements
      = Ret links /\
      NoDup links /\
      forall h, In h links <->
                exists a, In (HtmlAnchor a) elements /\
                          selects urlHref hasJobKeyword origin base a h) /\
   (exists links,
      discoverElements urlHref urlOrigin (fun _ _ => true) base elements
      = Ret links /\
      NoDup links /\
      forall h, In h links <->
                exists a, In (HtmlAnchor a) elements /\
                          selects urlHref (fun _ _ => true) origin base a h)) /\
  (forall doc,
     AppJsx.discoverLinks urlHref urlOrigin base doc
     = discoverElements urlHref urlOrigin hasJobKeyword base
         (map HtmlAnchor (anchors doc)) /\
     Part000.discoverLinks urlHref urlOrigin base doc
     = discoverElements urlHref urlOrigin hasJobKeyword base
         (map HtmlAnchor (anchors doc)) /\
     Part001.discoverLinks urlHref urlOrigin base doc
     = discoverElements urlHref urlOrigin (fun _ _ => true) base
         (map HtmlAnchor (anchors doc))).
Proof.
  intros Ho.
  assert (Hexact : forall accept,
             ~ In SvgAnchor elements ->
             exists links,
               discoverElements urlHref urlOrigin accept base elements
               = Ret links /\
               NoDup links /\
               forall h, In h links <->
                         exists a, In (HtmlAnchor a) elements /\
                                   selects urlHref accept origin base a h).
  { intros accept Hno. unfold discoverElements.
    destruct (discover_from urlHref urlOrigin accept base origin
                (htmlAnchors elements) Ho []) as (links & E & Hl).
    exists links. split.
    { rewrite (elements_all_html elements Hno), discoverElements_html.
      exact E. }
    split.
    - apply (discover_linkSet urlHref urlOrigin accept base
               (mkDocument (htmlAnchors elements) (fun _ => None) "")
               links E).
    - intros h. rewrite Hl. split.
      + intros [[]|(a & Ha & Hs)]. exists a.
        split; [apply htmlAnchors_In; exact Ha | exact Hs].
      + intros (a & Ha & Hs). right. exists a.
        split; [apply htmlAnchors_In; exact Ha | exact Hs]. }
  split; [|split].
  - intros Hin. unfold discoverElements.
    split; apply (discoverElements_svg _ _ _ _ origin); assumption.
  - intros Hno. split; apply Hexact; exact Hno.
  - intros doc.
    unfold AppJsx.discoverLinks, Part000.discoverLinks, Part001.discoverLinks,
      discover, discoverElements.
    rewrite !discoverElements_html. auto.
Qed.

Lemma discoverLinks_exact_witness :
  (discoverElements Scenario.urlHref Scenario.urlOrigin hasJobKeyword
     Scenario.seed
     [HtmlAnchor (mkAnchor Scenario.clerk "Clerk recruitment"); SvgAnchor]
   = Throw "TypeError: href.startsWith is not a function" /\
   discoverElements Scenario.urlHref Scenario.urlOrigin (fun _ _ => true)
     Scenario.seed
     [HtmlAnchor (mkAnchor Scenario.clerk "Clerk recruitment"); SvgAnchor]
   = Throw "TypeError: href.startsWith is not a function") /\
  (exists links,
     discoverElements Scenario.urlHref Scenario.urlOrigin hasJobKeyword
       Scenario.seed (map HtmlAnchor (anchors Scenario.seedDoc))
     = Ret links /\
     NoDup links /\
     forall h, In h links <->
               exists a, In (HtmlAnchor a)
                           (map HtmlAnchor (anchors Scenario.seedDoc)) /\
                         selects Scenario.urlHref hasJobKeyword
                           "https://www.example.org" Scenario.seed a h).
Proof.
  split.
  - apply (proj1 (discoverLinks_exact Scenario.urlHref Scenario.urlOrigin
                    Scenario.seed "https://www.example.org"
                    [HtmlAnchor (mkAnchor Scenario.clerk "Clerk recruitment");
                     SvgAnchor] eq_refl)).
    right. left. reflexivity.
  - apply (proj1 (proj2 (discoverLinks_exact Scenario.urlHref
                           Scenario.urlOrigin Scenario.seed
                           "https://www.example.org"
                           (map HtmlAnchor (anchors Scenario.seedDoc))
                           eq_refl))).
    simpl. intuition discriminate.
Defined.

(** X9. In each of the three files, when the seed address has no origin
    ([new URL] rejects it) the discovery either finds every anchor without
    an address and returns no link, or throws at the first anchor that has
    one: it never returns a link. *)
Theorem discoverLinks_without_origin
    (urlHref : string -> string -> option string)
    (urlOrigin : string -> option string) (base : string) (doc : Document) :
  urlOrigin base = None ->
  (Forall (fun a => forall h, Selection.resolved urlHref base a = Some h ->
                              truthy h = false) (anchors doc) /\
   AppJsx.discoverLinks urlHref urlOrigin base doc = Ret [] /\
   Part000.discoverLinks urlHref urlOrigin base doc = Ret [] /\
   Part001.discoverLinks urlHref urlOrigin base doc = Ret []) \/
  (Exists (fun a => exists h, Selection.resolved urlHref base a = Some h /\
                              truthy h = true) (anchors doc) /\
   AppJsx.discoverLinks urlHref urlOrigin base doc = Throw "Invalid URL" /\
   Part000.discoverLinks urlHref urlOrigin base doc = Throw "Invalid URL" /\
   Part001.discoverLinks urlHref urlOrigin base doc = Throw "Invalid URL").
Proof.
  intros Ho.
  unfold AppJsx.discoverLinks, Part000.discoverLinks, Part001.discoverLinks,
    discover.
  destruct (discover_without_origin urlHref urlOrigin hasJobKeyword base
              (anchors doc) Ho) as [[Hf E1]|[He E1]];
    destruct (discover_without_origin urlHref urlOrigin (fun _ _ => true) base
                (anchors doc) Ho) as [[Hf' E2]|[He' E2]].
  - left. auto.
  - exfalso. apply Exists_exists in He' as (a & Ha & h & E & T).
    rewrite Forall_forall in Hf. specialize (Hf a Ha h E). congruence.
  - exfalso. apply Exists_exists in He as (a & Ha & h & E & T).
    rewrite Forall_forall in Hf'. specialize (Hf' a Ha h E). congruence.
  - right. auto.
Qed.

Lemma discoverLinks_without_origin_witness :
  (Forall (fun a => forall h,
             Selection.resolved Scenario.urlHref "nowhere" a = Some h ->
             truthy h = false) (anchors Scenario.seedDoc) /\
   AppJsx.discoverLinks Scenario.urlHref Scenario.urlOrigin "nowhere"
     Scenario.seedDoc = Ret [] /\
   Part000.discoverLinks Scenario.urlHref Scenario.urlOrigin "nowhere"
     Scenario.seedDoc = Ret [] /\
   Part001.discoverLinks Scenario.urlHref Scenario.urlOrigin "nowhere"
     Scenario.seedDoc = Ret []) \/
  (Exists (fun a => exists h,
             Selection.resolved Scenario.urlHref "nowhere" a = Some h /\
             truthy h = true) (anchors Scenario.seedDoc) /\
   AppJsx.discoverLinks Scenario.urlHref Scenario.urlOrigin "nowhere"
     Scenario.seedDoc = Throw "Invalid URL" /\
   Part000.discoverLinks Scenario.urlHref Scenario.urlOrigin "nowhere"
     Scenario.seedDoc = Throw "Invalid URL" /\
   Part001.discoverLinks Scenario.urlHref Scenario.urlOrigin "nowhere"
     Scenario.seedDoc = Throw "Invalid URL").
Proof.
  apply (discoverLinks_without_origin Scenario.urlHref Scenario.urlOrigin
           "nowhere" Scenario.seedDoc).
  vm_compute. reflexivity.
Defined.

End DiscoveryTheorems.

Module SelectionFacts.
Import Regex Patterns Crawl Selection LoopFacts.

Lemma existsb_link_absent (postUrl : string) (jobs : list Job) :
  ~ In postUrl (map link jobs) ->
  existsb (fun job => String.eqb (link job) postUrl) jobs = false.
Proof.
  induction jobs as [|j jobs IH]; simpl; [reflexivity|]. intros H.
  apply orb_false_iff. split.
  - apply String.eqb_neq. intros E. apply H. left. exact E.
  - apply IH. intros Hin. apply H. right. exact Hin.
Qed.

Lemma NoDup_app_head (l : list string) (x : string) (r : list string) :
  NoDup (l ++ x :: r) -> ~ In x l /\ NoDup ((l ++ [x]) ++ r).
Proof.
  intros H. split.
  - apply NoDup_remove_2 in H. intros Hx. apply H. apply in_or_app. auto.
  - rewrite <- app_assoc. exact H.
Qed.

Lemma fetched_links (fetchHtml : string -> js (option string))
    (links : list string) :
  map fst (validOf (fetchAll fetchHtml links)) = filter (fetched fetchHtml) links.
Proof.
  induction links as [|l links IH]; [reflexivity|].
  cbn [fetchAll map validOf filter]. unfold fetched at 1.
  fold (fetchAll fetchHtml links).
  destruct (fetchHtml l) as [[html|]|e]; cbn [map fst validOf]; congruence.
Qed.

Section Loop.

Variable fetchHtml : string -> js (option string).
Variable parseHTML : string -> Document.
Variable parseDate : option string -> js (option Z).
Variable long : string -> bool.
Variable today : Z.
Hypothesis parseDate_returns : forall x, exists r, parseDate x = Ret r.

Local Abbreviation deadlineOf := (extractDeadline parseDate today).
Local Abbreviation visit := (visitResult parseHTML parseDate long today).
Local Abbreviation pageJob :=
  (Selection.pageJob parseHTML deadlineOf (findTitle long)).
Local Abbreviation jobsOfLinks :=
  (Selection.jobsOfLinks fetchHtml parseHTML deadlineOf (findTitle long)).

Lemma extractJobs_from (validResults : list (string * string)) :
  forall acc,
    NoDup (map link acc ++ map fst validResults) ->
    foldM visit validResults acc
    = Ret (acc ++ flat_map (fun r => pageJob (fst r) (snd r)) validResults).
Proof.
  induction validResults as [|[u html] rest IH]; intros acc Hn.
  - cbn [foldM flat_map]. rewrite app_nil_r. reflexivity.
  - cbn [foldM flat_map fst snd]. cbn [visitResult]. cbn [map fst] in Hn.
    unfold Selection.pageJob at 1.
    destruct (extractDeadline_returns parseDate today parseDate_returns
                (bodyText (parseHTML html))) as (d & -> & _).
    cbn [bind]. destruct d as [t|].
    + destruct (NoDup_app_head _ _ _ Hn) as [Hu Hn'].
      rewrite (existsb_link_absent u acc Hu). cbn [bind].
      rewrite IH by (rewrite map_app; exact Hn').
      rewrite <- app_assoc. reflexivity.
    + cbn [bind app]. apply IH. exact (NoDup_remove_1 _ _ _ Hn).
Qed.

Lemma jobs_of_results (links : list string) :
  flat_map (fun r => pageJob (fst r) (snd r)) (validOf (fetchAll fetchHtml links))
  = jobsOfLinks links.
Proof.
  unfold Selection.jobsOfLinks.
  induction links as [|l links IH]; [reflexivity|].
  cbn [fetchAll map validOf flat_map]. unfold Selection.linkJob at 1.
  fold (fetchAll fetchHtml links).
  destruct (fetchHtml l) as [[html|]|e]; cbn [validOf flat_map fst snd];
    rewrite IH; reflexivity.
Qed.

Lemma extractJobs_links (links : list string) :
  NoDup links ->
  extractJobs parseHTML parseDate long today
    (validOf (fetchAll fetchHtml links)) = Ret (jobsOfLinks links).
Proof.
  intros Hn. unfold extractJobs. rewrite extractJobs_from.
  - rewrite jobs_of_results. reflexivity.
  - cbn [map app]. rewrite fetched_links. apply NoDup_filter. exact Hn.
Qed.

End Loop.

Section Part001Loop.

Variable dateParse : string -> option Z.
Variable fetchHtml : string -> js (option string).
Variable parseHTML : string -> Document.
Variable today : Z.

Local Abbreviation deadlineOf := (Part001.extractDeadline dateParse today).
Local Abbreviation linkJob :=
  (Selection.linkJob fetchHtml parseHTML deadlineOf Part001.titleOf).

Lemma Part001_loop_from (uniqueLinks : list string) (rest : list string) :
  forall pre acc,
    uniqueLinks = pre ++ rest -> NoDup uniqueLinks ->
    incl (map link acc) pre ->
    Forall (fun l => fetched fetchHtml l = true) rest ->
    foldM (Part001.visitHtml dateParse parseHTML today uniqueLinks)
      (Part001.validHtmlsOf (Part001.postHtmlsOf fetchHtml rest))
      (acc, List.length pre)
    = Ret (acc ++ flat_map linkJob rest, List.length uniqueLinks).
Proof.
  induction rest as [|l rest IH]; intros pre acc E Hn Hacc Hf.
  - cbn [Part001.postHtmlsOf map Part001.validHtmlsOf foldM flat_map].
    rewrite !app_nil_r in *. subst pre. reflexivity.
  - inversion Hf as [|? ? Hl Hrest]; subst.
    cbn [Part001.postHtmlsOf map flat_map].
    fold (Part001.postHtmlsOf fetchHtml rest).
    unfold fetched in Hl. unfold Selection.linkJob at 1.
    destruct (fetchHtml l) as [[html|]|e]; try discriminate.
    cbn [Part001.validHtmlsOf foldM]. cbn [Part001.visitHtml].
    rewrite app_nth2 by lia. rewrite Nat.sub_diag. cbn [nth].
    unfold Selection.pageJob.
    destruct (Part001_extractDeadline_returns dateParse today
                (bodyText (parseHTML html))) as (d & -> & _).
    cbn [bind].
    assert (Hpre : S (List.length pre) = List.length (pre ++ [l])).
    { rewrite length_app. simpl. lia. }
    assert (Hlinks : pre ++ l :: rest = (pre ++ [l]) ++ rest).
    { rewrite <- app_assoc. reflexivity. }
    destruct d as [t|].
    + rewrite existsb_link_absent.
      2:{ intros Hin. apply Hacc in Hin.
          apply NoDup_remove_2 in Hn. apply Hn. apply in_or_app. auto. }
      cbn [bind]. rewrite Hpre.
      rewrite (IH (pre ++ [l])); auto.
      * rewrite <- app_assoc. reflexivity.
      * rewrite map_app. apply incl_app.
        -- apply incl_appl. exact Hacc.
        -- apply incl_appr. apply incl_refl.
    + cbn [bind app]. rewrite Hpre. rewrite (IH (pre ++ [l])); auto.
      apply incl_appl. exact Hacc.
Qed.

End Part001Loop.
End SelectionFacts.

Module SelectionTheorems.
Import Crawl Selection SelectionFacts.





End SelectionTheorems.

Module OrderFacts.
Import Crawl Ordering.

Lemma insertBy_perm (cmp : Job -> Job -> Z) (x : Job) (l : list Job) :
  Permutation (insertBy cmp x l) (x :: l).
Proof.
  induction l as [|y l IH]; cbn [insertBy]; [apply Permutation_refl|].
  destruct (cmp x y <=? 0); [apply Permutation_refl|].
  eapply perm_trans; [apply perm_skip, IH | apply perm_swap].
Qed.

Lemma sortBy_perm (cmp : Job -> Job -> Z) (l : list Job) :
  Permutation (sortBy cmp l) l.
Proof.
  induction l as [|x l IH]; [apply Permutation_refl|].
  unfold sortBy. cbn [fold_right]. fold (sortBy cmp l).
  eapply perm_trans; [apply insertBy_perm | apply perm_skip, IH].
Qed.

Lemma insertBy_sorted (x : Job) (l : list Job) :
  sortedByDeadline l -> sortedByDeadline (insertBy ascending x l).
Proof.
  unfold sortedByDeadline. intros H.
  induction H as [|y l Hl IH Hy]; cbn [insertBy].
  - constructor; constructor.
  - unfold ascending at 1. destruct (lastDate x - lastDate y <=? 0) eqn:E.
    + apply Z.leb_le in E. constructor; [constructor; assumption|].
      constructor; [unfold byDeadline; lia|].
      eapply Forall_impl; [|exact Hy]. unfold byDeadline. intros z Hz. lia.
    + apply Z.leb_gt in E. constructor; [exact IH|].
      eapply Permutation_Forall; [apply Permutation_sym, insertBy_perm|].
      constructor; [unfold byDeadline; lia | exact Hy].
Qed.

Lemma sortBy_sorted (l : list Job) : sortedByDeadline (sortBy ascending l).
Proof.
  induction l as [|x l IH]; [constructor|].
  unfold sortBy. cbn [fold_right]. apply insertBy_sorted. exact IH.
Qed.

Lemma wellFormed_perm (today : Z) (l l' : list Job) :
  Permutation l l' -> wellFormed today l -> wellFormed today l'.
Proof.
  intros P [Hn Hf]. split.
  - eapply Permutation_NoDup; [apply Permutation_map; exact P | exact Hn].
  - eapply Permutation_Forall; eassumption.
Qed.

Lemma sortBy_wellFormed (today : Z) (l : list Job) :
  wellFormed today l -> wellFormed today (sortBy ascending l).
Proof. apply wellFormed_perm, Permutation_sym, sortBy_perm. Qed.

Lemma sortBy_nil (cmp : Job -> Job -> Z) (l : list Job) :
  sortBy cmp l = [] -> l = [].
Proof.
  intros E. apply Permutation_nil. rewrite <- E. apply sortBy_perm.
Qed.

End OrderFacts.

Module OutcomeTheorems.
Import Crawl Ordering OrderFacts.

Ltac settle :=
  solve [cbn; repeat (split || intro); auto; try discriminate;
         try constructor].

(** X12. In [unnamed/part_000], whatever the host answers, a run of
    [handleFetchJobs] on a state with an address ends with the loading flag
    off, the status line empty, page 1 and the address and both filters as
    they were; the job list it leaves is sorted by deadline, has no link
    twice and no deadline before [today], and is empty whenever an error
    message is set. On a state without an address only the error message
    and the two progress fields change. *)
Theorem part000_run_outcome (dateParse : string -> option Z)
    (urlHref : string -> string -> option string)
    (urlOrigin : string -> option string)
    (fetchHtml : string -> js (option string))
    (parseHTML : string -> Document) (now tza : Z) (state : Part000.State) :
  let final := Part000.handleFetchJobs dateParse urlHref urlOrigin fetchHtml
                 parseHTML now tza state in
  Part000.url final = Part000.url state /\
  Part000.filterDate final = Part000.filterDate state /\
  Part000.showNextSixMonths final = Part000.showNextSixMonths state /\
  Part000.isLoading final = false /\ Part000.status final = "" /\
  (truthy (Part000.url state) = true ->
   Part000.page final = 1 /\
   (Part000.error final = "" \/ Part000.jobs final = []) /\
   sortedByDeadline (Part000.jobs final) /\
   wellFormed (localMidnight now tza) (Part000.jobs final)) /\
  (truthy (Part000.url state) = false ->
   Part000.page final = Part000.page state /\
   Part000.jobs final = Part000.jobs state /\
   Part000.error final = "Please enter a website URL.").
Proof.
  assert (Hempty : sortedByDeadline [] /\ wellFormed (localMidnight now tza) []).
  { split; [constructor | split; constructor]. }
  destruct Hempty as [Hs Hw].
  unfold Part000.handleFetchJobs, Part000.dispatched.
  destruct (truthy (Part000.url state)); cbn [fold_left]; [|settle].
  unfold Part000.scan.
  destruct (fetchHtml _) as [[html|]|e]; try settle.
  destruct (truthy html); [|settle].
  destruct (Part000.discoverLinks _ _ _ _) as [[|l links]|e]; try settle.
  destruct (LoopFacts.extractJobs_invariant parseHTML
              (Part000.parseDate dateParse) Part000.long
              (localMidnight now tza)
              (ParserFacts.Part000_parseDate_returns dateParse)
              (validOf (fetchAll fetchHtml (l :: links))))
    as (found & E & Hfound).
  unfold Part000.foundJobsOf. rewrite E.
  cbn [fold_left Part000.crawlerReducer Part000.url Part000.filterDate
       Part000.showNextSixMonths Part000.isLoading Part000.status
       Part000.page Part000.error Part000.jobs].
  repeat match goal with
         | |- _ /\ _ => split
         | |- _ -> _ => intro
         end; auto; try discriminate.
  - apply sortBy_sorted.
  - apply sortBy_wellFormed. exact Hfound.
Qed.

Lemma part000_run_outcome_witness :
  let final := Part000.handleFetchJobs Scenario.noDateParse Scenario.urlHref
                 Scenario.urlOrigin Scenario.fetchHtml Scenario.parseHTML
                 Scenario.now Scenario.tza Scenario.seedState in
  Part000.page final = 1 /\
  (Part000.error final = "" \/ Part000.jobs final = []) /\
  sortedByDeadline (Part000.jobs final) /\
  wellFormed (localMidnight Scenario.now Scenario.tza) (Part000.jobs final).
Proof.
  apply (proj1 (proj2 (proj2 (proj2 (proj2 (proj2
           (part000_run_outcome Scenario.noDateParse Scenario.urlHref
              Scenario.urlOrigin Scenario.fetchHtml Scenario.parseHTML
              Scenario.now Scenario.tza Scenario.seedState))))))).
  vm_compute. reflexivity.
Defined.

Lemma Part001_foundJobs_wellFormed (dateParse : string -> option Z)
    (fetchHtml : string -> js (option string)) (parseHTML : string -> Document)
    (now tza : Z) (uniqueLinks : list string) :
  exists jobs,
    Part001.foundJobsOf dateParse fetchHtml parseHTML now tza uniqueLinks
    = Ret jobs /\ wellFormed (localMidnight now tza) jobs.
Proof.
  unfold Part001.foundJobsOf.
  destruct (LoopFacts.foldM_invariant
              (Part001.visitHtml dateParse parseHTML (localMidnight now tza)
                 uniqueLinks)
              (fun acc => wellFormed (localMidnight now tza) (fst acc)))
    with (l := Part001.validHtmlsOf (Part001.postHtmlsOf fetchHtml uniqueLinks))
         (a := (@nil Job, O)) as (acc & -> & Hacc).
  - intros a x. apply LoopFacts.Part001_visitHtml_invariant.
  - split; constructor.
  - cbn [bind]. eauto.
Qed.

(** X13. In [unnamed/part_001], whatever the host answers, a run of
    [handleFetchJobs] on a state with an address ends with the loading flag
    off, the status line empty, page 1, no job marked as copied and the
    address as it was; an error message is set exactly when the job list is
    left empty, and the job list is sorted by deadline, has no link twice
    and no deadline before [today]. On a state without an address only the
    error message changes. *)
Theorem part001_run_outcome (dateParse : string -> option Z)
    (urlHref : string -> string -> option string)
    (urlOrigin : string -> option string)
    (fetchHtml : string -> js (option string))
    (parseHTML : string -> Document) (now tza : Z) (state : Part001.State) :
  let final := Part001.handleFetchJobs dateParse urlHref urlOrigin fetchHtml
                 parseHTML now tza state in
  Part001.url final = Part001.url state /\
  (truthy (Part001.url state) = true ->
   Part001.isLoading final = false /\ Part001.status final = "" /\
   Part001.page final = 1 /\ Part001.copiedJob final = None /\
   (Part001.error final = "" <-> Part001.jobs final <> []) /\
   sortedByDeadline (Part001.jobs final) /\
   wellFormed (localMidnight now tza) (Part001.jobs final)) /\
  (truthy (Part001.url state) = false ->
   Part001.isLoading final = Part001.isLoading state /\
   Part001.status final = Part001.status state /\
   Part001.page final = Part001.page state /\
   Part001.copiedJob final = Part001.copiedJob state /\
   Part001.jobs final = Part001.jobs state /\
   Part001.error final = "Please enter a website URL.").
Proof.
  assert (Hs : sortedByDeadline []) by constructor.
  assert (Hw : wellFormed (localMidnight now tza) [])
    by (split; constructor).
  assert (Hfail : forall message,
             let final := Part001.mkState (Part001.url state) [] false
                            message None "" 1 in
             message <> "" ->
             Part001.url final = Part001.url state /\
             (true = true ->
              Part001.isLoading final = false /\ Part001.status final = "" /\
              Part001.page final = 1 /\ Part001.copiedJob final = None /\
              (Part001.error final = "" <-> Part001.jobs final <> []) /\
              sortedByDeadline (Part001.jobs final) /\
              wellFormed (localMidnight now tza) (Part001.jobs final)) /\
             (true = false ->
              Part001.isLoading final = Part001.isLoading state /\
              Part001.status final = Part001.status state /\
              Part001.page final = Part001.page state /\
              Part001.copiedJob final = Part001.copiedJob state /\
              Part001.jobs final = Part001.jobs state /\
              Part001.error final = "Please enter a website URL.")).
  { intros message final Hm. subst final. cbn.
    repeat match goal with
           | |- _ /\ _ => split
           | |- _ <-> _ => split
           | |- _ -> _ => intro
           end; auto; try discriminate; congruence. }
  unfold Part001.handleFetchJobs. cbv zeta.
  destruct (truthy (Part001.url state));
    [|cbn; repeat match goal with
                  | |- _ /\ _ => split
                  | |- _ -> _ => intro
                  end; auto; discriminate].
  unfold Part001.scan.
  destruct (fetchHtml (Part001.url state)) as [[html|]|e]; cbn [bind];
    try (apply Hfail; discriminate).
  destruct (truthy html);
    [|apply Hfail; discriminate].
  destruct (Part001.discoverLinks _ _ _ _) as [[|l links]|e]; cbn [bind];
    try (apply Hfail; discriminate).
  destruct (Part001_foundJobs_wellFormed dateParse fetchHtml parseHTML now tza
              (l :: links)) as (found & -> & Hfound).
  destruct found as [|j found];
    [apply Hfail; discriminate|].
  cbn [Part001.url Part001.isLoading Part001.status Part001.page
       Part001.copiedJob Part001.error Part001.jobs].
  repeat match goal with
         | |- _ /\ _ => split
         | |- _ <-> _ => split
         | |- _ -> _ => intro
         end; auto; try discriminate.
  - intros E. apply sortBy_nil in E. discriminate.
  - apply sortBy_sorted.
  - apply sortBy_wellFormed. exact Hfound.
Qed.

Lemma part001_run_outcome_witness :
  let final := Part001.handleFetchJobs Scenario.noDateParse Scenario.urlHref
                 Scenario.urlOrigin Scenario.fetchHtml Scenario.parseHTML
                 Scenario.now Scenario.tza
                 (Part001.mkState Scenario.seed [] false "" None "" 1) in
  Part001.isLoading final = false /\ Part001.status final = "" /\
  Part001.page final = 1 /\ Part001.copiedJob final = None /\
  (Part001.error final = "" <-> Part001.jobs final <> []) /\
  sortedByDeadline (Part001.jobs final) /\
  wellFormed (localMidnight Scenario.now Scenario.tza) (Part001.jobs final).
Proof.
  apply (proj1 (proj2
           (part001_run_outcome Scenario.noDateParse Scenario.urlHref
              Scenario.urlOrigin Scenario.fetchHtml Scenario.parseHTML
              Scenario.now Scenario.tza
              (Part001.mkState Scenario.seed [] false "" None "" 1)))).
  vm_compute. reflexivity.
Defined.

End OutcomeTheorems.

Module UrlFacts.
Import Crawl TriggerFacts.

(** The text is empty or begins with a character that is not white space. *)
Lemma trimStart_fixed (s : string) :
  match s with
  | EmptyString => True
  | String c _ => Str.is_space c = false
  end -> Str.trimStart s = s.
Proof. destruct s as [|c s]; simpl; [reflexivity|]. intros ->. reflexivity. Qed.

Lemma trimStart_head (s : string) :
  match Str.trimStart s with
  | EmptyString => True
  | String c _ => Str.is_space c = false
  end.
Proof.
  induction s as [|c s IH]; simpl; [exact I|].
  destruct (Str.is_space c) eqn:E; [exact IH | exact E].
Qed.

Lemma trimEnd_cons (c : ascii) (s : string) :
  Str.trimEnd (String c s) =
  match Str.trimEnd s with
  | EmptyString => if Str.is_space c then EmptyString else String c EmptyString
  | r => String c r
  end.
Proof. reflexivity. Qed.

Lemma trimEnd_head (s : string) :
  match s with
  | EmptyString => True
  | String c _ => Str.is_space c = false
  end ->
  match Str.trimEnd s with
  | EmptyString => True
  | String c _ => Str.is_space c = false
  end.
Proof.
  destruct s as [|c s]; [auto|]. intros H. rewrite trimEnd_cons.
  destruct (Str.trimEnd s); [rewrite H|]; exact H.
Qed.

Lemma trimEnd_idem (s : string) : Str.trimEnd (Str.trimEnd s) = Str.trimEnd s.
Proof.
  induction s as [|c s IH]; [reflexivity|]. rewrite trimEnd_cons.
  destruct (Str.trimEnd s) as [|d r] eqn:E.
  - destruct (Str.is_space c) eqn:Ec; [reflexivity|].
    rewrite trimEnd_cons. simpl Str.trimEnd. rewrite Ec. reflexivity.
  - rewrite trimEnd_cons, IH. reflexivity.
Qed.

Lemma trim_idem (s : string) : Str.trim (Str.trim s) = Str.trim s.
Proof.
  unfold Str.trim.
  rewrite (trimStart_fixed (Str.trimEnd (Str.trimStart s))).
  - apply trimEnd_idem.
  - apply trimEnd_head, trimStart_head.
Qed.

Lemma trimEnd_after (c : ascii) (s : string) :
  Str.is_space c = false ->
  Str.trimEnd (String c s) = String c (Str.trimEnd s).
Proof.
  intros H. rewrite trimEnd_cons.
  destruct (Str.trimEnd s); [rewrite H|]; reflexivity.
Qed.

Lemma trim_https (s : string) :
  Str.trim ("https://" ++ Str.trim s) = ("https://" ++ Str.trim s)%string.
Proof.
  unfold Str.trim at 1. cbn [append Str.trimStart].
  change (Str.is_space "h") with false. cbv iota.
  repeat (rewrite trimEnd_after by reflexivity).
  unfold Str.trim. rewrite trimEnd_idem. reflexivity.
Qed.

End UrlFacts.

Module UrlTheorems.
Import Crawl TriggerFacts UrlFacts.

(** X14. The address the scan works on in [src/App.jsx] and
    [unnamed/part_000] begins with [http://] or [https://] and has no white
    space around it; correcting it once more changes nothing; and an address
    that begins with one of the two schemes once trimmed is only trimmed. *)
Theorem correctUrl_facts (url : string) :
  (Str.startsWith (correctUrl url) "http://" = true \/
   Str.startsWith (correctUrl url) "https://" = true) /\
  Str.trim (correctUrl url) = correctUrl url /\
  correctUrl (correctUrl url) = correctUrl url /\
  (Str.startsWith (Str.trim url) "http://" = true \/
   Str.startsWith (Str.trim url) "https://" = true ->
   correctUrl url = Str.trim url).
Proof.
  assert (H1 : Str.startsWith (correctUrl url) "http://" = true \/
               Str.startsWith (correctUrl url) "https://" = true).
  { unfold correctUrl. cbv zeta.
    destruct (Str.startsWith (Str.trim url) "http://") eqn:E1; cbn [negb andb];
      [left; exact E1|].
    destruct (Str.startsWith (Str.trim url) "https://") eqn:E2; cbn [negb];
      right; [exact E2 | apply startsWith_app]. }
  assert (H2 : Str.trim (correctUrl url) = correctUrl url).
  { unfold correctUrl. cbv zeta.
    destruct (negb _ && negb _); [apply trim_https | apply trim_idem]. }
  split; [exact H1|]. split; [exact H2|]. split.
  - unfold correctUrl at 1. cbv zeta. rewrite H2.
    destruct H1 as [-> | ->]; cbn [negb andb]; [reflexivity|].
    rewrite andb_false_r. reflexivity.
  - unfold correctUrl. cbv zeta. intros [-> | ->]; cbn [negb andb];
      [reflexivity|]. rewrite andb_false_r. reflexivity.
Qed.

Lemma correctUrl_facts_witness :
  correctUrl "  http://example.org/jobs " = Str.trim "  http://example.org/jobs ".
Proof.
  apply (proj2 (proj2 (proj2 (correctUrl_facts "  http://example.org/jobs ")))).
  left. vm_compute. reflexivity.
Defined.

End UrlTheorems.

Module NearestFacts.
Import Crawl OrderFacts.

Lemma filter_all {A : Type} (l : list A) : filter (fun _ => true) l = l.
Proof. induction l as [|x l IH]; simpl; congruence. Qed.

Lemma filter_twice {A : Type} (f g : A -> bool) (l : list A) :
  filter f (filter g l) = filter (fun x => g x && f x) l.
Proof.
  induction l as [|x l IH]; simpl; [reflexivity|].
  destruct (g x); simpl; [destruct (f x)|]; congruence.
Qed.

Lemma filter_none {A : Type} (f : A -> bool) (l : list A) :
  (forall x, f x = false) -> filter f l = [].
Proof.
  intros H. induction l as [|x l IH]; simpl; [reflexivity|].
  rewrite H. exact IH.
Qed.

Lemma filter_none_in {A : Type} (f : A -> bool) (l : list A) :
  (forall x, In x l -> f x = false) -> filter f l = [].
Proof.
  intros H. induction l as [|x l IH]; simpl; [reflexivity|].
  rewrite (H x) by (left; reflexivity). apply IH.
  intros y Hy. apply H. right. exact Hy.
Qed.

Lemma length_positive {A : Type} (l : list A) :
  (0 <? List.length l)%nat = false -> l = [].
Proof. destruct l; [reflexivity | discriminate]. Qed.

(** The three ways the filter of [src/App.jsx] ends: no target, jobs due on
    the target, or the jobs due on the latest date [M] on or before it. *)
Lemma deadlineFilter_cases (dateParse : string -> option Z)
    (filterDate : string) (foundJobs : list Job) :
  let exact := fun job => String.eqb (JSDate.isoDate (lastDate job)) filterDate in
  let before := fun job => onOrBefore (lastDate job) (dateParse filterDate) in
  (truthy filterDate = false /\
   AppJsx.deadlineFilter dateParse filterDate foundJobs = foundJobs) \/
  (truthy filterDate = true /\ filter exact foundJobs <> [] /\
   AppJsx.deadlineFilter dateParse filterDate foundJobs
   = filter exact foundJobs) \/
  (truthy filterDate = true /\ filter exact foundJobs = [] /\
   exists M,
     AppJsx.deadlineFilter dateParse filterDate foundJobs
     = filter (fun job => before job && dueOn M job) foundJobs).
Proof.
  intros exact before. unfold AppJsx.deadlineFilter.
  destruct (truthy filterDate); [|left; auto]. right.
  fold exact. fold before.
  destruct (0 <? List.length (filter exact foundJobs))%nat eqn:E.
  - left. repeat split; auto. intros E'. rewrite E' in E. discriminate.
  - right. apply length_positive in E. repeat split; auto.
    destruct (sortBy descending (filter before foundJobs)) as [|nearest rest]
      eqn:Es.
    + exists 0. apply sortBy_nil in Es.
      rewrite <- filter_twice, Es. reflexivity.
    + exists (lastDate nearest). rewrite <- Es.
      change (fun job : Job => lastDate job =? lastDate nearest)
        with (dueOn (lastDate nearest)).
      rewrite FilterFacts.filter_sortBy. apply filter_twice.
Qed.

End NearestFacts.

Module NearestTheorems.
Import Crawl NearestFacts.

(** X15. The date filter of [src/App.jsx] only removes jobs: what it
    returns is the found list with some jobs left out, in the order found,
    although it sorts on the way. With an empty target it removes nothing;
    with a target, the jobs it returns all fall on one calendar day, and
    each is due on the target day or no later than the target as the host
    reads it; if the host cannot read the target and no job is due on it,
    it returns nothing. *)
Theorem deadlineFilter_only_removes (dateParse : string -> option Z)
    (filterDate : string) (foundJobs : list Job) :
  let shown := AppJsx.deadlineFilter dateParse filterDate foundJobs in
  (exists keep, shown = filter keep foundJobs) /\
  (truthy filterDate = false -> shown = foundJobs) /\
  (truthy filterDate = true ->
   (forall j j', In j shown -> In j' shown ->
                 JSDate.isoDate (lastDate j) = JSDate.isoDate (lastDate j')) /\
   (forall j, In j shown ->
              JSDate.isoDate (lastDate j) = filterDate \/
              onOrBefore (lastDate j) (dateParse filterDate) = true) /\
   (dateParse filterDate = None ->
    (forall j, In j foundJobs -> JSDate.isoDate (lastDate j) <> filterDate) ->
    shown = [])).
Proof.
  cbv zeta.
  destruct (deadlineFilter_cases dateParse filterDate foundJobs)
    as [[Ht ->]|[(Ht & Hne & ->)|(Ht & He & M & ->)]].
  - split; [exists (fun _ => true); symmetry; apply filter_all|].
    split; [reflexivity | congruence].
  - split; [eexists; reflexivity|]. split; [congruence|]. intros _.
    split; [|split].
    + intros j j' Hj Hj'. apply filter_In in Hj as [_ Hj], Hj' as [_ Hj'].
      apply String.eqb_eq in Hj, Hj'. congruence.
    + intros j Hj. apply filter_In in Hj as [_ Hj].
      apply String.eqb_eq in Hj. auto.
    + intros _ Hno. exfalso. apply Hne.
      destruct (filter _ foundJobs) as [|j rest] eqn:E; [reflexivity|].
      assert (Hj : In j (filter
                 (fun job => String.eqb (JSDate.isoDate (lastDate job)) filterDate)
                 foundJobs)) by (rewrite E; left; reflexivity).
      apply filter_In in Hj as [Hin Hj]. apply String.eqb_eq in Hj.
      exfalso. exact (Hno j Hin Hj).
  - split; [eexists; reflexivity|]. split; [congruence|]. intros _.
    split; [|split].
    + intros j j' Hj Hj'. apply filter_In in Hj as [_ Hj], Hj' as [_ Hj'].
      apply andb_true_iff in Hj as [_ Hj], Hj' as [_ Hj'].
      unfold dueOn in *. apply Z.eqb_eq in Hj, Hj'. congruence.
    + intros j Hj. apply filter_In in Hj as [_ Hj].
      apply andb_true_iff in Hj as [Hj _]. auto.
    + intros Hnone _. rewrite Hnone. apply filter_none. reflexivity.
Qed.

Lemma deadlineFilter_only_removes_witness :
  AppJsx.deadlineFilter Scenario.noDateParse "2025-01-17"
    [Scenario.job10; Scenario.job15; Scenario.job20] = [].
Proof.
  destruct (proj2 (proj2 (deadlineFilter_only_removes Scenario.noDateParse
                            "2025-01-17"
                            [Scenario.job10; Scenario.job15; Scenario.job20])))
    as (_ & _ & H); [vm_compute; reflexivity|].
  apply H; [reflexivity|].
  intros j [<-|[<-|[<-|[]]]]; vm_compute; discriminate.
Defined.

End NearestTheorems.

Module PrefixTheorems.
Import Crawl Ordering NearestFacts.

Lemma filter_le_prefix (T : Z) (l : list Job) :
  sortedByDeadline l ->
  exists k, filter (fun j => lastDate j <=? T) l = firstn k l.
Proof.
  unfold sortedByDeadline. intros H.
  induction H as [|y l Hl IH Hy]; [exists O; reflexivity|].
  cbn [filter]. destruct (lastDate y <=? T) eqn:E.
  - destruct IH as (k & ->). exists (S k). reflexivity.
  - exists O. apply Z.leb_gt in E. cbn [firstn]. apply filter_none_in.
    intros z Hz. rewrite Forall_forall in Hy. specialize (Hy z Hz).
    unfold byDeadline in Hy. apply Z.leb_gt. lia.
Qed.



End PrefixTheorems.

Module PagingFacts.
Import Crawl Paging.

Lemma firstn_add {A : Type} (a b : nat) (l : list A) :
  firstn (a + b) l = firstn a l ++ firstn b (skipn a l).
Proof.
  revert l. induction a as [|a IH]; intros l; [reflexivity|].
  destruct l as [|x l]; cbn [Nat.add firstn skipn app].
  - destruct b; reflexivity.
  - rewrite IH. reflexivity.
Qed.

Section Pages.

Variable JOBS_PER_PAGE : Z.
Hypothesis positive : 0 < JOBS_PER_PAGE.

Local Abbreviation N := (Z.to_nat JOBS_PER_PAGE).

(** The page [m + 1] holds the [JOBS_PER_PAGE] jobs after the first
    [m * JOBS_PER_PAGE], or as many as are left. *)
Lemma jobsToShow_chunk (jobs : list Job) (m : nat) :
  jobsToShow JOBS_PER_PAGE (Z.of_nat (S m)) jobs
  = firstn N (skipn (m * N) jobs).
Proof.
  unfold jobsToShow, slice, relativeIndex. cbv zeta.
  set (len := List.length jobs).
  replace (Z.of_nat (S m) - 1) with (Z.of_nat m) by lia.
  assert (Hm : Z.of_nat m * JOBS_PER_PAGE = Z.of_nat (m * N)).
  { rewrite Nat2Z.inj_mul, Z2Nat.id by lia. reflexivity. }
  assert (HS : Z.of_nat (S m) * JOBS_PER_PAGE = Z.of_nat (m * N + N)).
  { rewrite Nat2Z.inj_add, Nat2Z.inj_mul, Z2Nat.id by lia. lia. }
  rewrite Hm, HS.
  destruct (Z.of_nat (m * N) <? 0) eqn:E1; [apply Z.ltb_lt in E1; lia|].
  destruct (Z.of_nat (m * N + N) <? 0) eqn:E2; [apply Z.ltb_lt in E2; lia|].
  destruct (Nat.le_gt_cases len (m * N)) as [Hle|Hgt].
  - rewrite (skipn_all2 jobs (n := m * N)) by (fold len; lia).
    rewrite (skipn_all2 jobs (n := Z.to_nat _)) by (fold len; lia).
    rewrite !firstn_nil. reflexivity.
  - rewrite (Z.min_l (Z.of_nat (m * N))) by lia. rewrite Nat2Z.id.
    assert (Hlen : List.length (skipn (m * N) jobs) = (len - m * N)%nat)
      by apply length_skipn.
    destruct (Nat.le_gt_cases len (m * N + N)) as [Hle2|Hgt2].
    + rewrite Z.min_r by lia.
      replace (Z.to_nat (Z.max (Z.of_nat len - Z.of_nat (m * N)) 0))
        with (len - m * N)%nat by lia.
      rewrite <- Hlen. rewrite firstn_all. symmetry. apply firstn_all2. lia.
    + rewrite Z.min_l by lia.
      replace (Z.to_nat (Z.max (Z.of_nat (m * N + N) - Z.of_nat (m * N)) 0))
        with N by lia.
      reflexivity.
Qed.

Lemma pages_prefix (jobs : list Job) (n : nat) :
  List.concat (map (fun p => jobsToShow JOBS_PER_PAGE p jobs)
            (map Z.of_nat (seq 1 n)))
  = firstn (n * N) jobs.
Proof.
  induction n as [|n IH]; [reflexivity|].
  rewrite seq_S, !map_app, concat_app, IH. cbn [map List.concat Nat.add].
  rewrite app_nil_r, jobsToShow_chunk.
  replace (S n * N)%nat with (n * N + N)%nat by lia.
  symmetry. apply firstn_add.
Qed.

Lemma totalPages_bounds (jobs : list Job) :
  let T := totalPages JOBS_PER_PAGE jobs in
  let len := Z.of_nat (List.length jobs) in
  0 <= T /\ len <= T * JOBS_PER_PAGE < len + JOBS_PER_PAGE.
Proof.
  cbv zeta. unfold totalPages. set (len := Z.of_nat (List.length jobs)).
  assert (Hlen : 0 <= len) by (unfold len; lia).
  pose proof (Z.div_mod (- len) JOBS_PER_PAGE ltac:(lia)) as Hd.
  pose proof (Z.mod_pos_bound (- len) JOBS_PER_PAGE positive) as Hb.
  set (q := - len / JOBS_PER_PAGE) in *.
  set (r := (- len) mod JOBS_PER_PAGE) in *.
  nia.
Qed.

End Pages.
End PagingFacts.

Module PagingTheorems.
Import Crawl Paging PagingFacts.

Lemma relativeIndex_step (len i n : Z) :
  0 <= len -> 0 <= n ->
  relativeIndex len (i + n) - relativeIndex len i <= n.
Proof.
  intros Hl Hn. unfold relativeIndex.
  destruct (i + n <? 0) eqn:E1; destruct (i <? 0) eqn:E2;
    try apply Z.ltb_lt in E1; try apply Z.ltb_ge in E1;
    try apply Z.ltb_lt in E2; try apply Z.ltb_ge in E2; lia.
Qed.

(** X17. The pages of [src/App.jsx], [unnamed/part_000] and
    [unnamed/part_001] cut the list they are given into consecutive parts:
    the pages 1 to [totalPages], one after the other, give the list back;
    no page, whatever its number, shows more than [JOBS_PER_PAGE] jobs;
    every page from 1 to [totalPages] shows one job at least, and every
    page after [totalPages] shows none. *)
Theorem pages_cut_the_list (JOBS_PER_PAGE : Z) (jobs : list Job) :
  0 < JOBS_PER_PAGE ->
  let T := totalPages JOBS_PER_PAGE jobs in
  List.concat (map (fun p => jobsToShow JOBS_PER_PAGE p jobs) (pagesUpTo T))
  = jobs /\
  (forall p, Z.of_nat (List.length (jobsToShow JOBS_PER_PAGE p jobs))
             <= JOBS_PER_PAGE) /\
  (forall p, 1 <= p <= T -> jobsToShow JOBS_PER_PAGE p jobs <> []) /\
  (forall p, T < p -> jobsToShow JOBS_PER_PAGE p jobs = []).
Proof.
  intros Hpos. cbv zeta.
  destruct (totalPages_bounds JOBS_PER_PAGE Hpos jobs) as (HT & Hlo & Hhi).
  set (T := totalPages JOBS_PER_PAGE jobs) in *.
  assert (HN : Z.of_nat (Z.to_nat JOBS_PER_PAGE) = JOBS_PER_PAGE)
    by (apply Z2Nat.id; lia).
  split; [|split; [|split]].
  - unfold pagesUpTo. rewrite (pages_prefix JOBS_PER_PAGE Hpos).
    apply firstn_all2. nia.
  - intros p. unfold jobsToShow, slice. cbv zeta.
    pose proof (length_firstn
                  (Z.to_nat
                     (Z.max
                        (relativeIndex (Z.of_nat (List.length jobs))
                           (p * JOBS_PER_PAGE)
                         - relativeIndex (Z.of_nat (List.length jobs))
                             ((p - 1) * JOBS_PER_PAGE)) 0))
                  (skipn (Z.to_nat (relativeIndex (Z.of_nat (List.length jobs))
                                      ((p - 1) * JOBS_PER_PAGE))) jobs)) as Hl.
    pose proof (relativeIndex_step (Z.of_nat (List.length jobs))
                  ((p - 1) * JOBS_PER_PAGE) JOBS_PER_PAGE
                  ltac:(lia) ltac:(lia)) as Hs.
    replace ((p - 1) * JOBS_PER_PAGE + JOBS_PER_PAGE)
      with (p * JOBS_PER_PAGE) in Hs by lia.
    rewrite Hl. lia.
  - intros p Hp.
    replace p with (Z.of_nat (S (Z.to_nat (p - 1)))) by lia.
    rewrite (jobsToShow_chunk JOBS_PER_PAGE Hpos).
    intros E. apply (f_equal (@List.length Job)) in E.
    rewrite length_firstn, length_skipn in E. cbn [List.length] in E. nia.
  - intros p Hp.
    replace p with (Z.of_nat (S (Z.to_nat (p - 1)))) by lia.
    rewrite (jobsToShow_chunk JOBS_PER_PAGE Hpos).
    rewrite skipn_all2 by nia. apply firstn_nil.
Qed.

Lemma pages_cut_the_list_witness :
  let T := totalPages 5 (repeat Scenario.job10 12) in
  List.concat (map (fun p => jobsToShow 5 p (repeat Scenario.job10 12))
                 (pagesUpTo T))
  = repeat Scenario.job10 12 /\
  (forall p, Z.of_nat (List.length (jobsToShow 5 p (repeat Scenario.job10 12)))
             <= 5) /\
  (forall p, 1 <= p <= T -> jobsToShow 5 p (repeat Scenario.job10 12) <> []) /\
  (forall p, T < p -> jobsToShow 5 p (repeat Scenario.job10 12) = []).
Proof.
  apply (pages_cut_the_list 5 (repeat Scenario.job10 12)). lia.
Defined.

Lemma clicks_in_range (JOBS_PER_PAGE : Z) (jobs : list Job)
    (clicks : list Click) :
  1 <= totalPages JOBS_PER_PAGE jobs ->
  forall p, 1 <= p <= totalPages JOBS_PER_PAGE jobs ->
            1 <= fold_left (click JOBS_PER_PAGE jobs) clicks p
            <= totalPages JOBS_PER_PAGE jobs.
Proof.
  intros HT. induction clicks as [|c clicks IH]; intros p Hp; [exact Hp|].
  cbn [fold_left]. apply IH.
  destruct c; unfold click, goToPrevPage, goToNextPage; lia.
Qed.

(** X18. In [src/App.jsx] and [unnamed/part_001], while the job list is
    not empty, which is when the two buttons are drawn, no sequence of
    clicks on Previous and Next from a page in range leaves the range 1 to
    [totalPages], so the page shown is never empty; Previous does nothing
    on page 1 and Next does nothing on the last page. *)
Theorem paging_stays_in_range (JOBS_PER_PAGE : Z) (jobs : list Job)
    (clicks : list Click) (page : Z) :
  0 < JOBS_PER_PAGE -> jobs <> [] ->
  1 <= page <= totalPages JOBS_PER_PAGE jobs ->
  let T := totalPages JOBS_PER_PAGE jobs in
  let p := fold_left (click JOBS_PER_PAGE jobs) clicks page in
  1 <= p <= T /\ jobsToShow JOBS_PER_PAGE p jobs <> [] /\
  click JOBS_PER_PAGE jobs 1 Previous = 1 /\
  click JOBS_PER_PAGE jobs T Next = T.
Proof.
  intros Hpos Hne Hp. cbv zeta.
  assert (HT : 1 <= totalPages JOBS_PER_PAGE jobs) by lia.
  pose proof (clicks_in_range JOBS_PER_PAGE jobs clicks HT page Hp) as Hr.
  split; [exact Hr|]. split.
  - destruct (PagingFacts.totalPages_bounds JOBS_PER_PAGE Hpos jobs)
      as (H0 & Hlo & Hhi).
    set (q := fold_left (click JOBS_PER_PAGE jobs) clicks page) in *.
    replace q with (Z.of_nat (S (Z.to_nat (q - 1)))) by lia.
    rewrite (jobsToShow_chunk JOBS_PER_PAGE Hpos).
    assert (HN : Z.of_nat (Z.to_nat JOBS_PER_PAGE) = JOBS_PER_PAGE)
      by (apply Z2Nat.id; lia).
    intros E. apply (f_equal (@List.length Job)) in E.
    rewrite length_firstn, length_skipn in E. cbn [List.length] in E. nia.
  - unfold click, goToPrevPage, goToNextPage. lia.
Qed.

Lemma paging_stays_in_range_witness :
  let T := totalPages 5 (repeat Scenario.job10 12) in
  let p := fold_left (click 5 (repeat Scenario.job10 12))
             [Next; Next; Next; Previous] 1 in
  1 <= p <= T /\ jobsToShow 5 p (repeat Scenario.job10 12) <> [] /\
  click 5 (repeat Scenario.job10 12) 1 Previous = 1 /\
  click 5 (repeat Scenario.job10 12) T Next = T.
Proof.
  apply (paging_stays_in_range 5 (repeat Scenario.job10 12)
           [Next; Next; Next; Previous] 1).
  - lia.
  - discriminate.
  - vm_compute. split; discriminate.
Defined.

End PagingTheorems.

Module TitleTheorems.
Import Crawl UrlFacts.

Lemma firstTitle_Some (long : string -> bool) (doc : Document)
    (selectors : list string) (t : string) :
  firstTitle long doc selectors = Some t ->
  long t = true /\
  exists selector text,
    In selector selectors /\ querySelector doc selector = Some text /\
    t = Str.trim text.
Proof.
  induction selectors as [|selector rest IH]; cbn [firstTitle]; [discriminate|].
  destruct (querySelector doc selector) as [text|] eqn:E.
  - destruct (long (Str.trim text)) eqn:El.
    + intros [= <-]. split; [exact El|].
      exists selector, text. split; [left; reflexivity | auto].
    + intros H. destruct (IH H) as (Hl & s & x & Hin & Hq & Ht).
      split; [exact Hl|]. exists s, x. split; [right; exact Hin | auto].
  - intros H. destruct (IH H) as (Hl & s & x & Hin & Hq & Ht).
    split; [exact Hl|]. exists s, x. split; [right; exact Hin | auto].
Qed.

(** X19. In [src/App.jsx] and [unnamed/part_000] the title given to a job
    has no white space around it; and on a page without an [h1] it passes
    the test of its file, a space inside in [src/App.jsx] and more than ten
    characters in [unnamed/part_000], be it taken from the page or the
    fixed text for a missing title. *)
Theorem findTitle_facts (doc : Document) :
  Str.trim (findTitle AppJsx.long doc) = findTitle AppJsx.long doc /\
  Str.trim (findTitle Part000.long doc) = findTitle Part000.long doc /\
  (querySelector doc "h1" = None ->
   AppJsx.long (findTitle AppJsx.long doc) = true /\
   Part000.long (findTitle Part000.long doc) = true).
Proof.
  assert (Htrim : forall long,
             Str.trim (findTitle long doc) = findTitle long doc).
  { intros long. unfold findTitle.
    destruct (firstTitle long doc structuralSelectors) as [t|] eqn:E.
    - apply firstTitle_Some in E as (_ & s & text & _ & _ & ->).
      apply trim_idem.
    - destruct (querySelector doc "h1"); [apply trim_idem | reflexivity]. }
  assert (Hlong : forall long,
             long "Post Title Not Found" = true ->
             querySelector doc "h1" = None ->
             long (findTitle long doc) = true).
  { intros long Hs Hq. unfold findTitle.
    destruct (firstTitle long doc structuralSelectors) as [t|] eqn:E.
    - apply firstTitle_Some in E as (Hl & _). exact Hl.
    - rewrite Hq. exact Hs. }
  split; [apply Htrim|]. split; [apply Htrim|].
  intros Hq. split; apply Hlong; auto.
Qed.

Lemma findTitle_facts_witness :
  AppJsx.long (findTitle AppJsx.long (mkDocument [] (fun _ => None) "")) = true /\
  Part000.long (findTitle Part000.long (mkDocument [] (fun _ => None) ""))
  = true.
Proof.
  apply (proj2 (proj2 (findTitle_facts (mkDocument [] (fun _ => None) "")))).
  reflexivity.
Defined.

End TitleTheorems.

Module ShadowTheorems.
Import Regex Patterns MatchFacts RoundTrip InversionFacts PatternFacts JSDate.
Import FormatFacts TriggerFacts.

Lemma search_found (n : nat) (r : re) (pre s0 : string) (c : captures) :
  attempt n r s0 = Some c -> exists c', search n r (pre ++ s0)%string = Some c'.
Proof.
  intros H. induction pre as [|x pre IH].
  - exists c. apply search_attempt. exact H.
  - simpl append. rewrite search_unfold.
    destruct (attempt n r (String x (pre ++ s0))) as [c0|];
      [exists c0; reflexivity | exact IH].
Qed.

Lemma sep_is_no_digit (x : ascii) : Str.is_sep x = true -> Str.is_digit x = false.
Proof.
  destruct x as [[] [] [] [] [] [] [] []]; intros H;
    try discriminate H; reflexivity.
Qed.

(** Two digits and what follows them, cut where a greedy [\d{2,4}] stops. *)
Lemma year_run (d1 d2 : ascii) (rest : string) :
  Str.is_digit d1 = true -> Str.is_digit d2 = true ->
  exists Y rest',
    String d1 (String d2 rest) = (Y ++ rest')%string /\
    Str.all Str.is_digit Y = true /\ (2 <= String.length Y <= 4)%nat /\
    stops Str.is_digit (upTo 4) (String.length Y) rest'.
Proof.
  intros H1 H2.
  destruct rest as [|d3 rest].
  { exists (String d1 (String d2 "")), "". simpl. rewrite H1, H2.
    repeat split; auto. right. exact I. }
  destruct (Str.is_digit d3) eqn:H3.
  2:{ exists (String d1 (String d2 "")), (String d3 rest). simpl.
      rewrite H1, H2. repeat split; auto. right. exact H3. }
  destruct rest as [|d4 rest].
  { exists (String d1 (String d2 (String d3 ""))), "". simpl.
    rewrite H1, H2, H3. repeat split; auto. right. exact I. }
  destruct (Str.is_digit d4) eqn:H4.
  2:{ exists (String d1 (String d2 (String d3 ""))), (String d4 rest). simpl.
      rewrite H1, H2, H3. repeat split; auto. right. exact H4. }
  exists (String d1 (String d2 (String d3 (String d4 "")))), rest. simpl.
  rewrite H1, H2, H3, H4. repeat split; auto. left. reflexivity.
Qed.

(** A match of the year-month-day pattern with a day of two digits holds a
    match of the day-month-year pattern, two characters further on. *)
Lemma ymd_holds_dmy (s : string) (parts : captures) (D : string) :
  search 3 ymdPattern s = Some parts ->
  getCapture 3 parts = Some D -> String.length D = 2%nat ->
  exists parts', search 3 dmyPattern s = Some parts'.
Proof.
  intros H Hc HD. apply search_inv in H as (pre & s0 & -> & H).
  unfold attempt, ymdPattern, digits in H. rewrite run_Seq in H.
  apply group_run_inv in H as (Y4 & r1 & -> & HY & LY & FY & H).
  cbv beta in H. rewrite run_Seq in H.
  apply chr_inv in H as (x1 & r2 & -> & H1 & H). rewrite run_Seq in H.
  apply group_run_inv in H as (M & r3 & -> & HM & LM & FM & H).
  cbv beta in H. rewrite run_Seq in H.
  apply chr_inv in H as (x2 & r4 & -> & H2 & H).
  apply group_run_inv in H as (D' & rest & -> & HD' & LD' & FD' & H).
  cbv beta in H. injection H as <-.
  assert (D' = D).
  { unfold getCapture in Hc. cbn [nth] in Hc. congruence. }
  subst D'. simpl in FY, FM.
  destruct Y4 as [|y1 [|y2 [|y3 [|y4 [|y5 Y4]]]]]; simpl in LY, FY; try lia.
  destruct D as [|d1 [|d2 [|d3 D]]]; simpl in HD; try lia.
  simpl in HY, HD'.
  apply andb_true_iff in HY as [_ HY]. apply andb_true_iff in HY as [_ HY].
  apply andb_true_iff in HY as [Hy3 HY]. apply andb_true_iff in HY as [Hy4 _].
  apply andb_true_iff in HD' as [Hd1 HD']. apply andb_true_iff in HD' as [Hd2 _].
  destruct (year_run d1 d2 rest Hd1 Hd2)
    as (Y & rest' & EY & HYd & LYd & Hstop).
  assert (Hat : exists c,
             attempt 3 dmyPattern
               (String y3 (String y4 "")
                ++ String x1 (M ++ String x2 (Y ++ rest')))%string = Some c).
  { eexists. unfold attempt, dmyPattern, digits.
    rewrite run_Seq. apply run_group_run.
    - simpl. rewrite Hy3, Hy4. reflexivity.
    - simpl. lia.
    - simpl. lia.
    - left. reflexivity.
    - cbv beta. rewrite run_Seq, run_Chr, H1, run_Seq.
      apply run_group_run; auto; try (simpl; lia).
      { right. apply sep_is_no_digit. exact H2. }
      cbv beta. rewrite run_Seq, run_Chr, H2.
      apply run_group_run; auto; simpl; lia. }
  destruct Hat as (c & Hat).
  replace (pre ++ (String y1 (String y2 (String y3 (String y4 "")))
                   ++ String x1 (M ++ String x2
                        (String d1 (String d2 "") ++ rest))))%string
    with ((pre ++ String y1 (String y2 ""))
          ++ (String y3 (String y4 "")
              ++ String x1 (M ++ String x2 (Y ++ rest'))))%string.
  - eapply search_found. exact Hat.
  - rewrite app_assoc. simpl. rewrite <- EY. reflexivity.
Qed.

(** X20. In [unnamed/part_000] the third pattern of [parseDate], year,
    month, day, never reads a text in which it matches with a day of two
    digits: the first pattern matches in that text too, two characters
    further on, and [parseDate] returns that reading, the last two digits
    of the year taken as the day. *)
Theorem ymd_is_shadowed (dateParse : string -> option Z) (s : string)
    (parts : captures) (D : string) :
  search 3 ymdPattern s = Some parts ->
  getCapture 3 parts = Some D -> String.length D = 2%nat ->
  exists t, dmyBranch s = Some t /\
            Part000.parseDate dateParse (Some s) = Ret (Some t).
Proof.
  intros H Hc HD.
  destruct (ymd_holds_dmy s parts D H Hc HD) as (parts' & Hs).
  destruct (dmy_captures s parts' Hs)
    as (D' & M' & Y' & H1 & H2 & H3 & HD' & LD' & HM' & LM' & HY' & LY').
  pose proof (PatternTheorems.dmyBranch_of_captures s parts' D' M' Y'
                Hs H1 H2 H3 HD' LD' HM' LM' HY' LY') as Hb.
  eexists. split; [exact Hb|].
  apply (FormatTheorems.reads_dmy dateParse s _ Hb).
Qed.

Lemma ymd_is_shadowed_witness :
  exists t, dmyBranch "2025-01-15" = Some t /\
            Part000.parseDate Scenario.noDateParse (Some "2025-01-15")
            = Ret (Some t).
Proof.
  apply (ymd_is_shadowed Scenario.noDateParse "2025-01-15"
           [Some "2025-01-15"; Some "2025"; Some "01"; Some "15"] "15");
    vm_compute; reflexivity.
Defined.

Lemma ymd_day (s : string) (parts : captures) :
  search 3 ymdPattern s = Some parts ->
  exists D, getCapture 3 parts = Some D /\ (1 <= String.length D <= 2)%nat.
Proof.
  intros H. apply search_inv in H as (pre & s0 & -> & H).
  unfold attempt, ymdPattern, digits in H. rewrite run_Seq in H.
  apply group_run_inv in H as (Y4 & r1 & -> & HY & LY & FY & H).
  cbv beta in H. rewrite run_Seq in H.
  apply chr_inv in H as (x1 & r2 & -> & H1 & H). rewrite run_Seq in H.
  apply group_run_inv in H as (M & r3 & -> & HM & LM & FM & H).
  cbv beta in H. rewrite run_Seq in H.
  apply chr_inv in H as (x2 & r4 & -> & H2 & H).
  apply group_run_inv in H as (D & rest & -> & HD & LD & FD & H).
  cbv beta in H. injection H as <-.
  exists D. simpl in FD. split; [reflexivity | lia].
Qed.

(** X21. The [parseDate] of [src/App.jsx] and that of [unnamed/part_000]
    return the same for every text but those that only the third pattern
    of [unnamed/part_000] reads: there the first two patterns give nothing,
    the year-month-day pattern matches with a day of one digit,
    [unnamed/part_000] returns its reading and [src/App.jsx] what the host
    makes of the text. *)
Theorem parseDate_variants_differ_on_ymd_only (dateParse : string -> option Z)
    (s : string) :
  AppJsx.parseDate dateParse (Some s) <> Part000.parseDate dateParse (Some s) ->
  dmyBranch s = None /\ textValue s = None /\
  (exists parts D,
     search 3 ymdPattern s = Some parts /\ getCapture 3 parts = Some D /\
     String.length D = 1%nat) /\
  exists t,
    ymdBranch s = Some t /\
    Part000.parseDate dateParse (Some s) = Ret (Some t) /\
    AppJsx.parseDate dateParse (Some s) = Ret (dateParse s).
Proof.
  intros Hne. destruct s as [|c s]; [exfalso; apply Hne; reflexivity|].
  destruct (parseDate_order dateParse (String c s) ltac:(discriminate))
    as (Ea & Eb & _).
  rewrite Ea, Eb in *. clear Ea Eb. unfold firstDate in *.
  destruct (dmyBranch (String c s)) as [t1|] eqn:E1;
    [exfalso; apply Hne; reflexivity|].
  destruct (textValue (String c s)) as [t2|] eqn:E2;
    [exfalso; apply Hne; reflexivity|].
  destruct (ymdBranch (String c s)) as [t|] eqn:E3;
    [|exfalso; apply Hne; reflexivity].
  split; [reflexivity|]. split; [reflexivity|]. split; [|eauto].
  unfold ymdBranch in E3.
  destruct (search 3 ymdPattern (String c s)) as [parts|] eqn:Es;
    [|discriminate].
  destruct (ymd_day _ _ Es) as (D & Hc & HD).
  exists parts, D. split; [reflexivity|]. split; [exact Hc|].
  destruct (Nat.eq_dec (String.length D) 2) as [H2|H2]; [exfalso | lia].
  destruct (ymd_holds_dmy _ parts D Es Hc H2) as (parts' & Hs).
  destruct (dmy_captures _ parts' Hs)
    as (D' & M' & Y' & H1 & H2' & H3 & HD' & LD' & HM' & LM' & HY' & LY').
  pose proof (PatternTheorems.dmyBranch_of_captures _ parts' D' M' Y'
                Hs H1 H2' H3 HD' LD' HM' LM' HY' LY') as Hb.
  congruence.
Qed.

Lemma parseDate_variants_differ_on_ymd_only_witness :
  dmyBranch "2025-1-5" = None /\ textValue "2025-1-5" = None /\
  (exists parts D,
     search 3 ymdPattern "2025-1-5" = Some parts /\
     getCapture 3 parts = Some D /\ String.length D = 1%nat) /\
  exists t,
    ymdBranch "2025-1-5" = Some t /\
    Part000.parseDate Scenario.noDateParse (Some "2025-1-5") = Ret (Some t) /\
    AppJsx.parseDate Scenario.noDateParse (Some "2025-1-5")
    = Ret (Scenario.noDateParse "2025-1-5").
Proof.
  apply (parseDate_variants_differ_on_ymd_only Scenario.noDateParse "2025-1-5").
  vm_compute. discriminate.
Defined.

End ShadowTheorems.
